(** * The authentication core of the education platform, embedded in Rocq

    A shallow embedding of the TypeScript sources

      - [shared/common/src/types/Result.ts]          (module [ResultT])
      - [shared/common/src/base/BaseService.ts]      (module [BaseService])
      - [shared/common/src/base/BaseEntity.ts]       (module [BaseEntity])
      - [shared/common/src/utils/ValidationUtils.ts] (module [ValidationUtils])
      - [services/authentication-service/src/services/AuthService.ts]
                                                     (module [AuthService])

    beside models of what these sources call and do not contain: the
    libraries jsonwebtoken and bcryptjs ([Jwt], [Bcrypt]), the user
    aggregate ([User]) and a user store ([MemoryStore]).

    Conventions.  A JavaScript string is a Rocq [string], one character per
    UTF-16 code unit; code units above 255 are outside the model.  Numbers
    are integers ([Z]); instants are seconds since the epoch.  An [async]
    method that rejects its promise and a method that throws are both a
    [Throw] completion; logging is not observable by a caller and is left
    out.  The definitions come first, the properties after them. *)

From Stdlib Require Import ZArith Ascii String List Bool Lia.
From stdpp Require Import base option list strings gmap.

Local Open Scope string_scope.
Local Open Scope Z_scope.

(** ** JavaScript completions *)

Module JS.

(** The error classes the sources construct or test with [instanceof]. *)
Inductive ErrorClass :=
| Error
| TypeError
| JsonWebTokenError
| TokenExpiredError
| NotBeforeError.

Record Exception := mkException { class : ErrorClass; message : string }.

(** [new Error(msg)] *)
Definition new_Error (msg : string) : Exception := mkException Error msg.

(** A call either returns a value or throws. *)
Inductive completion (A : Type) :=
| Return (a : A)
| Throw (e : Exception).
Arguments Return {A} a.
Arguments Throw {A} e.

Definition returns {A} (c : completion A) : bool :=
  match c with Return _ => true | Throw _ => false end.

(** Computations over a mutable store [S] that may throw: what an
    [async] method of a service with a repository is. *)
Definition M (S A : Type) : Type := S -> S * completion A.

Definition ret {S A} (a : A) : M S A := fun s => (s, Return a).
Definition throw {S A} (e : Exception) : M S A := fun s => (s, Throw e).
Definition bind {S A B} (m : M S A) (k : A -> M S B) : M S B :=
  fun s => match m s with
           | (s', Return a) => k a s'
           | (s', Throw e) => (s', Throw e)
           end.
(** [try { body } catch (error) { handler }] *)
Definition try_catch {S A} (body : M S A) (handler : Exception -> M S A) : M S A :=
  fun s => match body s with
           | (s', Return a) => (s', Return a)
           | (s', Throw e) => handler e s'
           end.
(** A call that cannot touch the store. *)
Definition lift {S A} (c : completion A) : M S A := fun s => (s, c).

(** Truthiness of a string: [!s] holds exactly for the empty string. *)
Definition truthy (s : string) : bool := negb (String.eqb s "").

End JS.

Import JS.

Declare Scope js_scope.
Delimit Scope js_scope with js.
Notation "'let!' x ':=' m 'in' k" := (JS.bind m (fun x => k))
  (at level 10, x name, m at level 100, k at level 200) : js_scope.
Notation "'run!' m 'in' k" := (JS.bind m (fun _ => k))
  (at level 10, m at level 100, k at level 200) : js_scope.

(** ** [Result<T>] *)

Module ResultT.

(** [Record<string, any>] of error details, kept as key/value text. *)
Definition ErrorDetails := list (string * string).

(** The four private fields of the class; [None] is [undefined]. *)
Record Result (T : Type) := mkResult {
  _isSuccess : bool;
  _data : option T;
  _error : option string;
  _errorDetails : option ErrorDetails
}.
Arguments mkResult {T} _ _ _ _.
Arguments _isSuccess {T} _.
Arguments _data {T} _.
Arguments _error {T} _.
Arguments _errorDetails {T} _.

Section Accessors.
Context {T : Type}.

Definition isSuccess (r : Result T) : bool := _isSuccess r.
Definition isFailure (r : Result T) : bool := negb (_isSuccess r).

(** [get data()]: the stored slot, [undefined] included. *)
Definition data (r : Result T) : completion (option T) :=
  if negb (_isSuccess r)
  then Throw (new_Error "Cannot access data from a failed result")
  else Return (_data r).

(** [get error()] *)
Definition error (r : Result T) : completion (option string) :=
  if _isSuccess r
  then Throw (new_Error "Cannot access error from a successful result")
  else Return (_error r).

Definition errorDetails (r : Result T) : option ErrorDetails := _errorDetails r.

(** [static success(data)] *)
Definition success (d : T) : Result T := mkResult true (Some d) None None.

(** [static failure(error, errorDetails?)] *)
Definition failure_with (e : string) (details : option ErrorDetails) : Result T :=
  mkResult false None (Some e) details.
Definition failure (e : string) : Result T := failure_with e None.

(** [unwrapOr(defaultValue)] *)
Definition unwrapOr (r : Result T) (defaultValue : T) : option T :=
  if _isSuccess r then _data r else Some defaultValue.
End Accessors.

(** [flatMap(fn)] *)
Definition flatMap {T U} (r : Result T) (fn : option T -> Result U) : Result U :=
  if _isSuccess r then fn (_data r)
  else mkResult false None (_error r) (_errorDetails r).

(** [match(onSuccess, onFailure)] *)
Definition match_ {T U} (r : Result T) (onSuccess : option T -> U)
    (onFailure : option string -> option ErrorDetails -> U) : U :=
  if _isSuccess r then onSuccess (_data r)
  else onFailure (_error r) (_errorDetails r).

(** A failure seen at another payload type: the same object, which
    TypeScript lets a method return as [Result<U>]. *)
Definition recast {T U} (r : Result T) : Result U :=
  mkResult (_isSuccess r) None (_error r) (_errorDetails r).

End ResultT.

Import ResultT.

(** ** [BaseService]: the readiness life cycle *)

Module BaseService.

Record state := mkState {
  serviceName : string;
  isInitialized : bool;
  isShuttingDown : bool
}.

(** [constructor(serviceName, logger?)] *)
Definition new (name : string) : state := mkState name false false.

Definition set_isInitialized (b : bool) (s : state) : state :=
  mkState (serviceName s) b (isShuttingDown s).
Definition set_isShuttingDown (b : bool) (s : state) : state :=
  mkState (serviceName s) (isInitialized s) b.

(** [initialize()], given how the subclass hook [doInitialize] ends. *)
Definition initialize (doInitialize : completion unit) (s : state)
    : state * completion unit :=
  if isInitialized s then (s, Return tt)
  else match doInitialize with
       | Return _ => (set_isInitialized true s, Return tt)
       | Throw e => (s, Throw e)
       end.

(** The state [shutdown()] leaves while it awaits [doShutdown]. *)
Definition shutdown_begun (s : state) : state := set_isShuttingDown true s.

(** [shutdown()], given how the subclass hook [doShutdown] ends. *)
Definition shutdown (doShutdown : completion unit) (s : state)
    : state * completion unit :=
  if isShuttingDown s then (s, Return tt)
  else match doShutdown with
       | Return _ => (set_isInitialized false (shutdown_begun s), Return tt)
       | Throw e => (shutdown_begun s, Throw e)
       end.

(** [isReady()] *)
Definition isReady (s : state) : bool :=
  isInitialized s && negb (isShuttingDown s).

Definition not_ready (s : state) : Exception :=
  new_Error ("Service " ++ serviceName s ++ " is not ready").

(** [validateReady()] *)
Definition validateReady (s : state) : completion unit :=
  if negb (isReady s) then Throw (not_ready s) else Return tt.

(** Life-cycle calls made on a service, with the outcome of the hook. *)
Inductive call :=
| Initialize (doInitialize : completion unit)
| Shutdown (doShutdown : completion unit).

Definition step (s : state) (c : call) : state :=
  match c with
  | Initialize o => fst (initialize o s)
  | Shutdown o => fst (shutdown o s)
  end.

Definition run (calls : list call) (s : state) : state :=
  fold_left step calls s.

Definition is_completed_initialize (c : call) : bool :=
  match c with Initialize (Return _) => true | _ => false end.
Definition is_shutdown (c : call) : bool :=
  match c with Shutdown _ => true | _ => false end.

End BaseService.

(** ** JavaScript strings and the regular expressions of the sources *)

Module JSString.

Definition code (c : ascii) : N := N_of_ascii c.
Definition in_range (lo hi : N) (c : ascii) : bool :=
  ((lo <=? code c) && (code c <=? hi))%N.

(** [[A-Z]], [[a-z]], [\d] *)
Definition is_upper (c : ascii) : bool := in_range 65 90 c.
Definition is_lower (c : ascii) : bool := in_range 97 122 c.
Definition is_digit (c : ascii) : bool := in_range 48 57 c.

(** [\s] and the characters [trim()] strips, below code 256: TAB, LF,
    VT, FF, CR, space, NBSP. *)
Definition is_space (c : ascii) : bool :=
  in_range 9 13 c || (code c =? 32)%N || (code c =? 160)%N.

(** The punctuation class that [ValidationUtils.validatePassword] tests
    for a special character, as character codes in source order. *)
Definition special_codes : list N :=
  [33; 64; 35; 36; 37; 94; 38; 42; 40; 41; 95; 43; 45; 61; 91; 93; 123;
   125; 59; 39; 58; 34; 92; 124; 44; 46; 60; 62; 47; 63]%N.
Definition is_special (c : ascii) : bool :=
  existsb (N.eqb (code c)) special_codes.

Definition chars (s : string) : list ascii := list_ascii_of_string s.

(** [/[class]/.test(s)]: some character of [s] is in the class. *)
Definition test_class (p : ascii -> bool) (s : string) : bool :=
  existsb p (chars s).

(** [s.length] *)
Definition length (s : string) : Z := Z.of_nat (String.length s).

(** [toUpperCase()].  Exact on code units below 128.  From 128 to 255
    JavaScript yields characters outside [A-Z] or, for the sharp s, the
    pair SS, which no role name contains; a comparison of the result with
    the role names of [AuthService] is therefore exact on the whole
    range. *)
Definition upper_char (c : ascii) : ascii :=
  if is_lower c then ascii_of_N (code c - 32) else c.
Fixpoint toUpperCase (s : string) : string :=
  match s with
  | EmptyString => EmptyString
  | String c s' => String (upper_char c) (toUpperCase s')
  end.

(** [trim()] *)
Fixpoint trimStart (s : string) : string :=
  match s with
  | EmptyString => EmptyString
  | String c s' => if is_space c then trimStart s' else s
  end.
Fixpoint trimEnd (s : string) : string :=
  match s with
  | EmptyString => EmptyString
  | String c s' =>
      match trimEnd s' with
      | EmptyString => if is_space c then EmptyString else String c EmptyString
      | t => String c t
      end
  end.
Definition trim (s : string) : string := trimEnd (trimStart s).

(** [array.join(sep)] *)
Fixpoint join (sep : string) (l : list string) : string :=
  match l with
  | [] => ""
  | [x] => x
  | x :: rest => x ++ sep ++ join sep rest
  end.

(** [array.includes(x)] *)
Definition includes (l : list string) (x : string) : bool :=
  existsb (String.eqb x) l.

(** Anchored regular expressions, matched by derivatives. *)
Inductive regex :=
| Never
| Epsilon
| Class (p : ascii -> bool)
| Seq (r1 r2 : regex)
| Star (r : regex).

(** [r+] *)
Definition Plus (r : regex) : regex := Seq r (Star r).
Definition Lit (c : ascii) : regex := Class (Ascii.eqb c).

Fixpoint nullable (r : regex) : bool :=
  match r with
  | Never => false
  | Epsilon => true
  | Class _ => false
  | Seq r1 r2 => nullable r1 && nullable r2
  | Star _ => true
  end.

(** The derivative of [r] by [c], as the list of its alternatives. *)
Fixpoint deriv (c : ascii) (r : regex) : list regex :=
  match r with
  | Never => []
  | Epsilon => []
  | Class p => if p c then [Epsilon] else []
  | Seq r1 r2 =>
      List.map (fun d => Seq d r2) (deriv c r1)
      ++ (if nullable r1 then deriv c r2 else [])
  | Star r1 => List.map (fun d => Seq d (Star r1)) (deriv c r1)
  end.

Fixpoint matches_any (rs : list regex) (s : string) : bool :=
  match s with
  | EmptyString => existsb nullable rs
  | String c s' => matches_any (flat_map (deriv c) rs) s'
  end.

(** [/^r$/.test(s)] *)
Definition test_anchored (r : regex) (s : string) : bool := matches_any [r] s.

End JSString.

(** ** [BaseEntity] and [AuditableEntity] *)

Module BaseEntity.

Inductive AuditAction := CREATE | UPDATE | DELETE | VIEW | EXPORT.

(** The values a property of an entity holds.  [auditUpdate] reads and
    writes properties by name, so an entity is kept as JavaScript has it:
    a map from own-property names to values.  [VNum n] is the number
    whose value is the integer [n]; [VOther] stands for any value the
    model does not track (NaN, a number with a fraction, a foreign
    object). *)
Inductive value :=
| VUndefined
| VNull
| VBool (b : bool)
| VNum (n : Z)
| VStr (s : string)
| VDate (t : Z)
| VLog (entries : list AuditEntry)
| VOther
with AuditEntry :=
| mkAuditEntry (timestamp : Z) (userId : string) (action : AuditAction)
    (changes : list (string * (value * value)))
    (metadata : option (list (string * value))).

Definition timestamp (a : AuditEntry) : Z :=
  match a with mkAuditEntry t _ _ _ _ => t end.
Definition userId (a : AuditEntry) : string :=
  match a with mkAuditEntry _ u _ _ _ => u end.
Definition action (a : AuditEntry) : AuditAction :=
  match a with mkAuditEntry _ _ x _ _ => x end.
Definition changes (a : AuditEntry) : list (string * (value * value)) :=
  match a with mkAuditEntry _ _ _ c _ => c end.

(** An entity: its own properties. *)
Abbreviation entity := (gmap string value).

(** [Partial<IAuditable>]: the optional constructor argument. *)
Record IAuditableData := mkData {
  d_id : option string;
  d_createdAt : option Z;
  d_updatedAt : option Z;
  d_createdBy : option string;
  d_updatedBy : option string;
  d_version : option Z;
  d_auditLog : option (list AuditEntry)
}.

Definition opt_str (o : option string) : value :=
  match o with Some s => VStr s | None => VUndefined end.

(** [data?.f || fallback] for a string and for a number *)
Definition or_str (o : option string) (fallback : string) : string :=
  match o with Some s => if truthy s then s else fallback | None => fallback end.
Definition or_num (o : option Z) (fallback : Z) : Z :=
  match o with Some n => if n =? 0 then fallback else n | None => fallback end.

(** The two constructors, [BaseEntity] then [AuditableEntity]; [uuid] is
    the value [uuidv4()] draws and [now] the clock. *)
Definition new_BaseEntity (data : option IAuditableData) (uuid : string) (now : Z)
    : entity :=
  <["updatedBy" := opt_str (data ≫= d_updatedBy)]>
  (<["createdBy" := opt_str (data ≫= d_createdBy)]>
  (<["updatedAt" := VDate (default now (data ≫= d_updatedAt))]>
  (<["createdAt" := VDate (default now (data ≫= d_createdAt))]>
  (<["id" := VStr (or_str (data ≫= d_id) uuid)]> ∅)))).

Definition new_AuditableEntity (data : option IAuditableData) (uuid : string)
    (now : Z) : entity :=
  <["auditLog" := VLog (default [] (data ≫= d_auditLog))]>
  (<["version" := VNum (or_num (data ≫= d_version) 1)]>
  (new_BaseEntity data uuid now)).

(** The typed view of the two bookkeeping properties. *)
Definition version (e : entity) : option Z :=
  match e !! "version" with Some (VNum n) => Some n | _ => None end.
Definition auditLog (e : entity) : option (list AuditEntry) :=
  match e !! "auditLog" with Some (VLog l) => Some l | _ => None end.

(** [updateMetadata(updatedBy?)] *)
Definition updateMetadata (updatedBy : option string) (now : Z) (e : entity)
    : entity :=
  let e1 := <["updatedAt" := VDate now]> e in
  match updatedBy with
  | Some u => if truthy u then <["updatedBy" := VStr u]> e1 else e1
  | None => e1
  end.

(** Numbers are IEEE doubles.  Every integer up to 2^53 in magnitude is
    one; beyond that a result is rounded to the nearest integer that is
    one, which keeps 53 bits, a tie going to the even mantissa. *)
Definition round_to_double (z : Z) : Z :=
  let a := Z.abs z in
  if a <=? 2 ^ 53 then z
  else
    let e := Z.log2 a - 52 in
    let q := Z.shiftr a e in
    let r := a - Z.shiftl q e in
    let half := Z.shiftl 1 (e - 1) in
    let q' := if (half <? r) || ((r =? half) && Z.odd q) then q + 1 else q in
    Z.sgn z * Z.shiftl q' e.

(** [n + 1] on numbers, and [count] such steps *)
Definition increment (n : Z) : Z := round_to_double (n + 1).
Fixpoint increments (count : nat) (n : Z) : Z :=
  match count with
  | O => n
  | S k => increments k (increment n)
  end.

(** [count] increments from [n] are counted exactly: none is taken, or
    every value reached is an integer that a number holds exactly. *)
Definition counts_exactly (n count : Z) : Prop :=
  count = 0 \/ (- 2 ^ 53 <= n + 1 /\ n + count <= 2 ^ 53).

(** [x += 1] on a property value. *)
Definition add_one (v : value) : value :=
  match v with
  | VNum n => VNum (increment n)
  | VStr s => VStr (s ++ "1")
  | VBool b => VNum (if b then 2 else 1)
  | VNull => VNum 1
  | _ => VOther
  end.

(** The TypeError of calling [method] on a property that holds [v] and
    is not of the expected kind: reading a method off undefined or null
    fails, and what any other value yields is not a function. *)
Definition not_callable (v : option value) (property method : string) : Exception :=
  mkException TypeError
    match v with
    | None | Some VUndefined =>
        "Cannot read properties of undefined (reading '" ++ method ++ "')"
    | Some VNull => "Cannot read properties of null (reading '" ++ method ++ "')"
    | Some _ => "this." ++ property ++ "." ++ method ++ " is not a function"
    end.

(** [addAuditEntry(userId, action, changes, metadata?)]: push the entry,
    bump the version, touch the metadata.  [push] on anything that is
    not an array is a TypeError. *)
Definition addAuditEntry (userId : string) (action : AuditAction)
    (changes : list (string * (value * value)))
    (metadata : option (list (string * value))) (now : Z) (e : entity)
    : completion entity :=
  let entry := mkAuditEntry now userId action changes metadata in
  match e !! "auditLog" with
  | Some (VLog l) =>
      let e1 := <["auditLog" := VLog (l ++ [entry])]> e in
      let e2 := <["version" := add_one (default VUndefined (e1 !! "version"))]> e1 in
      Return (updateMetadata (Some userId) now e2)
  | v => Throw (not_callable v "auditLog" "push")
  end.

(** [oldValue !== newValue].  Primitives compare by value; dates and
    arrays compare by identity, and the new value of an update is a
    fresh object. *)
Definition strict_neq (old new : value) : bool :=
  match old, new with
  | VUndefined, VUndefined => false
  | VNull, VNull => false
  | VBool a, VBool b => negb (Bool.eqb a b)
  | VNum a, VNum b => negb (a =? b)
  | VStr a, VStr b => negb (String.eqb a b)
  | _, _ => true
  end.

(** [changes[key] = ...] on the change record being built. *)
Fixpoint set_change (key : string) (c : value * value)
    (changes : list (string * (value * value))) : list (string * (value * value)) :=
  match changes with
  | [] => [(key, c)]
  | (k, c') :: rest =>
      if String.eqb k key then (k, c) :: rest else (k, c') :: set_change key c rest
  end.

(** The loop of [auditUpdate] over [Object.entries(updates)]. *)
Fixpoint track_changes (updates : list (string * value)) (e : entity)
    (changes : list (string * (value * value)))
    : entity * list (string * (value * value)) :=
  match updates with
  | [] => (e, changes)
  | (key, newValue) :: rest =>
      match e !! key with
      | Some oldValue =>
          if strict_neq oldValue newValue
          then track_changes rest (<[key := newValue]> e)
                 (set_change key (oldValue, newValue) changes)
          else track_changes rest e changes
      | None => track_changes rest e changes
      end
  end.

(** [auditUpdate(updates, userId, metadata?)] *)
Definition auditUpdate (updates : list (string * value)) (userId : string)
    (metadata : option (list (string * value))) (now : Z) (e : entity)
    : completion entity :=
  let '(e1, changes) := track_changes updates e [] in
  if (0 <? Z.of_nat (List.length changes))
  then addAuditEntry userId UPDATE changes metadata now e1
  else Return e1.

(** The calls that mutate an auditable entity. *)
Inductive mutation :=
| AddAuditEntry (userId : string) (action : AuditAction)
    (changes : list (string * (value * value)))
    (metadata : option (list (string * value))) (now : Z)
| AuditUpdate (updates : list (string * value)) (userId : string)
    (metadata : option (list (string * value))) (now : Z).

Definition apply (m : mutation) (e : entity) : completion entity :=
  match m with
  | AddAuditEntry u a c md now => addAuditEntry u a c md now e
  | AuditUpdate ups u md now => auditUpdate ups u md now e
  end.

(** A call commits a mutation when it reaches [addAuditEntry]: always
    for [addAuditEntry] itself, and for [auditUpdate] when some property
    really changed. *)
Definition commits (m : mutation) (e : entity) : bool :=
  match m with
  | AddAuditEntry _ _ _ _ _ => true
  | AuditUpdate ups _ _ _ => 0 <? Z.of_nat (List.length (snd (track_changes ups e [])))
  end.

(** Run a sequence of calls, counting the committed mutations. *)
Fixpoint run (ms : list mutation) (e : entity) (committed : Z)
    : completion (entity * Z) :=
  match ms with
  | [] => Return (e, committed)
  | m :: rest =>
      match apply m e with
      | Return e' => run rest e' (if commits m e then committed + 1 else committed)
      | Throw ex => Throw ex
      end
  end.

(** An update that leaves the bookkeeping properties alone. *)
Definition names_bookkeeping (key : string) : bool :=
  String.eqb key "version" || String.eqb key "auditLog".
Definition plain_update (updates : list (string * value)) : bool :=
  forallb (fun kv => negb (names_bookkeeping (fst kv))) updates.
Definition plain (m : mutation) : bool :=
  match m with
  | AddAuditEntry _ _ _ _ _ => true
  | AuditUpdate ups _ _ _ => plain_update ups
  end.

End BaseEntity.

(** ** The libraries the service calls *)

(** [jsonwebtoken], by its documented contract.  A token is either text
    that is no well-formed JWT, or claims signed with a key; signatures
    are ideal: a token verifies under exactly the key that signed it. *)
Module Jwt.

(** [TokenPayload] *)
Record TokenPayload := mkPayload {
  userId : string;
  email : string;
  role : string;
  schoolId : option string;
  iat : Z;
  exp : Z
}.

(** [Partial<TokenPayload>] as the service fills it in *)
Record Claims := mkClaims {
  c_userId : string;
  c_email : string;
  c_role : string;
  c_schoolId : option string
}.

Inductive token :=
| Malformed (text : string)
| Signed (payload : TokenPayload) (key : string).

(** [jwt.sign(payload, secret, { expiresIn })] at instant [now], with
    [expiresIn] already in seconds. *)
Definition sign (claims : Claims) (secret : string) (expiresIn : Z) (now : Z)
    : completion token :=
  if negb (truthy secret)
  then Throw (new_Error "secretOrPrivateKey must have a value")
  else Return (Signed (mkPayload (c_userId claims) (c_email claims) (c_role claims)
                         (c_schoolId claims) now (now + expiresIn)) secret).

(** HS256 keys its MAC with the secret as UTF-8 bytes, padded with zero
    bytes up to the block of 64; a longer secret is hashed first.  Two
    secrets of at most 64 bytes are therefore one key exactly when they
    agree up to zero characters at the end.  The digest of a longer
    secret is outside the model, which takes such a secret for the same
    key as itself only. *)
Definition utf8_length (s : string) : Z :=
  fold_right (fun c n => (if (JSString.code c <? 128)%N then 1 else 2) + n) 0
    (JSString.chars s).
Fixpoint strip_zeros (s : string) : string :=
  match s with
  | EmptyString => EmptyString
  | String c s' =>
      match strip_zeros s' with
      | EmptyString => if (JSString.code c =? 0)%N then EmptyString else String c EmptyString
      | rest => String c rest
      end
  end.
Definition short_key (secret : string) : bool := utf8_length secret <=? 64.
Definition same_key (a b : string) : bool :=
  if short_key a && short_key b
  then String.eqb (strip_zeros a) (strip_zeros b)
  else String.eqb a b.

(** [jwt.verify(token, secret)] at instant [now] *)
Definition verify (t : token) (secret : string) (now : Z) : completion TokenPayload :=
  match t with
  | Malformed _ => Throw (mkException JsonWebTokenError "jwt malformed")
  | Signed payload key =>
      if negb (truthy secret)
      then Throw (mkException JsonWebTokenError "secret or public key must be provided")
      else if negb (same_key key secret)
      then Throw (mkException JsonWebTokenError "invalid signature")
      else if exp payload <=? now
      then Throw (mkException TokenExpiredError "jwt expired")
      else Return payload
  end.

(** [error instanceof jwt.JsonWebTokenError]: the class and its two
    subclasses. *)
Definition instanceof_JsonWebTokenError (e : Exception) : bool :=
  match class e with
  | JsonWebTokenError | TokenExpiredError | NotBeforeError => true
  | _ => false
  end.

(** The instant from which a token is expired, if it carries one. *)
Definition expiry (t : token) : option Z :=
  match t with
  | Malformed _ => None
  | Signed payload _ => Some (exp payload)
  end.

End Jwt.

(** [bcryptjs]: the two calls the service makes.  [hash] stands for one
    run of the salted hash. *)
Module Bcrypt.
Record library := mkLibrary {
  hash : string -> Z -> string;
  compare : string -> string -> bool
}.
End Bcrypt.

(** ** The user aggregate *)

(** Modelled from the spec: [models/User.ts] ([User], [TeacherUser],
    [StudentUser], [AdminUser]) is not among the sources.  Sections 3 and
    4.2 of the specification give the state: a user may authenticate only
    when active, verified and unlocked; [isLocked] is a function of the
    failed-attempt counter and the threshold 5; a failed login increments
    the counter, a successful one resets it to 0 and records the instant;
    every mutation appends one audit entry and increments the version. *)
Module User.

Inductive UserClass := TeacherUser | StudentUser | AdminUser.

Record UserAudit := mkUserAudit {
  at_ : Z;
  actor : string;
  what : string
}.

Record User := mkUser {
  class_ : UserClass;
  id : string;
  email : string;
  passwordHash : string;
  firstName : string;
  lastName : string;
  phone : option string;
  role : string;
  schoolId : option string;
  adminLevel : option string;
  isActive : bool;
  isVerified : bool;
  failedLoginAttempts : Z;
  lastFailedLoginAt : option Z;
  lastLoginAt : option Z;
  version : Z;
  auditLog : list UserAudit
}.

Definition lockoutThreshold : Z := 5.

(** [get isLocked()] *)
Definition isLocked (u : User) : bool :=
  lockoutThreshold <=? failedLoginAttempts u.

(** [canLogin()] *)
Definition canLogin (u : User) : bool :=
  isActive u && isVerified u && negb (isLocked u).

(** One audited mutation of the login bookkeeping. *)
Definition mutate (what : string) (by_ : string) (now : Z)
    (hash : string) (failed : Z) (lastFailed lastLogin : option Z) (u : User) : User :=
  mkUser (class_ u) (id u) (email u) hash (firstName u) (lastName u) (phone u)
    (role u) (schoolId u) (adminLevel u) (isActive u) (isVerified u)
    failed lastFailed lastLogin
    (version u + 1) (auditLog u ++ [mkUserAudit now by_ what]).

(** [recordFailedLogin()] *)
Definition recordFailedLogin (now : Z) (u : User) : User :=
  mutate "LOGIN_FAILED" (id u) now (passwordHash u)
    (failedLoginAttempts u + 1) (Some now) (lastLoginAt u) u.

(** [recordSuccessfulLogin()] *)
Definition recordSuccessfulLogin (now : Z) (u : User) : User :=
  mutate "LOGIN" (id u) now (passwordHash u) 0 (lastFailedLoginAt u) (Some now) u.

(** [resetPassword(newPasswordHash, userId)] *)
Definition resetPassword (newPasswordHash : string) (by_ : string) (now : Z)
    (u : User) : User :=
  mutate "PASSWORD_RESET" by_ now newPasswordHash
    (failedLoginAttempts u) (lastFailedLoginAt u) (lastLoginAt u) u.

(** The explicit unlock of section 4.2: the counter goes back to 0. *)
Definition unlock (by_ : string) (now : Z) (u : User) : User :=
  mutate "UNLOCK" by_ now (passwordHash u) 0 (lastFailedLoginAt u) (lastLoginAt u) u.

(** The object literal a constructor receives. *)
Record UserData := mkUserData {
  u_id : option string;
  u_email : string;
  u_passwordHash : string;
  u_firstName : string;
  u_lastName : string;
  u_phone : option string;
  u_schoolId : option string;
  u_adminLevel : option string
}.

Definition role_of (c : UserClass) : string :=
  match c with
  | TeacherUser => "TEACHER"
  | StudentUser => "STUDENT"
  | AdminUser => "ADMIN"
  end.

(** [new TeacherUser(data)] and its siblings: a fresh, eligible account
    (section 8: a registration followed by a login succeeds).  [uuid] is
    the identifier drawn when the data carries none. *)
Definition new (c : UserClass) (data : UserData) (uuid : string) : User :=
  mkUser c (BaseEntity.or_str (u_id data) uuid) (u_email data) (u_passwordHash data)
    (u_firstName data) (u_lastName data) (u_phone data) (role_of c)
    (u_schoolId data) (u_adminLevel data) true true 0 None None 1 [].

End User.

Import User.

(** ** The user store *)

(** [IUserRepository], the interface the service consumes, over a store
    of type [S].  Every call ends in a [Result] or throws. *)
Module Repository.

Record IUserRepository (S : Type) := mkRepository {
  findByEmail : string -> M S (Result (option User));
  findById : string -> M S (Result (option User));
  create : User -> M S (Result User);
  update : string -> User -> M S (Result User);
  count : M S (Result Z)
}.
Arguments findByEmail {S} _ _ _.
Arguments findById {S} _ _ _.
Arguments create {S} _ _ _.
Arguments update {S} _ _ _ _.
Arguments count {S} _ _.

End Repository.

Import Repository.

(** ** [AuthService] *)

Module AuthService.

Record LoginRequest := mkLoginRequest {
  lr_email : string;
  lr_password : string
}.

Record LoginResponse := mkLoginResponse {
  user : User;
  accessToken : Jwt.token;
  refreshToken_ : Jwt.token;
  expiresIn : Z
}.

(** The keys of [additionalData] that the constructor literal also has;
    spread last, they replace the literal's. *)
Record AdditionalData := mkAdditionalData {
  ad_id : option string;
  ad_email : option string;
  ad_passwordHash : option string;
  ad_firstName : option string;
  ad_lastName : option string;
  ad_phone : option (option string);
  ad_schoolId : option (option string);
  ad_adminLevel : option string
}.

Record RegisterRequest := mkRegisterRequest {
  rr_email : string;
  rr_password : string;
  rr_firstName : string;
  rr_lastName : string;
  rr_phone : option string;
  rr_role : string;
  rr_schoolId : option string;
  rr_additionalData : option AdditionalData
}.

Record RefreshTokenRequest := mkRefreshTokenRequest {
  rt_refreshToken : Jwt.token
}.

(** The service object: the base-class state and the two secrets. *)
Record service := mkService {
  base : BaseService.state;
  jwtSecret : string;
  jwtRefreshSecret : string
}.

Definition saltRounds : Z := 12.
(** ['15m'] and ['7d'], in seconds *)
Definition accessTokenExpiry : Z := 15 * 60.
Definition refreshTokenExpiry : Z := 7 * 24 * 60 * 60.

(** [constructor(userRepository, jwtSecret, jwtRefreshSecret, logger?)] *)
Definition new (jwtSecret jwtRefreshSecret : string) : service :=
  mkService (BaseService.new "AuthService") jwtSecret jwtRefreshSecret.

(** The inherited life cycle. *)
Definition lifecycle (calls : list BaseService.call) (svc : service) : service :=
  mkService (BaseService.run calls (base svc)) (jwtSecret svc) (jwtRefreshSecret svc).

(** [isValidEmail]: [/^[^\s@]+@[^\s@]+\.[^\s@]+$/] *)
Definition not_space_at (c : ascii) : bool :=
  negb (JSString.is_space c || Ascii.eqb c "@").
Definition emailRegex : JSString.regex :=
  JSString.Seq (JSString.Plus (JSString.Class not_space_at))
    (JSString.Seq (JSString.Lit "@")
       (JSString.Seq (JSString.Plus (JSString.Class not_space_at))
          (JSString.Seq (JSString.Lit ".")
             (JSString.Plus (JSString.Class not_space_at))))).
Definition isValidEmail (email : string) : bool :=
  JSString.test_anchored emailRegex email.

(** [validatePassword] *)
Definition validatePassword (password : string) : Result bool :=
  if JSString.length password <? 8
  then failure "Password must be at least 8 characters long"
  else if negb (JSString.test_class JSString.is_upper password)
  then failure "Password must contain at least one uppercase letter"
  else if negb (JSString.test_class JSString.is_lower password)
  then failure "Password must contain at least one lowercase letter"
  else if negb (JSString.test_class JSString.is_digit password)
  then failure "Password must contain at least one number"
  else success true.

Definition recognizedRoles : list string :=
  ["TEACHER"; "STUDENT"; "ADMIN"; "SCHOOL_ADMIN"].

(** The [errors] array of [validateRegistrationRequest], in push order. *)
Definition registrationErrors (request : RegisterRequest) : completion (list string) :=
  let e1 := if negb (truthy (rr_email request)) || negb (isValidEmail (rr_email request))
            then ["Valid email is required"] else [] in
  let rest (e2 : list string) :=
    let e3 := if negb (truthy (rr_firstName request))
                 || (JSString.length (JSString.trim (rr_firstName request)) <? 2)
              then ["First name must be at least 2 characters"] else [] in
    let e4 := if negb (truthy (rr_lastName request))
                 || (JSString.length (JSString.trim (rr_lastName request)) <? 2)
              then ["Last name must be at least 2 characters"] else [] in
    let e5 := if negb (truthy (rr_role request))
                 || negb (JSString.includes recognizedRoles
                            (JSString.toUpperCase (rr_role request)))
              then ["Valid role is required"] else [] in
    (e1 ++ e2 ++ e3 ++ e4 ++ e5)%list in
  if negb (truthy (rr_password request))
  then Return (rest ["Password is required"])
  else
    let passwordValidation := validatePassword (rr_password request) in
    if isFailure passwordValidation
    then match error passwordValidation with
         | Return msg => Return (rest [default "" msg])
         | Throw e => Throw e
         end
    else Return (rest []).

(** [validateRegistrationRequest] *)
Definition validateRegistrationRequest (request : RegisterRequest)
    : completion (Result bool) :=
  match registrationErrors request with
  | Return errors =>
      if 0 <? Z.of_nat (List.length errors)
      then Return (failure (JSString.join ", " errors))
      else Return (success true)
  | Throw e => Throw e
  end.

(** [generateAccessToken] *)
Definition generateAccessToken (svc : service) (u : User) (now : Z)
    : completion Jwt.token :=
  Jwt.sign (Jwt.mkClaims (id u) (email u) (role u) (schoolId u))
    (jwtSecret svc) accessTokenExpiry now.

(** [generateRefreshToken] *)
Definition generateRefreshToken (svc : service) (u : User) (now : Z)
    : completion Jwt.token :=
  Jwt.sign (Jwt.mkClaims (id u) (email u) (role u) None)
    (jwtRefreshSecret svc) refreshTokenExpiry now.

(** The block under [if (!user.canLogin())] in [login]: the message it
    returns, if it returns. *)
Definition loginRefusal (u : User) : option string :=
  if negb (canLogin u) then
    if isLocked u then Some "Account is locked due to multiple failed attempts"
    else if negb (isActive u) then Some "Account is inactive"
    else if negb (isVerified u) then Some "Account is not verified"
    else None
  else None.

(** The literal passed to a user constructor, with [additionalData]
    spread over it. *)
Definition userData (request : RegisterRequest) (passwordHash : string)
    (adminLevel : option string) : UserData :=
  let ad := rr_additionalData request in
  mkUserData
    (ad ≫= ad_id)
    (default (rr_email request) (ad ≫= ad_email))
    (default passwordHash (ad ≫= ad_passwordHash))
    (default (rr_firstName request) (ad ≫= ad_firstName))
    (default (rr_lastName request) (ad ≫= ad_lastName))
    (default (rr_phone request) (ad ≫= ad_phone))
    (default (rr_schoolId request) (ad ≫= ad_schoolId))
    (match ad ≫= ad_adminLevel with Some l => Some l | None => adminLevel end).

(** The [switch] of [register]: the user it builds, if the role has a case. *)
Definition userForRole (request : RegisterRequest) (passwordHash : string)
    (uuid : string) : option User :=
  let r := JSString.toUpperCase (rr_role request) in
  if String.eqb r "TEACHER"
  then Some (User.new TeacherUser (userData request passwordHash None) uuid)
  else if String.eqb r "STUDENT"
  then Some (User.new StudentUser (userData request passwordHash None) uuid)
  else if String.eqb r "ADMIN" || String.eqb r "SCHOOL_ADMIN"
  then Some (User.new AdminUser (userData request passwordHash (Some "SCHOOL")) uuid)
  else None.

Section Operations.
Context {S : Type} (userRepository : IUserRepository S) (bcrypt : Bcrypt.library).

Local Open Scope js_scope.

Definition validateReady (svc : service) : M S unit :=
  lift (BaseService.validateReady (base svc)).

(** [login(request)] at instant [now] *)
Definition login (svc : service) (request : LoginRequest) (now : Z)
    : M S (Result LoginResponse) :=
  run! validateReady svc in
  try_catch
    (let! userResult := findByEmail userRepository (lr_email request) in
     if isFailure userResult then ret (failure "Authentication failed") else
     let! found := lift (data userResult) in
     match found with
     | Some (Some user) =>
         match loginRefusal user with
         | Some msg => ret (failure msg)
         | None =>
             let isPasswordValid :=
               Bcrypt.compare bcrypt (lr_password request) (passwordHash user) in
             if negb isPasswordValid then
               let user := recordFailedLogin now user in
               run! update userRepository (id user) user in
               ret (failure "Authentication failed")
             else
               let user := recordSuccessfulLogin now user in
               run! update userRepository (id user) user in
               let! accessToken := lift (generateAccessToken svc user now) in
               let! refreshToken := lift (generateRefreshToken svc user now) in
               ret (success (mkLoginResponse user accessToken refreshToken (15 * 60)))
         end
     | _ => ret (failure "Authentication failed")
     end)
    (fun _ => ret (failure "Authentication failed")).

(** [register(request)]; [uuid] is the identifier the new entity draws. *)
Definition register (svc : service) (request : RegisterRequest) (uuid : string)
    : M S (Result User) :=
  run! validateReady svc in
  try_catch
    (let! validation := lift (validateRegistrationRequest request) in
     if isFailure validation then ret (recast validation) else
     let! existingUserResult := findByEmail userRepository (rr_email request) in
     let! existing :=
       (if isSuccess existingUserResult then lift (data existingUserResult)
        else ret None) in
     match existing with
     | Some (Some _) => ret (failure "User with this email already exists")
     | _ =>
         let passwordHash := Bcrypt.hash bcrypt (rr_password request) saltRounds in
         match userForRole request passwordHash uuid with
         | None => ret (failure "Invalid user role")
         | Some user =>
             let! saveResult := create userRepository user in
             if isFailure saveResult then ret (failure "Failed to create user account")
             else
               (* Result.success(saveResult.data) *)
               let! saved := lift (data saveResult) in
               ret (mkResult true saved None None)
         end
     end)
    (fun _ => ret (failure "Failed to create user account")).

(** [refreshToken(request)] *)
Definition refreshToken (svc : service) (request : RefreshTokenRequest) (now : Z)
    : M S (Result LoginResponse) :=
  run! validateReady svc in
  try_catch
    (let! payload := lift (Jwt.verify (rt_refreshToken request) (jwtRefreshSecret svc) now) in
     let! userResult := findById userRepository (Jwt.userId payload) in
     let! found :=
       (if isFailure userResult then ret None else lift (data userResult)) in
     match found with
     | Some (Some user) =>
         if negb (canLogin user) then ret (failure "User account is not active")
         else
           let! accessToken := lift (generateAccessToken svc user now) in
           let! refreshToken := lift (generateRefreshToken svc user now) in
           ret (success (mkLoginResponse user accessToken refreshToken (15 * 60)))
     | _ => ret (failure "Invalid refresh token")
     end)
    (fun error =>
       if Jwt.instanceof_JsonWebTokenError error
       then ret (failure "Invalid refresh token")
       else ret (failure "Failed to refresh token")).

(** [verifyToken(token)] *)
Definition verifyToken (svc : service) (token : Jwt.token) (now : Z)
    : M S (Result User) :=
  run! validateReady svc in
  try_catch
    (let! payload := lift (Jwt.verify token (jwtSecret svc) now) in
     let! userResult := findById userRepository (Jwt.userId payload) in
     let! found :=
       (if isFailure userResult then ret None else lift (data userResult)) in
     match found with
     | Some (Some user) =>
         if negb (isActive user) then ret (failure "User account is not active")
         else ret (success user)
     | _ => ret (failure "Invalid token")
     end)
    (fun error =>
       if Jwt.instanceof_JsonWebTokenError error
       then ret (failure "Invalid token")
       else ret (failure "Token verification failed")).

(** [changePassword(userId, currentPassword, newPassword)] *)
Definition changePassword (svc : service) (userId currentPassword newPassword : string)
    (now : Z) : M S (Result bool) :=
  run! validateReady svc in
  try_catch
    (let! userResult := findById userRepository userId in
     let! found :=
       (if isFailure userResult then ret None else lift (data userResult)) in
     match found with
     | Some (Some user) =>
         let isCurrentPasswordValid :=
           Bcrypt.compare bcrypt currentPassword (passwordHash user) in
         if negb isCurrentPasswordValid
         then ret (failure "Current password is incorrect")
         else
           let passwordValidation := validatePassword newPassword in
           if isFailure passwordValidation then ret passwordValidation
           else
             let newPasswordHash := Bcrypt.hash bcrypt newPassword saltRounds in
             let user := resetPassword newPasswordHash userId now user in
             run! update userRepository userId user in
             ret (success true)
     | _ => ret (failure "User not found")
     end)
    (fun _ => ret (failure "Failed to change password")).

(** A sequence of [login] calls, one after the other, with the
    result of each. *)
Fixpoint logins (svc : service) (calls : list (LoginRequest * Z)) (st : S)
    : S * list (completion (Result LoginResponse)) :=
  match calls with
  | [] => (st, [])
  | (request, now) :: rest =>
      let '(st1, r) := login svc request now st in
      let '(st2, rs) := logins svc rest st1 in
      (st2, r :: rs)
  end.

End Operations.

(** A login call on [email]: the password tried and the instant. *)
Definition attempt (email : string) (a : string * Z) : LoginRequest * Z :=
  (mkLoginRequest email (fst a), snd a).

(** What [r.isSuccess && r.data] finds in a lookup result: the user, if
    the result is a success that carries one. *)
Definition found_user (r : Result (option User)) : option User :=
  if isSuccess r
  then match _data r with Some (Some u) => Some u | _ => None end
  else None.

(** The opaque failure of [login]. *)
Definition authentication_failed : Result LoginResponse :=
  failure "Authentication failed".

(** The message of the role check. *)
Definition role_message : string := "Valid role is required".

End AuthService.

(** ** [ValidationUtils]: the shared password check *)

Module ValidationUtils.

Record ValidationError := mkValidationError { field : string; message : string }.
Record ValidationResult := mkValidationResult {
  isValid : bool;
  errors : list ValidationError
}.

(** [static validatePassword(password)] *)
Definition validatePassword (password : string) : ValidationResult :=
  let errors :=
    ((if JSString.length password <? 8
      then [mkValidationError "password" "Password must be at least 8 characters long"]
      else [])
     ++ (if negb (JSString.test_class JSString.is_upper password)
         then [mkValidationError "password"
                 "Password must contain at least one uppercase letter"]
         else [])
     ++ (if negb (JSString.test_class JSString.is_lower password)
         then [mkValidationError "password"
                 "Password must contain at least one lowercase letter"]
         else [])
     ++ (if negb (JSString.test_class JSString.is_digit password)
         then [mkValidationError "password" "Password must contain at least one number"]
         else [])
     ++ (if negb (JSString.test_class JSString.is_special password)
         then [mkValidationError "password"
                 "Password must contain at least one special character"]
         else []))%list in
  mkValidationResult (Z.of_nat (List.length errors) =? 0) errors.

End ValidationUtils.

(** ** Stores *)

(** Modelled from the spec: no implementation of [IUserRepository] is among
    the sources.  Section 6 of the specification gives the contract: lookup
    by email and by id, [create] enforcing the uniqueness of the email,
    [update] by id, [count].  The store is the list of its users. *)
Module MemoryStore.

Definition has_email (e : string) (u : User) : bool := String.eqb (email u) e.
Definition has_id (i : string) (u : User) : bool := String.eqb (id u) i.

Definition findByEmail (e : string) : M (list User) (Result (option User)) :=
  fun s => (s, Return (success (List.find (has_email e) s))).

Definition findById (i : string) : M (list User) (Result (option User)) :=
  fun s => (s, Return (success (List.find (has_id i) s))).

Definition create (u : User) : M (list User) (Result User) :=
  fun s =>
    if existsb (has_email (email u)) s
    then (s, Return (failure "duplicate key value violates unique constraint"))
    else ((s ++ [u])%list, Return (success u)).

Definition replace (i : string) (u : User) (s : list User) : list User :=
  List.map (fun x => if has_id i x then u else x) s.

Definition update (i : string) (u : User) : M (list User) (Result User) :=
  fun s =>
    if existsb (has_id i) s
    then (replace i u s, Return (success u))
    else (s, Return (failure "User not found")).

Definition count : M (list User) (Result Z) :=
  fun s => (s, Return (success (Z.of_nat (List.length s)))).

Definition repository : IUserRepository (list User) :=
  mkRepository _ findByEmail findById create update count.

(** The same store behind a unique index that ignores letter case,
    while lookups compare exactly. *)
Definition create_ci (u : User) : M (list User) (Result User) :=
  fun s =>
    if existsb (fun x => String.eqb (JSString.toUpperCase (email x))
                                    (JSString.toUpperCase (email u))) s
    then (s, Return (failure "duplicate key value violates unique constraint"))
    else ((s ++ [u])%list, Return (success u)).

Definition repository_ci : IUserRepository (list User) :=
  mkRepository _ findByEmail findById create_ci update count.

(** A store that is down: every call ends in a failure [Result]. *)
Definition unavailable (reason : string) : IUserRepository (list User) :=
  mkRepository _
    (fun _ => ret (failure reason)) (fun _ => ret (failure reason))
    (fun _ => ret (failure reason)) (fun _ _ => ret (failure reason))
    (ret (failure reason)).

(** A store whose driver throws on every call. *)
Definition crashing (reason : string) : IUserRepository (list User) :=
  mkRepository _
    (fun _ => throw (new_Error reason)) (fun _ => throw (new_Error reason))
    (fun _ => throw (new_Error reason)) (fun _ _ => throw (new_Error reason))
    (throw (new_Error reason)).

End MemoryStore.

(** ** Fixtures *)

Module Fixtures.

(** A stand-in for [bcryptjs]: the hash of a password is the password
    behind a fixed prefix. *)
Definition bcrypt : Bcrypt.library :=
  Bcrypt.mkLibrary (fun password _ => "$2a$12$" ++ password)
                   (fun password hash => String.eqb hash ("$2a$12$" ++ password)).

(** A service that has been initialized. *)
Definition ready : AuthService.service :=
  AuthService.lifecycle [BaseService.Initialize (Return tt)]
    (AuthService.new "access-secret" "refresh-secret").

Definition asha_data : UserData :=
  mkUserData (Some "u-1") "asha@school.in" "$2a$12$Abcdef12" "Asha" "Rao"
    None (Some "s-9") None.

(** An eligible teacher whose password is [Abcdef12]. *)
Definition asha : User := User.new TeacherUser asha_data "unused".

(** The same account, deactivated by an administrator. *)
Definition asha_inactive : User :=
  mkUser (class_ asha) (id asha) (email asha) (passwordHash asha) (firstName asha)
    (lastName asha) (phone asha) (role asha) (schoolId asha) (adminLevel asha)
    false true 0 None None 1 [].

(** The same account before its email address was confirmed. *)
Definition asha_unverified : User :=
  mkUser (class_ asha) (id asha) (email asha) (passwordHash asha) (firstName asha)
    (lastName asha) (phone asha) (role asha) (schoolId asha) (adminLevel asha)
    true false 0 None None 1 [].

(** The same account with three failed logins on record. *)
Definition asha_warned : User :=
  mkUser (class_ asha) (id asha) (email asha) (passwordHash asha) (firstName asha)
    (lastName asha) (phone asha) (role asha) (schoolId asha) (adminLevel asha)
    true true 3 (Some 80) None 4 [].

(** The same account after five failed logins. *)
Definition asha_locked : User :=
  mkUser (class_ asha) (id asha) (email asha) (passwordHash asha) (firstName asha)
    (lastName asha) (phone asha) (role asha) (schoolId asha) (adminLevel asha)
    true true 5 (Some 90) None 6 [].

Definition registration (email password role : string) : AuthService.RegisterRequest :=
  AuthService.mkRegisterRequest email password "Asha" "Rao" None role None None.

(** An audit entry, and constructor data that carries a version and a
    log, as an entity read back from storage does. *)
Definition created : BaseEntity.AuditEntry :=
  BaseEntity.mkAuditEntry 10 "u-1" BaseEntity.CREATE [] None.
Definition stored : BaseEntity.IAuditableData :=
  BaseEntity.mkData (Some "e-1") (Some 10) (Some 10) None None (Some 7) (Some [created]).

(** Constructor data whose version is 2^53, the first integer whose
    successor no number holds. *)
Definition saturated : BaseEntity.IAuditableData :=
  BaseEntity.mkData (Some "e-4") (Some 10) (Some 10) None None
    (Some 9007199254740992) None.

(** Three calls on a new entity: an update that changes a property, one
    that changes nothing, and a direct audit entry. *)
Definition edits : list BaseEntity.mutation :=
  [BaseEntity.AuditUpdate [("createdBy", BaseEntity.VStr "u-1")] "u-1" None 20;
   BaseEntity.AuditUpdate [("createdBy", BaseEntity.VStr "u-1")] "u-2" None 30;
   BaseEntity.AddAuditEntry "u-2" BaseEntity.VIEW [] None 40].

(** Five attempts with a wrong password. *)
Definition five_wrong : list (string * Z) :=
  [("a", 101); ("b", 102); ("c", 103); ("d", 104); ("e", 105)].

End Fixtures.

(** ** The password policy as the specification words it *)

Module Policy.

(** Section 4.5: minimum length 8, an uppercase letter, a lowercase
    letter and a digit. *)
Definition minimum (password : string) : bool :=
  (8 <=? JSString.length password)
  && existsb JSString.is_upper (JSString.chars password)
  && existsb JSString.is_lower (JSString.chars password)
  && existsb JSString.is_digit (JSString.chars password).

End Policy.

(** ** The audit invariant as the specification words it *)

Module Stated.
Import BaseEntity.

(** Section 3: after the calls [ms] on an entity constructed as [e0], the
    version is the initial version plus the number of committed
    mutations, and also the initial version plus the length of the
    audit log. *)
Definition version_counts_log (e0 : entity) (ms : list mutation) : Prop :=
  forall e' n, run ms e0 0 = Return (e', n) ->
    exists v0 v' log',
      version e0 = Some v0 /\ version e' = Some v' /\ auditLog e' = Some log'
      /\ v' = v0 + n
      /\ v' = v0 + Z.of_nat (List.length log').

End Stated.

(** * Further code of the same files *)

(** ** What a regular expression matches *)

Module Regex.
Import JSString.

(** The strings a regular expression of [JSString] stands for; the
    matcher is checked against this reading. *)
Inductive denotes : regex -> string -> Prop :=
| denotes_epsilon : denotes Epsilon ""
| denotes_class (p : ascii -> bool) (c : ascii) :
    p c = true -> denotes (Class p) (String c "")
| denotes_seq (r1 r2 : regex) (s1 s2 : string) :
    denotes r1 s1 -> denotes r2 s2 -> denotes (Seq r1 r2) (s1 ++ s2)
| denotes_star_nil (r : regex) : denotes (Star r) ""
| denotes_star_more (r : regex) (s1 s2 : string) :
    denotes r s1 -> denotes (Star r) s2 -> denotes (Star r) (s1 ++ s2).

(** [r{n}] *)
Fixpoint times (n : nat) (r : regex) : regex :=
  match n with
  | O => Epsilon
  | S n' => Seq r (times n' r)
  end.

(** A literal string. *)
Fixpoint text (s : string) : regex :=
  match s with
  | EmptyString => Epsilon
  | String c s' => Seq (Lit c) (text s')
  end.

(** A regular expression whose classes do not tell a letter from its
    capital: what the [i] flag makes of an expression. *)
Fixpoint case_blind (r : regex) : Prop :=
  match r with
  | Class p => forall c, p (upper_char c) = p c
  | Seq r1 r2 => case_blind r1 /\ case_blind r2
  | Star r1 => case_blind r1
  | _ => True
  end.

(** A string all of whose characters are in a class: no character, for
    the empty string. *)
(** Two strings that differ at most in the case of letters from a to
    z. *)
Fixpoint same_but_case (s t : string) : bool :=
  match s, t with
  | EmptyString, EmptyString => true
  | String c s', String d t' =>
      Ascii.eqb (upper_char c) (upper_char d) && same_but_case s' t'
  | _, _ => false
  end.

Definition all_in (p : ascii -> bool) (s : string) : bool := forallb p (chars s).

End Regex.

(** ** [ValidationUtils]: the format checks *)

Module Formats.
Import JSString Regex.

(** [isValidEmail]: the regular expression of [AuthService.isValidEmail]. *)
Definition isValidEmail (email : string) : bool :=
  test_anchored AuthService.emailRegex email.

(** [phone.replace(/\s+/g, '')] *)
Fixpoint removeSpaces (s : string) : string :=
  match s with
  | EmptyString => EmptyString
  | String c s' => if is_space c then removeSpaces s' else String c (removeSpaces s')
  end.

(** [[6-9]\d{9}] *)
Definition is_six_to_nine (c : ascii) : bool := in_range 54 57 c.
Definition subscriber : regex := Seq (Class is_six_to_nine) (times 9 (Class is_digit)).

(** [/^(\+91|91)?[6-9]\d{9}$/], the optional group written out as its
    three cases. *)
Definition phoneRegex : list regex :=
  [Seq (text "+91") subscriber; Seq (text "91") subscriber; subscriber].

(** [isValidIndianPhone] *)
Definition isValidIndianPhone (phone : string) : bool :=
  matches_any phoneRegex (removeSpaces phone).

(** [/^[a-zA-Z0-9]+$/] *)
Definition is_alphanumeric (c : ascii) : bool := is_lower c || is_upper c || is_digit c.
Definition isAlphanumeric (str : string) : bool :=
  test_anchored (Plus (Class is_alphanumeric)) str.

(** The classes of the UUID expression under its [i] flag: [[0-9a-f]],
    [[1-5]] and [[89ab]], letters in either case. *)
Definition is_hex (c : ascii) : bool :=
  is_digit c || in_range 97 102 c || in_range 65 70 c.
Definition is_version (c : ascii) : bool := in_range 49 53 c.
Definition is_variant (c : ascii) : bool :=
  in_range 56 57 c || in_range 97 98 c || in_range 65 66 c.

(** [/^[0-9a-f]{8}-[0-9a-f]{4}-[1-5][0-9a-f]{3}-[89ab][0-9a-f]{3}-[0-9a-f]{12}$/i] *)
Definition uuidRegex : regex :=
  Seq (times 8 (Class is_hex))
    (Seq (Lit "-")
       (Seq (times 4 (Class is_hex))
          (Seq (Lit "-")
             (Seq (Class is_version)
                (Seq (times 3 (Class is_hex))
                   (Seq (Lit "-")
                      (Seq (Class is_variant)
                         (Seq (times 3 (Class is_hex))
                            (Seq (Lit "-") (times 12 (Class is_hex))))))))))).

(** [isValidUUID] *)
Definition isValidUUID (uuid : string) : bool := test_anchored uuidRegex uuid.

End Formats.

(** ** [Result]: the combinators *)

Module ResultOps.

(** The name an error object carries. *)
Definition class_name (c : ErrorClass) : string :=
  match c with
  | Error => "Error"
  | TypeError => "TypeError"
  | JsonWebTokenError => "JsonWebTokenError"
  | TokenExpiredError => "TokenExpiredError"
  | NotBeforeError => "NotBeforeError"
  end.

(** [String(error)], which a template literal applies: the name, and the
    message behind a colon when there is one. *)
Definition toString (e : Exception) : string :=
  if String.eqb (message e) "" then class_name (class e)
  else class_name (class e) ++ ": " ++ message e.

(** What a callback throws is any value.  The model keeps an Error
    object as it is, and of any other value what [String(value)] makes of
    it: the text, or the error that the conversion throws itself, as it
    does for a Symbol or for an object without a usable [toString]. *)
Inductive thrown :=
| ThrownError (e : Exception)
| ThrownValue (text : completion string).

(** The conversion a template literal applies to a thrown value. *)
Definition text_of (t : thrown) : completion string :=
  match t with
  | ThrownError e => Return (toString e)
  | ThrownValue text => text
  end.

(** What a call of a callback comes to. *)
Inductive outcome (U : Type) :=
| Yields (u : U)
| Throws (t : thrown).
Arguments Yields {U} u.
Arguments Throws {U} t.

(** [map(fn)]; [fn] gets the stored slot and may throw.  The [catch]
    block builds its message with a template literal, and what that
    throws leaves [map]. *)
Definition map {T U} (r : Result T) (fn : option T -> outcome U)
    : completion (Result U) :=
  if _isSuccess r
  then match fn (_data r) with
       | Yields u => Return (success u)
       | Throws t =>
           match text_of t with
           | Return text => Return (failure ("Mapping failed: " ++ text))
           | Throw e => Throw e
           end
       end
  else Return (mkResult false None (_error r) (_errorDetails r)).

(** [unwrapOrThrow()]; [new Error(undefined)] has the empty message. *)
Definition unwrapOrThrow {T} (r : Result T) : completion (option T) :=
  if _isSuccess r then Return (_data r)
  else Throw (new_Error (default "" (_error r))).

(** A pipeline of [map] and [flatMap] calls on results of one type; it
    ends where a call throws. *)
Inductive step (T : Type) :=
| MapStep (fn : option T -> outcome T)
| FlatMapStep (fn : option T -> Result T).
Arguments MapStep {T} fn.
Arguments FlatMapStep {T} fn.

Definition apply_step {T} (r : Result T) (s : step T) : completion (Result T) :=
  match s with
  | MapStep fn => map r fn
  | FlatMapStep fn => Return (flatMap r fn)
  end.

Fixpoint pipeline {T} (steps : list (step T)) (r : Result T) : completion (Result T) :=
  match steps with
  | [] => Return r
  | s :: rest =>
      match apply_step r s with
      | Return r' => pipeline rest r'
      | Throw e => Throw e
      end
  end.

(** [x => g(f(x))] for two functions that may throw. *)
Definition compose {T U V} (f : option T -> outcome U) (g : option U -> outcome V)
    : option T -> outcome V :=
  fun x => match f x with
           | Yields u => g (Some u)
           | Throws t => Throws t
           end.

End ResultOps.

(** ** [BaseService.health] *)

Module Health.

(** [HealthStatus] *)
Inductive HealthStatus := HEALTHY | DEGRADED | UNHEALTHY.

(** [DependencyHealth] *)
Record DependencyHealth := mkDependencyHealth {
  name : string;
  status : HealthStatus;
  responseTime : option Z;
  lastChecked : Z;
  error : option string
}.

(** [ServiceHealth], over the type of the metadata *)
Record ServiceHealth (Meta : Type) := mkServiceHealth {
  overall : HealthStatus;
  timestamp : Z;
  dependencies : list DependencyHealth;
  metadata : Meta
}.
Arguments mkServiceHealth {Meta} _ _ _ _.
Arguments overall {Meta} _.
Arguments timestamp {Meta} _.
Arguments dependencies {Meta} _.
Arguments metadata {Meta} _.

(** The two steps by which [health] lowers [overallStatus] on a reported
    status. *)
Definition lower (overallStatus reported : HealthStatus) : HealthStatus :=
  match reported with
  | UNHEALTHY => UNHEALTHY
  | DEGRADED => match overallStatus with HEALTHY => DEGRADED | other => other end
  | HEALTHY => overallStatus
  end.

(** How bad a status is. *)
Definition severity (h : HealthStatus) : nat :=
  match h with HEALTHY => 0 | DEGRADED => 1 | UNHEALTHY => 2 end.

Section Service.
Context {S Meta : Type}.

(** The [dependencies] map: names and health checks in insertion order. *)
Definition registry : Type := list (string * M S DependencyHealth).

(** [Map.prototype.set] and [delete] behind [addDependency] and
    [removeDependency] *)
Fixpoint addDependency (name : string) (healthCheck : M S DependencyHealth)
    (deps : registry) : registry :=
  match deps with
  | [] => [(name, healthCheck)]
  | (n, c) :: rest =>
      if String.eqb n name then (n, healthCheck) :: rest
      else (n, c) :: addDependency name healthCheck rest
  end.
Definition removeDependency (name : string) (deps : registry) : registry :=
  List.filter (fun d => negb (String.eqb (fst d) name)) deps.

(** The loop of [health] over the dependencies, at instant [now]. *)
Fixpoint checkDependencies (deps : registry) (now : Z)
    (dependencies : list DependencyHealth) (overallStatus : HealthStatus) (s : S)
    : S * (list DependencyHealth * HealthStatus) :=
  match deps with
  | [] => (s, (dependencies, overallStatus))
  | (name, healthCheck) :: rest =>
      match healthCheck s with
      | (s', Return depHealth) =>
          checkDependencies rest now (dependencies ++ [depHealth])
            (lower overallStatus (status depHealth)) s'
      | (s', Throw e) =>
          checkDependencies rest now
            (dependencies ++ [mkDependencyHealth name UNHEALTHY None now (Some (message e))])
            UNHEALTHY s'
      end
  end.

(** [health()], given the registered checks and the two hooks of the
    subclass. *)
Definition health (deps : registry) (checkServiceHealth : M S HealthStatus)
    (getHealthMetadata : M S Meta) (now : Z) : M S (ServiceHealth Meta) :=
  fun s =>
    let '(s1, (dependencies, overallStatus)) := checkDependencies deps now [] HEALTHY s in
    let '(s2, overallStatus) :=
      match checkServiceHealth s1 with
      | (s2, Return serviceSpecificStatus) => (s2, lower overallStatus serviceSpecificStatus)
      | (s2, Throw _) => (s2, UNHEALTHY)
      end in
    match getHealthMetadata s2 with
    | (s3, Return metadata) =>
        (s3, Return (mkServiceHealth overallStatus now dependencies metadata))
    | (s3, Throw e) => (s3, Throw e)
    end.

(** How an entry of the report comes from a registered check: the check
    returned it, or threw and is reported under its registered name. *)
Definition reported (now : Z) (dep : string * M S DependencyHealth)
    (entry : DependencyHealth) : Prop :=
  exists s s',
    snd dep s = (s', Return entry)
    \/ exists e, snd dep s = (s', Throw e)
         /\ entry = mkDependencyHealth (fst dep) UNHEALTHY None now (Some (message e)).

End Service.

(** The status a hook stands for: its answer, or UNHEALTHY when it throws. *)
Definition answered (c : completion HealthStatus) : HealthStatus :=
  match c with Return h => h | Throw _ => UNHEALTHY end.

(** The worst of a list of statuses. *)
Definition worst (l : list HealthStatus) : nat :=
  fold_right Nat.max 0%nat (List.map severity l).

End Health.

(** ** [AuthService]: the health hooks *)

Module AuthHealth.
Import Health AuthService.

(** [getHealthMetadata]'s record *)
Record Metadata := mkMetadata {
  jwtConfigured : bool;
  refreshTokenConfigured : bool
}.

Section Hooks.
Context {S : Type} (userRepository : IUserRepository S).

(** The check that [doInitialize] registers: [start] and [finish] are
    the two readings of [Date.now()], [checked] that of [new Date()]. *)
Definition repositoryCheck (start finish checked : Z) : M S DependencyHealth :=
  fun s =>
    match count userRepository s with
    | (s', Return _) =>
        (s', Return (mkDependencyHealth "UserRepository" HEALTHY
                       (Some (finish - start)) checked None))
    | (s', Throw e) =>
        (s', Return (mkDependencyHealth "UserRepository" UNHEALTHY
                       (Some (finish - start)) checked (Some (message e))))
    end.

(** The registry after [doInitialize] *)
Definition initialized (start finish checked : Z) : registry (S:=S) :=
  addDependency "UserRepository" (repositoryCheck start finish checked) [].

(** [checkServiceHealth] *)
Definition checkServiceHealth (svc : service) : M S HealthStatus :=
  if negb (truthy (jwtSecret svc)) || negb (truthy (jwtRefreshSecret svc))
  then JS.ret UNHEALTHY else JS.ret HEALTHY.

(** [getHealthMetadata] *)
Definition getHealthMetadata (svc : service) : M S Metadata :=
  JS.ret (mkMetadata (truthy (jwtSecret svc)) (truthy (jwtRefreshSecret svc))).

(** [health()] of an initialized AuthService *)
Definition health (svc : service) (start finish checked now : Z)
    : M S (ServiceHealth Metadata) :=
  Health.health (initialized start finish checked) (checkServiceHealth svc)
    (getHealthMetadata svc) now.

End Hooks.

End AuthHealth.

(** ** [BaseEntity] and [AuditableEntity]: the queries *)

Module EntityQueries.
Import BaseEntity.















End EntityQueries.

(** ** A read-only replica *)

(** The in-memory store behind a replica that serves lookups and turns
    every write down with a failure [Result]. *)
Module Replica.

Definition readOnly : IUserRepository (list User) :=
  mkRepository _
    MemoryStore.findByEmail MemoryStore.findById
    (fun _ => ret (failure "cannot execute INSERT in a read-only transaction"))
    (fun _ _ => ret (failure "cannot execute UPDATE in a read-only transaction"))
    MemoryStore.count.

End Replica.

(** ** [UserRole], [Permission] and [ROLE_PERMISSIONS] *)

Module UserRoles.

Inductive UserRole :=
| SUPER_ADMIN | SCHOOL_ADMIN | TEACHER | STUDENT | PARENT | SUPPORT_STAFF.

Inductive Permission :=
| CREATE_USERS | READ_USERS | UPDATE_USERS | DELETE_USERS
| CREATE_CONTENT | READ_CONTENT | UPDATE_CONTENT | DELETE_CONTENT | PUBLISH_CONTENT
| ACCESS_AI_TOOLS | GENERATE_LESSON_PLANS | GENERATE_ASSESSMENTS | GENERATE_WORKSHEETS
| VIEW_STUDENT_PROGRESS | UPDATE_STUDENT_PROGRESS | ACCESS_STUDENT_TOOLS
| INTERACT_WITH_AI_SAFELY
| VIEW_ANALYTICS | EXPORT_DATA | GENERATE_REPORTS
| MANAGE_SCHOOL_SETTINGS | MANAGE_INTEGRATIONS | VIEW_SYSTEM_LOGS | MANAGE_API_KEYS.

#[global] Instance UserRole_eq_dec : EqDecision UserRole.
Proof. solve_decision. Defined.
#[global] Instance Permission_eq_dec : EqDecision Permission.
Proof. solve_decision. Defined.

(** The string each member of [UserRole] stands for. *)
Definition role_value (r : UserRole) : string :=
  match r with
  | SUPER_ADMIN => "SUPER_ADMIN"
  | SCHOOL_ADMIN => "SCHOOL_ADMIN"
  | TEACHER => "TEACHER"
  | STUDENT => "STUDENT"
  | PARENT => "PARENT"
  | SUPPORT_STAFF => "SUPPORT_STAFF"
  end.

(** [Object.values(Permission)], in declaration order *)
Definition allPermissions : list Permission :=
  [CREATE_USERS; READ_USERS; UPDATE_USERS; DELETE_USERS;
   CREATE_CONTENT; READ_CONTENT; UPDATE_CONTENT; DELETE_CONTENT; PUBLISH_CONTENT;
   ACCESS_AI_TOOLS; GENERATE_LESSON_PLANS; GENERATE_ASSESSMENTS; GENERATE_WORKSHEETS;
   VIEW_STUDENT_PROGRESS; UPDATE_STUDENT_PROGRESS; ACCESS_STUDENT_TOOLS;
   INTERACT_WITH_AI_SAFELY;
   VIEW_ANALYTICS; EXPORT_DATA; GENERATE_REPORTS;
   MANAGE_SCHOOL_SETTINGS; MANAGE_INTEGRATIONS; VIEW_SYSTEM_LOGS; MANAGE_API_KEYS].

Definition ROLE_PERMISSIONS (r : UserRole) : list Permission :=
  match r with
  | SUPER_ADMIN => allPermissions
  | SCHOOL_ADMIN =>
      [CREATE_USERS; READ_USERS; UPDATE_USERS;
       CREATE_CONTENT; READ_CONTENT; UPDATE_CONTENT; DELETE_CONTENT; PUBLISH_CONTENT;
       VIEW_STUDENT_PROGRESS; VIEW_ANALYTICS; EXPORT_DATA; GENERATE_REPORTS;
       MANAGE_SCHOOL_SETTINGS; MANAGE_INTEGRATIONS]
  | TEACHER =>
      [READ_USERS; CREATE_CONTENT; READ_CONTENT; UPDATE_CONTENT;
       ACCESS_AI_TOOLS; GENERATE_LESSON_PLANS; GENERATE_ASSESSMENTS; GENERATE_WORKSHEETS;
       VIEW_STUDENT_PROGRESS; UPDATE_STUDENT_PROGRESS; VIEW_ANALYTICS; EXPORT_DATA]
  | STUDENT => [READ_CONTENT; ACCESS_STUDENT_TOOLS; INTERACT_WITH_AI_SAFELY]
  | PARENT => [READ_CONTENT; VIEW_STUDENT_PROGRESS]
  | SUPPORT_STAFF => [READ_USERS; READ_CONTENT; VIEW_ANALYTICS]
  end.

(** [ROLE_PERMISSIONS[role].includes(permission)] *)
Definition grants (r : UserRole) (p : Permission) : bool :=
  bool_decide (p ∈ ROLE_PERMISSIONS r).

End UserRoles.

(** * Properties *)

(** ** Keys *)

Module JwtFacts.

(** A secret is the same key as itself. *)
Lemma same_key_refl (secret : string) : Jwt.same_key secret secret = true.
Proof.
  unfold Jwt.same_key. destruct (Jwt.short_key secret && Jwt.short_key secret);
    apply String.eqb_refl.
Qed.

Lemma same_key_sym (a b : string) : Jwt.same_key a b = Jwt.same_key b a.
Proof.
  unfold Jwt.same_key. rewrite (andb_comm (Jwt.short_key b)).
  destruct (Jwt.short_key a && Jwt.short_key b); apply String.eqb_sym.
Qed.

Lemma strip_zeros_zero (s : string) :
  Jwt.strip_zeros (s ++ String Ascii.zero "") = Jwt.strip_zeros s.
Proof.
  induction s as [|c s IH]; [reflexivity|].
  change (String c s ++ String Ascii.zero "")%string
    with (String c (s ++ String Ascii.zero "")).
  cbn [Jwt.strip_zeros]. now rewrite IH.
Qed.

Lemma utf8_length_zero (s : string) :
  Jwt.utf8_length s <= Jwt.utf8_length (s ++ String Ascii.zero "").
Proof.
  unfold Jwt.utf8_length, JSString.chars.
  induction s as [|c s IH]; [simpl; lia|].
  change (String c s ++ String Ascii.zero "")%string
    with (String c (s ++ String Ascii.zero "")).
  cbn [list_ascii_of_string fold_right]. lia.
Qed.

(** A secret and the same secret with a zero character behind it are one
    key. *)
Lemma same_key_zero (secret : string) :
  Jwt.short_key (secret ++ String Ascii.zero "") = true ->
  Jwt.same_key secret (secret ++ String Ascii.zero "") = true.
Proof.
  intros H. unfold Jwt.same_key. rewrite H.
  assert (Hs : Jwt.short_key secret = true).
  { unfold Jwt.short_key in *. apply Z.leb_le. apply Z.leb_le in H.
    pose proof (utf8_length_zero secret). lia. }
  rewrite Hs. cbn [andb]. rewrite strip_zeros_zero. apply String.eqb_refl.
Qed.

End JwtFacts.

(** ** [Result] *)

Module ResultFacts.

Lemma success_is_success {T} (d : T) : isSuccess (success d) = true.
Proof. reflexivity. Qed.

Lemma failure_is_failure {T} (msg : string) : isFailure (failure msg : Result T) = true.
Proof. reflexivity. Qed.

(** C9.  Reading [data] off a failure and reading [error] off a success
    both throw; reading [data] off a success returns the payload and
    reading [error] off a failure returns the message.  This holds for
    the two factories and for every value of the class. *)
Theorem accessors_fail_fast {T} (r : Result T) (d : T) (msg : string)
    (details : option ErrorDetails) :
  data (success d) = Return (Some d)
  /\ error (success d) = Throw (new_Error "Cannot access error from a successful result")
  /\ data (failure_with msg details : Result T)
     = Throw (new_Error "Cannot access data from a failed result")
  /\ error (failure_with msg details : Result T) = Return (Some msg)
  /\ (if isSuccess r
      then data r = Return (_data r)
           /\ error r = Throw (new_Error "Cannot access error from a successful result")
      else data r = Throw (new_Error "Cannot access data from a failed result")
           /\ error r = Return (_error r)).
Proof.
  repeat split; try reflexivity.
  destruct r as [[] dt er det]; split; reflexivity.
Qed.

End ResultFacts.

(** ** The readiness guard *)

Module ReadinessFacts.
Import BaseService.

Lemma run_cons (c : call) (calls : list call) (s : state) :
  run (c :: calls) s = run calls (step s c).
Proof. reflexivity. Qed.

Lemma step_serviceName (s : state) (c : call) : serviceName (step s c) = serviceName s.
Proof.
  destruct s as [n [] []], c as [[|]|[|]]; reflexivity.
Qed.

Lemma run_serviceName (calls : list call) (s : state) :
  serviceName (run calls s) = serviceName s.
Proof.
  revert s; induction calls as [|c calls IH]; intros s; [reflexivity|].
  rewrite run_cons, IH. apply step_serviceName.
Qed.

(** Once [shutdown()] has begun the flag stays up. *)
Lemma run_isShuttingDown (calls : list call) (s : state) :
  isShuttingDown (run calls s) = isShuttingDown s || existsb is_shutdown calls.
Proof.
  revert s; induction calls as [|c calls IH]; intros s.
  - simpl. now rewrite orb_false_r.
  - rewrite run_cons, IH.
    destruct s as [n [] []], c as [[|]|[|]]; reflexivity.
Qed.

(** Without a shutdown, [isInitialized] records a completed [initialize()]. *)
Lemma run_isInitialized (calls : list call) (s : state) :
  existsb is_shutdown calls = false ->
  isInitialized (run calls s)
  = isInitialized s || existsb is_completed_initialize calls.
Proof.
  revert s; induction calls as [|c calls IH]; intros s Hno.
  - simpl. now rewrite orb_false_r.
  - simpl in Hno. apply orb_false_iff in Hno as [Hc Hrest].
    rewrite run_cons, (IH _ Hrest).
    destruct s as [n [] []], c as [[|]|[|]]; try discriminate; reflexivity.
Qed.

Lemma isReady_run (calls : list call) (name : string) :
  isReady (run calls (new name))
  = existsb is_completed_initialize calls && negb (existsb is_shutdown calls).
Proof.
  unfold isReady. rewrite run_isShuttingDown. simpl.
  destruct (existsb is_shutdown calls) eqn:Hs.
  - now rewrite !andb_false_r.
  - rewrite (run_isInitialized _ _ Hs). reflexivity.
Qed.

Lemma isReady_shutdown_begun (s : state) : isReady (shutdown_begun s) = false.
Proof. unfold isReady. simpl. apply andb_false_r. Qed.

Lemma try_catch_returns {S A} (body : M S A) (handler : Exception -> M S A) (s : S) :
  (forall e s', returns (snd (handler e s')) = true) ->
  returns (snd (try_catch body handler s)) = true.
Proof.
  intros H. unfold try_catch. destruct (body s) as [s' [a|e]]; [reflexivity|apply H].
Qed.

Section Guard.
Context {S : Type} (repo : IUserRepository S) (bcrypt : Bcrypt.library).
Import AuthService.

Lemma not_ready_message (calls : list call) (k1 k2 : string) :
  not_ready (base (lifecycle calls (AuthService.new k1 k2)))
  = new_Error "Service AuthService is not ready".
Proof. unfold not_ready. simpl. rewrite run_serviceName. reflexivity. Qed.

Lemma guarded_not_ready {A} (svc : service) (k : M S A) (st : S) :
  isReady (base svc) = false ->
  JS.bind (validateReady (S:=S) svc) (fun _ => k) st
  = (st, Throw (not_ready (base svc))).
Proof.
  intros H. unfold JS.bind, validateReady, lift, BaseService.validateReady.
  rewrite H. reflexivity.
Qed.

Lemma guarded_ready {A} (svc : service) (k : M S A) (st : S) :
  isReady (base svc) = true ->
  JS.bind (validateReady (S:=S) svc) (fun _ => k) st = k st.
Proof.
  intros H. unfold JS.bind, validateReady, lift, BaseService.validateReady.
  rewrite H. reflexivity.
Qed.

(** C10.  After any sequence of life-cycle calls on a new AuthService,
    the service is ready exactly when some [initialize()] has completed
    and no [shutdown()] has begun.  When it is not ready, each of the
    five public operations throws "Service AuthService is not ready"
    and leaves the store alone; when it is ready, the guard passes and
    each operation ends in a [Result].  While a [shutdown()] is in
    flight the service is not ready either. *)
Theorem operations_guarded (k1 k2 : string) (calls : list call) (st : S)
    (lreq : LoginRequest) (rreq : RegisterRequest) (treq : RefreshTokenRequest)
    (tok : Jwt.token) (uid pw pw' uuid : string) (now : Z) :
  let svc := lifecycle calls (AuthService.new k1 k2) in
  let refused := new_Error "Service AuthService is not ready" in
  isReady (base svc)
  = existsb is_completed_initialize calls && negb (existsb is_shutdown calls)
  /\ isReady (shutdown_begun (base svc)) = false
  /\ if isReady (base svc)
     then BaseService.validateReady (base svc) = Return tt
          /\ returns (snd (login repo bcrypt svc lreq now st)) = true
          /\ returns (snd (register repo bcrypt svc rreq uuid st)) = true
          /\ returns (snd (refreshToken repo svc treq now st)) = true
          /\ returns (snd (verifyToken repo svc tok now st)) = true
          /\ returns (snd (changePassword repo bcrypt svc uid pw pw' now st)) = true
     else BaseService.validateReady (base svc) = Throw refused
          /\ login repo bcrypt svc lreq now st = (st, Throw refused)
          /\ register repo bcrypt svc rreq uuid st = (st, Throw refused)
          /\ refreshToken repo svc treq now st = (st, Throw refused)
          /\ verifyToken repo svc tok now st = (st, Throw refused)
          /\ changePassword repo bcrypt svc uid pw pw' now st = (st, Throw refused).
Proof.
  intros svc refused. split; [apply isReady_run|].
  split; [apply isReady_shutdown_begun|].
  assert (Hmsg : not_ready (base svc) = new_Error "Service AuthService is not ready")
    by apply not_ready_message.
  destruct (isReady (base svc)) eqn:Hr.
  - split; [unfold BaseService.validateReady; now rewrite Hr|].
    unfold login, register, refreshToken, verifyToken, changePassword.
    rewrite !(guarded_ready _ _ _ Hr).
    repeat split; apply try_catch_returns; intros e s'; try reflexivity;
      destruct (Jwt.instanceof_JsonWebTokenError e); reflexivity.
  - split; [unfold BaseService.validateReady; rewrite Hr; cbn [negb]; now rewrite Hmsg|].
    unfold login, register, refreshToken, verifyToken, changePassword, refused.
    rewrite !(guarded_not_ready _ _ _ Hr), Hmsg. repeat split.
Qed.

End Guard.

End ReadinessFacts.

(** ** The password policy *)

Module PasswordFacts.
Import AuthService.

Lemma validatePassword_minimum (password : string) :
  validatePassword password
  = if Policy.minimum password then success true else validatePassword password.
Proof.
  unfold Policy.minimum, validatePassword, JSString.test_class.
  rewrite (Z.leb_antisym (JSString.length password) 8).
  destruct (JSString.length password <? 8); [reflexivity|].
  destruct (existsb JSString.is_upper _); [|reflexivity].
  destruct (existsb JSString.is_lower _); [|reflexivity].
  destruct (existsb JSString.is_digit _); reflexivity.
Qed.

Lemma isSuccess_validatePassword (password : string) :
  isSuccess (validatePassword password) = Policy.minimum password.
Proof.
  unfold Policy.minimum, validatePassword, JSString.test_class.
  rewrite (Z.leb_antisym (JSString.length password) 8).
  destruct (JSString.length password <? 8); [reflexivity|].
  destruct (existsb JSString.is_upper _); [|reflexivity].
  destruct (existsb JSString.is_lower _); [|reflexivity].
  destruct (existsb JSString.is_digit _); reflexivity.
Qed.

Lemma validatePassword_error (password : string) :
  Policy.minimum password = false ->
  exists msg, validatePassword password = failure msg.
Proof.
  unfold Policy.minimum, validatePassword, JSString.test_class.
  rewrite (Z.leb_antisym (JSString.length password) 8).
  destruct (JSString.length password <? 8); [eauto|].
  destruct (existsb JSString.is_upper _); [|eauto].
  destruct (existsb JSString.is_lower _); [|eauto].
  destruct (existsb JSString.is_digit _); [discriminate|eauto].
Qed.

Lemma truthy_false (s : string) : truthy s = false -> s = "".
Proof.
  unfold truthy. destruct (String.eqb_spec s ""); [easy|discriminate].
Qed.

(** A request whose password fails the check is rejected by the
    validation, whatever its other fields are. *)
Lemma weak_password_rejected (request : RegisterRequest) :
  Policy.minimum (rr_password request) = false ->
  exists msg, validateRegistrationRequest request = Return (failure msg).
Proof.
  intros Hweak. unfold validateRegistrationRequest, registrationErrors.
  destruct (truthy (rr_password request)) eqn:Ht; cbn [negb].
  - destruct (validatePassword_error _ Hweak) as [msg Hmsg]. rewrite Hmsg.
    cbn [isFailure failure failure_with _isSuccess negb error _error].
    destruct (negb (truthy (rr_email request)) || negb (isValidEmail (rr_email request)));
      eexists; reflexivity.
  - destruct (negb (truthy (rr_email request)) || negb (isValidEmail (rr_email request)));
      eexists; reflexivity.
Qed.

Lemma register_rejects_invalid {S} (repo : IUserRepository S) (bcrypt : Bcrypt.library)
    (svc : service) (request : RegisterRequest) (uuid msg : string) (st : S) :
  BaseService.isReady (base svc) = true ->
  validateRegistrationRequest request = Return (failure msg) ->
  register repo bcrypt svc request uuid st = (st, Return (failure msg)).
Proof.
  intros Hr Hv. unfold register.
  rewrite (ReadinessFacts.guarded_ready _ _ _ Hr).
  unfold try_catch, JS.bind, lift. rewrite Hv. reflexivity.
Qed.

End PasswordFacts.

Module PasswordPolicy.
Import AuthService PasswordFacts.

Lemma minimum_truthy (password : string) :
  Policy.minimum password = true -> truthy password = true.
Proof.
  destruct password; [discriminate|reflexivity].
Qed.

(** With the other fields valid and the email free, registration
    succeeds exactly when the password meets the policy. *)
Lemma register_follows_policy (password uuid : string) :
  exists r,
    snd (register MemoryStore.repository Fixtures.bcrypt Fixtures.ready
           (Fixtures.registration "asha@school.in" password "teacher") uuid [])
    = Return r
    /\ isSuccess r = Policy.minimum password.
Proof.
  destruct (Policy.minimum password) eqn:Hp.
  - eexists. split.
    + unfold register. rewrite ReadinessFacts.guarded_ready by reflexivity.
      unfold try_catch, JS.bind, lift, validateRegistrationRequest, registrationErrors.
      cbn [Fixtures.registration rr_password rr_email rr_firstName rr_lastName rr_role].
      rewrite (minimum_truthy _ Hp), validatePassword_minimum, Hp.
      vm_compute. reflexivity.
    + reflexivity.
  - destruct (weak_password_rejected
                (Fixtures.registration "asha@school.in" password "teacher") Hp)
      as [msg Hmsg].
    exists (failure msg). split; [|reflexivity].
    erewrite register_rejects_invalid; [reflexivity|reflexivity|exact Hmsg].
Qed.

(** With the current password right, a password change succeeds exactly
    when the new password meets the policy. *)
Lemma changePassword_follows_policy (newPassword : string) (now : Z) :
  exists r,
    snd (changePassword MemoryStore.repository Fixtures.bcrypt Fixtures.ready
           "u-1" "Abcdef12" newPassword now [Fixtures.asha])
    = Return r
    /\ isSuccess r = Policy.minimum newPassword.
Proof.
  unfold changePassword. rewrite ReadinessFacts.guarded_ready by reflexivity.
  unfold try_catch, JS.bind, lift. cbn.
  rewrite validatePassword_minimum.
  destruct (Policy.minimum newPassword) eqn:Hp.
  - eexists. split; [reflexivity|reflexivity].
  - destruct (validatePassword_error _ Hp) as [msg Hmsg]. rewrite Hmsg.
    eexists. split; [reflexivity|reflexivity].
Qed.

(** C7.  The check behind [register] and [changePassword] accepts a
    password exactly when it has at least 8 characters, an uppercase
    letter, a lowercase letter and a digit.  Registration with the
    password abc is a validation failure whatever the other fields are;
    Abcdef12 passes, and with valid fields the registration and a password
    change succeed exactly when the password meets the policy.  The
    shared utility, which asks for a special character, is not on this
    path: it turns Abcdef12 down. *)
Theorem password_policy {S} (repo : IUserRepository S) (bcrypt : Bcrypt.library)
    (password : string) (name k1 k2 : string)
    (email firstName lastName role uuid : string) (phone schoolId : option string)
    (additionalData : option AdditionalData) (st : S) (now : Z) :
  isSuccess (validatePassword password) = Policy.minimum password
  /\ validatePassword "abc" = failure "Password must be at least 8 characters long"
  /\ (exists msg,
        register repo bcrypt (mkService (BaseService.mkState name true false) k1 k2)
          (mkRegisterRequest email "abc" firstName lastName phone role schoolId
             additionalData) uuid st
        = (st, Return (failure msg)))
  /\ validatePassword "Abcdef12" = success true
  /\ (exists r,
        snd (register MemoryStore.repository Fixtures.bcrypt Fixtures.ready
               (Fixtures.registration "asha@school.in" password "teacher") uuid [])
        = Return r
        /\ isSuccess r = Policy.minimum password)
  /\ (exists r,
        snd (changePassword MemoryStore.repository Fixtures.bcrypt Fixtures.ready
               "u-1" "Abcdef12" password now [Fixtures.asha])
        = Return r
        /\ isSuccess r = Policy.minimum password)
  /\ ValidationUtils.isValid (ValidationUtils.validatePassword "Abcdef12") = false.
Proof.
  split; [apply isSuccess_validatePassword|].
  split; [reflexivity|].
  split.
  { destruct (weak_password_rejected
                (mkRegisterRequest email "abc" firstName lastName phone role schoolId
                   additionalData)) as [msg Hmsg]; [reflexivity|].
    exists msg. apply register_rejects_invalid; [reflexivity|exact Hmsg]. }
  split; [reflexivity|].
  split; [apply register_follows_policy|].
  split; [apply changePassword_follows_policy|].
  reflexivity.
Qed.

End PasswordPolicy.

(** ** The audit trail *)

Module AuditFacts.
Import BaseEntity.
Local Open Scope list_scope.

Lemma version_lookup (e : entity) (v : Z) :
  version e = Some v -> e !! "version" = Some (VNum v).
Proof.
  unfold version. destruct (e !! "version") as [[]|]; congruence.
Qed.

Lemma auditLog_lookup (e : entity) (l : list AuditEntry) :
  auditLog e = Some l -> e !! "auditLog" = Some (VLog l).
Proof.
  unfold auditLog. destruct (e !! "auditLog") as [[]|]; congruence.
Qed.

Lemma updateMetadata_other (key : string) (u : option string) (now : Z) (e : entity) :
  key <> "updatedAt" -> key <> "updatedBy" ->
  updateMetadata u now e !! key = e !! key.
Proof.
  intros H1 H2. unfold updateMetadata.
  destruct u as [u|]; [destruct (truthy u)|];
    rewrite ?lookup_insert_ne by congruence; reflexivity.
Qed.

(** Within the integers a number holds exactly, [+ 1] is the successor. *)
Lemma increment_exact (n : Z) :
  - 2 ^ 53 <= n + 1 <= 2 ^ 53 -> increment n = n + 1.
Proof.
  intros H. unfold increment, round_to_double.
  destruct (Z.leb_spec (Z.abs (n + 1)) (2 ^ 53)) as [_|Hgt]; [reflexivity|lia].
Qed.

Lemma increments_exact (count : nat) :
  forall n, counts_exactly n (Z.of_nat count) ->
    increments count n = n + Z.of_nat count.
Proof.
  induction count as [|k IH]; intros n H; [simpl; lia|].
  destruct H as [H|[Hlo Hhi]]; [lia|].
  cbn [increments]. rewrite increment_exact by lia.
  rewrite IH; [lia|]. unfold counts_exactly. lia.
Qed.

Lemma increments_last (count : nat) (n : Z) :
  increments (count + 1) n = increment (increments count n).
Proof.
  revert n. induction count as [|k IH]; intros n; [reflexivity|].
  simpl. apply IH.
Qed.

(** One call of [addAuditEntry]: one entry more, the version
    incremented. *)
Lemma addAuditEntry_appends (u : string) (a : AuditAction)
    (c : list (string * (value * value))) (md : option (list (string * value)))
    (now : Z) (e : entity) (v : Z) (l : list AuditEntry) :
  version e = Some v -> auditLog e = Some l ->
  exists e', addAuditEntry u a c md now e = Return e'
    /\ version e' = Some (increment v)
    /\ auditLog e' = Some (l ++ [mkAuditEntry now u a c md]).
Proof.
  intros Hv Hl. apply version_lookup in Hv. apply auditLog_lookup in Hl.
  unfold addAuditEntry. rewrite Hl. eexists. split; [reflexivity|].
  unfold version, auditLog.
  rewrite !updateMetadata_other by discriminate.
  rewrite lookup_insert_eq.
  rewrite (lookup_insert_ne _ "version" "auditLog") by discriminate.
  rewrite lookup_insert_eq.
  rewrite (lookup_insert_ne _ "auditLog" "version") by discriminate.
  rewrite Hv. split; reflexivity.
Qed.

(** The loop of [auditUpdate] leaves the bookkeeping alone when the
    update does not name it. *)
Lemma track_changes_bookkeeping (ups : list (string * value)) (e : entity)
    (c : list (string * (value * value))) (key : string) :
  plain_update ups = true -> names_bookkeeping key = true ->
  fst (track_changes ups e c) !! key = e !! key.
Proof.
  revert e c. induction ups as [|[k nv] ups IH]; intros e c Hp Hk; [reflexivity|].
  simpl in Hp. apply andb_true_iff in Hp as [Hk' Hp]. simpl.
  assert (k <> key).
  { intros ->. rewrite Hk in Hk'. discriminate. }
  destruct (e !! k) as [old|]; [|now apply IH].
  destruct (strict_neq old nv); [|now apply IH].
  rewrite IH by assumption. now apply lookup_insert_ne.
Qed.

Lemma track_changes_version (ups : list (string * value)) (e : entity) (v : Z) :
  plain_update ups = true -> version e = Some v ->
  version (fst (track_changes ups e [])) = Some v.
Proof.
  intros Hp Hv. unfold version.
  rewrite track_changes_bookkeeping by (assumption || reflexivity). exact Hv.
Qed.

Lemma track_changes_auditLog (ups : list (string * value)) (e : entity)
    (l : list AuditEntry) :
  plain_update ups = true -> auditLog e = Some l ->
  auditLog (fst (track_changes ups e [])) = Some l.
Proof.
  intros Hp Hl. unfold auditLog.
  rewrite track_changes_bookkeeping by (assumption || reflexivity). exact Hl.
Qed.

(** One call, committed or not. *)
Lemma apply_plain (m : mutation) (e : entity) (v : Z) (l : list AuditEntry) :
  plain m = true -> version e = Some v -> auditLog e = Some l ->
  exists e' added,
    apply m e = Return e'
    /\ version e' = Some (if commits m e then increment v else v)
    /\ auditLog e' = Some (l ++ added)
    /\ List.length added = (if commits m e then 1 else 0)%nat.
Proof.
  intros Hp Hv Hl. destruct m as [u a c md now|ups u md now]; simpl.
  - destruct (addAuditEntry_appends u a c md now e v l Hv Hl) as (e' & He & Hv' & Hl').
    exists e', [mkAuditEntry now u a c md]. auto.
  - simpl in Hp. unfold auditUpdate.
    pose proof (track_changes_version ups e v Hp Hv) as Hv1.
    pose proof (track_changes_auditLog ups e l Hp Hl) as Hl1.
    destruct (track_changes ups e []) as [e1 ch]. simpl in *.
    destruct (0 <? Z.of_nat (List.length ch)).
    + destruct (addAuditEntry_appends u UPDATE ch md now e1 v l Hv1 Hl1)
        as (e' & He & Hv' & Hl').
      exists e', [mkAuditEntry now u UPDATE ch md]. auto.
    + exists e1, []. rewrite app_nil_r. auto.
Qed.

Lemma run_plain (ms : list mutation) (e : entity) (k v : Z) (l : list AuditEntry) :
  forallb plain ms = true -> version e = Some v -> auditLog e = Some l ->
  exists e' added,
    run ms e k = Return (e', k + Z.of_nat (List.length added))
    /\ version e' = Some (increments (List.length added) v)
    /\ auditLog e' = Some (l ++ added).
Proof.
  revert e k v l. induction ms as [|m ms IH]; intros e k v l Hp Hv Hl.
  - exists e, []. simpl. rewrite app_nil_r, Z.add_0_r. auto.
  - simpl in Hp. apply andb_true_iff in Hp as [Hm Hp].
    destruct (apply_plain m e v l Hm Hv Hl) as (e1 & a1 & He1 & Hv1 & Hl1 & Hn1).
    simpl. rewrite He1.
    destruct (IH e1 (if commits m e then k + 1 else k) _ _ Hp Hv1 Hl1)
      as (e' & a2 & Hrun & Hv' & Hl').
    exists e', (a1 ++ a2).
    rewrite Hrun, Hv', Hl', length_app, Nat2Z.inj_add, Hn1, <- app_assoc.
    destruct (commits m e); repeat split; try reflexivity; f_equal; f_equal; lia.
Qed.

(** What a new entity starts from. *)
Lemma new_version (uuid : string) (now : Z) :
  version (new_AuditableEntity None uuid now) = Some 1
  /\ auditLog (new_AuditableEntity None uuid now) = Some [].
Proof. split; reflexivity. Qed.

(** C8, as the code has it.  Take an auditable entity with version [v0]
    and audit log [log0], and any sequence of calls of [addAuditEntry]
    and of [auditUpdate] whose updates do not themselves assign the
    properties version and auditLog.  The calls complete; if [n] of them
    committed a mutation, the log is [log0] followed by exactly [n] new
    entries, so nothing was removed and each committed mutation added
    one entry, and the version is [v0] incremented [n] times in the
    arithmetic of numbers.  That is [v0 + n], one more for each
    committed mutation, whenever the versions reached are integers that
    a number holds exactly, from -2^53 to 2^53.  For an entity
    constructed without data, [v0] is 1 and [log0] is empty. *)
Theorem version_tracks_committed_mutations (e : entity) (v0 : Z)
    (log0 : list AuditEntry) (ms : list mutation) :
  version e = Some v0 -> auditLog e = Some log0 -> forallb plain ms = true ->
  exists e' n added,
    run ms e 0 = Return (e', n)
    /\ auditLog e' = Some (log0 ++ added)
    /\ Z.of_nat (List.length added) = n
    /\ Z.of_nat (List.length (log0 ++ added)) = Z.of_nat (List.length log0) + n
    /\ version e' = Some (increments (List.length added) v0)
    /\ (counts_exactly v0 n -> version e' = Some (v0 + n))
    /\ (forall uuid now,
          version (new_AuditableEntity None uuid now) = Some 1
          /\ auditLog (new_AuditableEntity None uuid now) = Some []).
Proof.
  intros Hv Hl Hp.
  destruct (run_plain ms e 0 v0 log0 Hp Hv Hl) as (e' & added & Hr & Hv' & Hl').
  exists e', (Z.of_nat (List.length added)), added. rewrite Z.add_0_l in Hr.
  split; [exact Hr|]. split; [exact Hl'|]. split; [reflexivity|].
  split; [rewrite length_app, Nat2Z.inj_add; lia|].
  split; [exact Hv'|]. split; [|apply new_version].
  intros Hexact. rewrite Hv'. f_equal. now apply increments_exact.
Qed.

Lemma version_tracks_committed_mutations_witness :
  exists e' n added,
    run Fixtures.edits (new_AuditableEntity None "e-2" 10) 0 = Return (e', n)
    /\ version e' = Some (1 + n)
    /\ auditLog e' = Some ([] ++ added)
    /\ Z.of_nat (List.length added) = n.
Proof.
  destruct (version_tracks_committed_mutations
              (new_AuditableEntity None "e-2" 10) 1 [] Fixtures.edits
              eq_refl eq_refl eq_refl)
    as (e' & n & added & Hr & Hl & Hn & _ & _ & Hv & _).
  exists e', n, added. repeat split; try assumption.
  apply Hv. right. split; [lia|].
  assert (Hlen : n <= Z.of_nat (List.length Fixtures.edits)).
  { vm_compute in Hr. injection Hr as _ <-. vm_compute. discriminate. }
  simpl in Hlen. lia.
Defined.

(** Two entities constructed from stored data.  One carries version 7
    beside a log of one entry: before any mutation the version is not
    the initial version plus the length of the log.  The other carries
    version 2^53: a committed mutation adds its entry and leaves the
    version where it was. *)
Lemma stated_invariant_breaks :
  ~ Stated.version_counts_log (new_AuditableEntity (Some Fixtures.stored) "e-2" 50) []
  /\ ~ Stated.version_counts_log
        (new_AuditableEntity (Some Fixtures.saturated) "e-5" 50)
        [AddAuditEntry "u-1" VIEW [] None 60].
Proof.
  split.
  - intros H. destruct (H _ 0 eq_refl) as (v0 & v' & log' & Hv0 & Hv' & Hl' & _ & Hlen).
    vm_compute in Hv0, Hv', Hl'.
    injection Hv0 as <-. injection Hv' as <-. injection Hl' as <-.
    simpl in Hlen. lia.
  - intros H. destruct (H _ 1 eq_refl) as (v0 & v' & log' & Hv0 & Hv' & _ & Hn & _).
    vm_compute in Hv0, Hv'.
    injection Hv0 as <-. injection Hv' as <-. lia.
Qed.

(** An update that names the version property overwrites the counter
    before the entry is added. *)
Example auditUpdate_overwrites_version :
  (let e := new_AuditableEntity None "e-2" 10 in
   match auditUpdate [("version", VNum 10)] "u-1" None 20 e with
   | Return e' => version e' = Some 11 /\ version e = Some 1
   | Throw _ => False
   end).
Proof. vm_compute. split; reflexivity. Qed.

End AuditFacts.

(** ** [login]: the outcomes, path by path *)

Module LoginFacts.
Import AuthService.

Ltac run_login Hready :=
  unfold login; rewrite (ReadinessFacts.guarded_ready _ _ _ Hready);
  unfold try_catch, JS.bind, JS.lift, JS.ret.

Section Paths.
Context {S : Type} (repo : IUserRepository S) (bcrypt : Bcrypt.library).
Context (svc : service) (Hready : BaseService.isReady (base svc) = true).
Context (request : LoginRequest) (now : Z) (st st1 : S).

(** The lookup throws. *)
Lemma lookup_threw (e : Exception) :
  findByEmail repo (lr_email request) st = (st1, Throw e) ->
  login repo bcrypt svc request now st = (st1, Return authentication_failed).
Proof. intros Hf. run_login Hready. rewrite Hf. reflexivity. Qed.

(** The lookup ends in a failure [Result]. *)
Lemma lookup_failed (r : Result (option User)) :
  findByEmail repo (lr_email request) st = (st1, Return r) ->
  isFailure r = true ->
  login repo bcrypt svc request now st = (st1, Return authentication_failed).
Proof. intros Hf Hr. run_login Hready. rewrite Hf, Hr. reflexivity. Qed.

(** The lookup succeeds and carries no user. *)
Lemma nobody_found (r : Result (option User)) :
  findByEmail repo (lr_email request) st = (st1, Return r) ->
  found_user r = None ->
  login repo bcrypt svc request now st = (st1, Return authentication_failed).
Proof.
  intros Hf Hn. run_login Hready. rewrite Hf.
  unfold found_user, isSuccess in Hn. unfold isFailure, data.
  destruct (_isSuccess r); [|reflexivity]. cbn [negb].
  destruct (_data r) as [[u|]|]; [discriminate|reflexivity|reflexivity].
Qed.

(** The lookup finds a user who may not log in. *)
Lemma refused (r : Result (option User)) (u : User) (msg : string) :
  findByEmail repo (lr_email request) st = (st1, Return r) ->
  found_user r = Some u ->
  loginRefusal u = Some msg ->
  login repo bcrypt svc request now st = (st1, Return (failure msg)).
Proof.
  intros Hf Hu Hm. run_login Hready. rewrite Hf.
  unfold found_user, isSuccess in Hu. unfold isFailure, data.
  destruct (_isSuccess r); [|discriminate]. cbn [negb].
  destruct (_data r) as [[u'|]|]; try discriminate.
  injection Hu as ->. rewrite Hm. reflexivity.
Qed.

(** The lookup finds a user who may log in, and the password is wrong:
    the failure is recorded and handed to the store. *)
Lemma wrong_password (r : Result (option User)) (u : User) :
  findByEmail repo (lr_email request) st = (st1, Return r) ->
  found_user r = Some u ->
  loginRefusal u = None ->
  Bcrypt.compare bcrypt (lr_password request) (passwordHash u) = false ->
  login repo bcrypt svc request now st
  = (fst (update repo (id u) (recordFailedLogin now u) st1),
     Return authentication_failed).
Proof.
  intros Hf Hu Hm Hc. run_login Hready. rewrite Hf.
  unfold found_user, isSuccess in Hu. unfold isFailure, data.
  destruct (_isSuccess r); [|discriminate]. cbn [negb].
  destruct (_data r) as [[u'|]|]; try discriminate.
  injection Hu as ->. rewrite Hm, Hc. cbn [negb].
  change (id (recordFailedLogin now u)) with (id u).
  destruct (update repo (id u) (recordFailedLogin now u) st1) as [st2 [x|e]];
    reflexivity.
Qed.

(** The lookup finds a user who may log in, and the password is right. *)
Lemma right_password (r : Result (option User)) (u : User) :
  findByEmail repo (lr_email request) st = (st1, Return r) ->
  found_user r = Some u ->
  loginRefusal u = None ->
  Bcrypt.compare bcrypt (lr_password request) (passwordHash u) = true ->
  let u' := recordSuccessfulLogin now u in
  login repo bcrypt svc request now st
  = match update repo (id u) u' st1 with
    | (st2, Return _) =>
        match generateAccessToken svc u' now, generateRefreshToken svc u' now with
        | Return a, Return b =>
            (st2, Return (success (mkLoginResponse u' a b (15 * 60))))
        | _, _ => (st2, Return authentication_failed)
        end
    | (st2, Throw _) => (st2, Return authentication_failed)
    end.
Proof.
  intros Hf Hu Hm Hc u'. run_login Hready. rewrite Hf.
  unfold found_user, isSuccess in Hu. unfold isFailure, data.
  destruct (_isSuccess r); [|discriminate]. cbn [negb].
  destruct (_data r) as [[u0|]|]; try discriminate.
  injection Hu as ->. rewrite Hm, Hc. cbn [negb].
  change (id (recordSuccessfulLogin now u)) with (id u). fold u'.
  destruct (update repo (id u) u' st1) as [st2 [x|e]]; [|reflexivity].
  destruct (generateAccessToken svc u' now); [|reflexivity].
  destruct (generateRefreshToken svc u' now); reflexivity.
Qed.

End Paths.

(** A user who may log in is not refused, and a refusal names the
    reason. *)
Lemma canLogin_not_refused (u : User) : canLogin u = true -> loginRefusal u = None.
Proof. intros H. unfold loginRefusal. now rewrite H. Qed.

Lemma locked_refused (u : User) :
  isLocked u = true ->
  loginRefusal u = Some "Account is locked due to multiple failed attempts".
Proof.
  intros H. unfold loginRefusal, canLogin. rewrite H.
  now rewrite andb_false_r.
Qed.

Lemma not_refused_active (u : User) : loginRefusal u = None -> isActive u = true.
Proof.
  unfold loginRefusal, canLogin.
  destruct (isActive u), (isVerified u), (isLocked u); simpl; congruence.
Qed.

End LoginFacts.

(** ** What a failed [login] discloses *)

Module Disclosure.
Import AuthService LoginFacts.

(** C1, as the code has it.  On one store, a login with an email under
    which the lookup finds no user, and a login with the email of a user
    who is eligible to log in (active, verified, not locked) but with a
    wrong password, return the same failure: "Authentication failed". *)
Theorem unknown_email_like_wrong_password {S} (repo : IUserRepository S)
    (bcrypt : Bcrypt.library) (svc : service) (st st1 st2 : S)
    (unknown known password1 password2 : string) (now1 now2 : Z)
    (r1 r2 : Result (option User)) (u : User) :
  BaseService.isReady (base svc) = true ->
  findByEmail repo unknown st = (st1, Return r1) -> found_user r1 = None ->
  findByEmail repo known st = (st2, Return r2) -> found_user r2 = Some u ->
  canLogin u = true ->
  Bcrypt.compare bcrypt password2 (passwordHash u) = false ->
  snd (login repo bcrypt svc (mkLoginRequest unknown password1) now1 st)
  = Return (failure "Authentication failed")
  /\ snd (login repo bcrypt svc (mkLoginRequest known password2) now2 st)
     = Return (failure "Authentication failed").
Proof.
  intros Hready Hf1 Hn Hf2 Hu Hcan Hcmp. split.
  - erewrite nobody_found; eauto.
  - erewrite wrong_password; eauto using canLogin_not_refused.
Qed.

Lemma unknown_email_like_wrong_password_witness :
  snd (login MemoryStore.repository Fixtures.bcrypt Fixtures.ready
         (mkLoginRequest "nobody@school.in" "guess") 100 [Fixtures.asha])
  = Return (failure "Authentication failed")
  /\ snd (login MemoryStore.repository Fixtures.bcrypt Fixtures.ready
            (mkLoginRequest "asha@school.in" "guess") 101 [Fixtures.asha])
     = Return (failure "Authentication failed").
Proof.
  apply (unknown_email_like_wrong_password MemoryStore.repository Fixtures.bcrypt
           Fixtures.ready [Fixtures.asha] [Fixtures.asha] [Fixtures.asha]
           "nobody@school.in" "asha@school.in" "guess" "guess" 100 101
           (success None) (success (Some Fixtures.asha)) Fixtures.asha);
    reflexivity.
Defined.

(** For an account that exists but is inactive, or locked, a wrong
    password is answered with the state of the account, not with the
    answer an unknown email gets. *)
Lemma ineligible_account_is_disclosed :
  snd (login MemoryStore.repository Fixtures.bcrypt Fixtures.ready
         (mkLoginRequest "nobody@school.in" "guess") 100 [Fixtures.asha_inactive])
  = Return (failure "Authentication failed")
  /\ snd (login MemoryStore.repository Fixtures.bcrypt Fixtures.ready
            (mkLoginRequest "asha@school.in" "guess") 100 [Fixtures.asha_inactive])
     = Return (failure "Account is inactive")
  /\ snd (login MemoryStore.repository Fixtures.bcrypt Fixtures.ready
            (mkLoginRequest "asha@school.in" "guess") 100 [Fixtures.asha_locked])
     = Return (failure "Account is locked due to multiple failed attempts")
  /\ snd (login MemoryStore.repository Fixtures.bcrypt Fixtures.ready
            (mkLoginRequest "nobody@school.in" "guess") 100 [Fixtures.asha_inactive])
     <> snd (login MemoryStore.repository Fixtures.bcrypt Fixtures.ready
               (mkLoginRequest "asha@school.in" "guess") 100 [Fixtures.asha_inactive]).
Proof.
  repeat split; try reflexivity. vm_compute. discriminate.
Qed.

(** C6, as the code has it.  When the lookup of [login] ends in a failure
    [Result] or throws, the caller gets the failure "Authentication
    failed" and nothing of the store's own error; that is the very
    [Result] a wrong password gets from a healthy store. *)
Theorem store_failure_like_wrong_password {S} (down healthy : IUserRepository S)
    (bcrypt : Bcrypt.library) (svc : service) (request request' : LoginRequest)
    (now now' : Z) (st st1 st' st1' : S)
    (outcome : completion (Result (option User)))
    (r' : Result (option User)) (u : User) :
  BaseService.isReady (base svc) = true ->
  findByEmail down (lr_email request) st = (st1, outcome) ->
  match outcome with Return r => isFailure r | Throw _ => true end = true ->
  findByEmail healthy (lr_email request') st' = (st1', Return r') ->
  found_user r' = Some u ->
  canLogin u = true ->
  Bcrypt.compare bcrypt (lr_password request') (passwordHash u) = false ->
  login down bcrypt svc request now st = (st1, Return (failure "Authentication failed"))
  /\ snd (login down bcrypt svc request now st)
     = snd (login healthy bcrypt svc request' now' st').
Proof.
  intros Hready Hf Hbad Hf' Hu Hcan Hcmp.
  assert (Hdown : login down bcrypt svc request now st
                  = (st1, Return authentication_failed)).
  { destruct outcome as [r|e].
    - eapply lookup_failed; eauto.
    - eapply lookup_threw; eauto. }
  split; [exact Hdown|].
  rewrite Hdown. erewrite wrong_password; eauto using canLogin_not_refused.
Qed.

Lemma store_failure_like_wrong_password_witness :
  login (MemoryStore.unavailable "ECONNREFUSED") Fixtures.bcrypt Fixtures.ready
    (mkLoginRequest "asha@school.in" "Abcdef12") 100 [Fixtures.asha]
  = ([Fixtures.asha], Return (failure "Authentication failed"))
  /\ snd (login (MemoryStore.unavailable "ECONNREFUSED") Fixtures.bcrypt Fixtures.ready
            (mkLoginRequest "asha@school.in" "Abcdef12") 100 [Fixtures.asha])
     = snd (login MemoryStore.repository Fixtures.bcrypt Fixtures.ready
              (mkLoginRequest "asha@school.in" "guess") 101 [Fixtures.asha]).
Proof.
  apply (store_failure_like_wrong_password (MemoryStore.unavailable "ECONNREFUSED")
           MemoryStore.repository Fixtures.bcrypt Fixtures.ready
           (mkLoginRequest "asha@school.in" "Abcdef12")
           (mkLoginRequest "asha@school.in" "guess") 100 101
           [Fixtures.asha] [Fixtures.asha] [Fixtures.asha] [Fixtures.asha]
           (Return (failure "ECONNREFUSED")) (success (Some Fixtures.asha))
           Fixtures.asha);
    reflexivity.
Defined.

(** With the store down, or its driver throwing, the right password gets
    the [Result] that a wrong password gets from a healthy store. *)
Lemma store_outage_is_not_distinguishable :
  snd (login (MemoryStore.unavailable "ECONNREFUSED") Fixtures.bcrypt Fixtures.ready
         (mkLoginRequest "asha@school.in" "Abcdef12") 100 [Fixtures.asha])
  = snd (login MemoryStore.repository Fixtures.bcrypt Fixtures.ready
           (mkLoginRequest "asha@school.in" "guess") 100 [Fixtures.asha])
  /\ snd (login (MemoryStore.crashing "socket hang up") Fixtures.bcrypt Fixtures.ready
            (mkLoginRequest "asha@school.in" "Abcdef12") 100 [Fixtures.asha])
     = snd (login MemoryStore.repository Fixtures.bcrypt Fixtures.ready
              (mkLoginRequest "asha@school.in" "guess") 100 [Fixtures.asha]).
Proof. split; reflexivity. Qed.

End Disclosure.

(** ** [login] over the in-memory store *)

Module MemoryFacts.
Import AuthService LoginFacts MemoryStore.
Local Open Scope list_scope.

Lemma found_user_success (x : option User) : found_user (success x) = x.
Proof. destruct x; reflexivity. Qed.

Lemma has_email_eq (e : string) (u : User) : has_email e u = true -> email u = e.
Proof. unfold has_email. now intros H%String.eqb_eq. Qed.

Lemma has_id_refl (u : User) : has_id (id u) u = true.
Proof. apply String.eqb_refl. Qed.

Lemma find_email_inv (e : string) (s : list User) (u : User) :
  List.find (has_email e) s = Some u -> email u = e /\ existsb (has_id (id u)) s = true.
Proof.
  intros H. apply find_some in H as [Hin He]. split; [now apply has_email_eq|].
  apply existsb_exists. exists u. split; [assumption|apply has_id_refl].
Qed.

(** After [update] the lookup by email finds the written user. *)
Lemma find_email_replace (e : string) (s : list User) (u u' : User) :
  List.find (has_email e) s = Some u -> email u' = e ->
  List.find (has_email e) (replace (id u) u' s) = Some u'.
Proof.
  intros Hf He'. assert (Hu' : has_email e u' = true).
  { unfold has_email. rewrite He'. apply String.eqb_refl. }
  induction s as [|x s IH]; [discriminate|]. simpl in Hf |- *.
  destruct (has_email e x) eqn:Hx.
  - injection Hf as ->. rewrite has_id_refl. simpl. now rewrite Hu'.
  - destruct (has_id (id u) x).
    + simpl. now rewrite Hu'.
    + simpl. rewrite Hx. now apply IH.
Qed.

(** After [update] the lookup by id finds the written user. *)
Lemma find_id_replace (i : string) (s : list User) (u' : User) :
  existsb (has_id i) s = true -> id u' = i ->
  List.find (has_id i) (replace i u' s) = Some u'.
Proof.
  intros Hex Hi. assert (Hu' : has_id i u' = true).
  { unfold has_id. rewrite Hi. apply String.eqb_refl. }
  induction s as [|x s IH]; [discriminate|]. simpl in Hex |- *.
  destruct (has_id i x) eqn:Hx.
  - simpl. now rewrite Hu'.
  - simpl. rewrite Hx. now apply IH.
Qed.

Lemma update_present (i : string) (s : list User) (u' : User) :
  existsb (has_id i) s = true ->
  update i u' s = (replace i u' s, Return (success u')).
Proof. intros H. unfold update. now rewrite H. Qed.

Section Memory.
Context (bcrypt : Bcrypt.library) (svc : service).
Context (Hready : BaseService.isReady (base svc) = true).

Lemma login_wrong (e password : string) (now : Z) (s : list User) (u : User) :
  List.find (has_email e) s = Some u ->
  loginRefusal u = None ->
  Bcrypt.compare bcrypt password (passwordHash u) = false ->
  login repository bcrypt svc (mkLoginRequest e password) now s
  = (replace (id u) (recordFailedLogin now u) s, Return authentication_failed).
Proof.
  intros Hf Hm Hc.
  erewrite (wrong_password repository bcrypt svc Hready _ now s s);
    [|reflexivity|rewrite found_user_success; exact Hf|exact Hm|exact Hc].
  simpl. rewrite update_present by (apply (find_email_inv _ _ _ Hf)). reflexivity.
Qed.

Lemma login_locked (e password : string) (now : Z) (s : list User) (u : User) :
  List.find (has_email e) s = Some u ->
  isLocked u = true ->
  login repository bcrypt svc (mkLoginRequest e password) now s
  = (s, Return (failure "Account is locked due to multiple failed attempts")).
Proof.
  intros Hf Hl.
  apply (refused repository bcrypt svc Hready _ now s s (success (List.find (has_email e) s)) u);
    [reflexivity|rewrite found_user_success; exact Hf|now apply locked_refused].
Qed.

Lemma login_right (e password : string) (now : Z) (s : list User) (u : User) :
  List.find (has_email e) s = Some u ->
  loginRefusal u = None ->
  Bcrypt.compare bcrypt password (passwordHash u) = true ->
  let u' := recordSuccessfulLogin now u in
  login repository bcrypt svc (mkLoginRequest e password) now s
  = (replace (id u) u' s,
     match generateAccessToken svc u' now, generateRefreshToken svc u' now with
     | Return a, Return b => Return (success (mkLoginResponse u' a b (15 * 60)))
     | _, _ => Return authentication_failed
     end).
Proof.
  intros Hf Hm Hc u'.
  erewrite (right_password repository bcrypt svc Hready _ now s s);
    [|reflexivity|rewrite found_user_success; exact Hf|exact Hm|exact Hc].
  simpl. rewrite update_present by (apply (find_email_inv _ _ _ Hf)). fold u'.
  destruct (generateAccessToken svc u' now); [|reflexivity].
  destruct (generateRefreshToken svc u' now); reflexivity.
Qed.

(** A [login] that succeeds took the last path: the user was found,
    was not refused, the password matched, the login was recorded and
    written, and both tokens were signed. *)
Lemma login_success_inv (request : LoginRequest) (now : Z) (s s' : list User)
    (r : Result LoginResponse) :
  login repository bcrypt svc request now s = (s', Return r) ->
  isSuccess r = true ->
  exists u a b,
    List.find (has_email (lr_email request)) s = Some u
    /\ loginRefusal u = None
    /\ s' = replace (id u) (recordSuccessfulLogin now u) s
    /\ generateAccessToken svc (recordSuccessfulLogin now u) now = Return a
    /\ generateRefreshToken svc (recordSuccessfulLogin now u) now = Return b
    /\ r = success (mkLoginResponse (recordSuccessfulLogin now u) a b (15 * 60)).
Proof.
  destruct request as [e password]. cbn [lr_email]. intros Hl Hs.
  destruct (List.find (has_email e) s) as [u|] eqn:Hf.
  - destruct (loginRefusal u) as [msg|] eqn:Hm.
    + rewrite (refused repository bcrypt svc Hready _ now s s
                 (success (List.find (has_email e) s)) u msg) in Hl;
        [|reflexivity|rewrite found_user_success; exact Hf|exact Hm].
      injection Hl as <- <-. discriminate.
    + destruct (Bcrypt.compare bcrypt password (passwordHash u)) eqn:Hc.
      * rewrite (login_right e password now s u Hf Hm Hc) in Hl.
        destruct (generateAccessToken svc _ now) as [a|] eqn:Ha;
          [|injection Hl as <- <-; discriminate].
        destruct (generateRefreshToken svc _ now) as [b|] eqn:Hb;
          [|injection Hl as <- <-; discriminate].
        injection Hl as <- <-. exists u, a, b. repeat split; assumption.
      * rewrite (login_wrong e password now s u Hf Hm Hc) in Hl.
        injection Hl as <- <-. discriminate.
  - rewrite (nobody_found repository bcrypt svc Hready _ now s s
               (success (List.find (has_email e) s))) in Hl;
      [|reflexivity|rewrite found_user_success; exact Hf].
    injection Hl as <- <-. discriminate.
Qed.

End Memory.

End MemoryFacts.

(** ** The lockout *)

Module Lockout.
Import AuthService LoginFacts MemoryStore MemoryFacts.
Local Open Scope list_scope.

Lemma below_threshold_not_locked (u : User) :
  failedLoginAttempts u < lockoutThreshold -> isLocked u = false.
Proof. unfold isLocked. intros H. apply Z.leb_gt. exact H. Qed.

Lemma eligible (u : User) :
  isActive u = true -> isVerified u = true ->
  failedLoginAttempts u < lockoutThreshold -> loginRefusal u = None.
Proof.
  intros Ha Hv Hc. apply canLogin_not_refused. unfold canLogin.
  now rewrite Ha, Hv, (below_threshold_not_locked u Hc).
Qed.

Lemma sign_with_secret (claims : Jwt.Claims) (secret : string) (ttl now : Z) :
  truthy secret = true ->
  Jwt.sign claims secret ttl now
  = Return (Jwt.Signed (Jwt.mkPayload (Jwt.c_userId claims) (Jwt.c_email claims)
              (Jwt.c_role claims) (Jwt.c_schoolId claims) now (now + ttl)) secret).
Proof. intros H. unfold Jwt.sign. now rewrite H. Qed.

Section Memory.
Context (bcrypt : Bcrypt.library) (svc : service).
Context (Hready : BaseService.isReady (base svc) = true).

(** Wrong passwords against an eligible account: each call fails with
    the opaque message and the counter goes up by one. *)
Lemma failures_accumulate (e : string) (attempts : list (string * Z)) :
  forall (s : list User) (u : User),
    List.find (has_email e) s = Some u ->
    isActive u = true -> isVerified u = true ->
    failedLoginAttempts u + Z.of_nat (List.length attempts) <= lockoutThreshold ->
    forallb (fun a => negb (Bcrypt.compare bcrypt (fst a) (passwordHash u))) attempts
    = true ->
    exists s' u',
      logins repository bcrypt svc (List.map (attempt e) attempts) s
      = (s', List.map (fun _ => Return authentication_failed) attempts)
      /\ List.find (has_email e) s' = Some u'
      /\ id u' = id u /\ passwordHash u' = passwordHash u
      /\ isActive u' = true /\ isVerified u' = true
      /\ failedLoginAttempts u'
         = failedLoginAttempts u + Z.of_nat (List.length attempts).
Proof.
  induction attempts as [|[password now] rest IH]; intros s u Hf Ha Hv Hc Hw.
  - exists s, u. simpl. rewrite Z.add_0_r. repeat split; assumption.
  - simpl in Hw. apply andb_true_iff in Hw as [Hw1 Hw].
    apply negb_true_iff in Hw1.
    cbn [List.length] in Hc. rewrite Nat2Z.inj_succ in Hc.
    assert (Hm : loginRefusal u = None) by (apply eligible; auto; lia).
    destruct (find_email_inv e s u Hf) as [He Hex].
    destruct (IH (replace (id u) (recordFailedLogin now u) s) (recordFailedLogin now u))
      as (s' & u' & Hrun & Hf' & Hid & Hph & Ha' & Hv' & Hc'); auto.
    + apply find_email_replace; auto.
    + simpl. lia.
    + exists s', u'. cbn [List.map logins attempt fst snd].
      rewrite (login_wrong bcrypt svc Hready e password now s u Hf Hm Hw1), Hrun.
      repeat split; auto. rewrite Hc'. simpl.
      cbn [List.length]. rewrite Nat2Z.inj_succ. lia.
Qed.

(** Against a locked account every call is turned down and the store
    stays as it is. *)
Lemma locked_stays_locked (e : string) (attempts : list (string * Z)) (s : list User)
    (u : User) :
  List.find (has_email e) s = Some u -> isLocked u = true ->
  logins repository bcrypt svc (List.map (attempt e) attempts) s
  = (s, List.map (fun _ => Return (failure "Account is locked due to multiple failed attempts"))
          attempts).
Proof.
  intros Hf Hl. induction attempts as [|[password now] rest IH]; [reflexivity|].
  cbn [List.map logins attempt fst snd].
  rewrite (login_locked bcrypt svc Hready e password now s u Hf Hl), IH. reflexivity.
Qed.

Lemma logins_app (a b : list (LoginRequest * Z)) (s : list User) :
  logins repository bcrypt svc (a ++ b) s
  = (fst (logins repository bcrypt svc b (fst (logins repository bcrypt svc a s))),
     snd (logins repository bcrypt svc a s)
     ++ snd (logins repository bcrypt svc b (fst (logins repository bcrypt svc a s)))).
Proof.
  revert s. induction a as [|[request now] a IH]; intros s.
  - simpl. now destruct (logins repository bcrypt svc b s).
  - cbn [app logins].
    destruct (login repository bcrypt svc request now s) as [s1 r].
    rewrite IH.
    destruct (logins repository bcrypt svc a s1) as [s2 rs]. cbn [fst snd].
    destruct (logins repository bcrypt svc b s2) as [s3 rs']. reflexivity.
Qed.

Lemma forallb_firstn {A} (p : A -> bool) (n : nat) (l : list A) :
  forallb p l = true -> forallb p (firstn n l) = true.
Proof.
  revert n. induction l as [|x l IH]; intros [|n] H; try reflexivity.
  simpl in H |- *. apply andb_true_iff in H as [Hx Hl]. now rewrite Hx, IH.
Qed.

(** Five wrong passwords against an active and verified account whose
    counter is not negative: the calls before the counter reaches 5 fail
    with the opaque message, the others with the message of the lock,
    and the account ends locked. *)
Lemma five_wrong_lock (e : string) (attempts : list (string * Z)) (s : list User)
    (u : User) :
  List.find (has_email e) s = Some u ->
  isActive u = true -> isVerified u = true -> 0 <= failedLoginAttempts u ->
  List.length attempts = 5%nat ->
  forallb (fun a => negb (Bcrypt.compare bcrypt (fst a) (passwordHash u))) attempts
  = true ->
  let before := Z.to_nat (lockoutThreshold - failedLoginAttempts u) in
  exists s5 u5,
    logins repository bcrypt svc (List.map (attempt e) attempts) s
    = (s5,
       List.map (fun _ => Return authentication_failed) (firstn before attempts)
       ++ List.map (fun _ => Return (failure "Account is locked due to multiple failed attempts"))
            (skipn before attempts))
    /\ List.find (has_email e) s5 = Some u5
    /\ id u5 = id u /\ passwordHash u5 = passwordHash u
    /\ isActive u5 = true /\ isVerified u5 = true
    /\ failedLoginAttempts u5 = Z.max lockoutThreshold (failedLoginAttempts u).
Proof.
  intros Hf Ha Hv Hc Hlen Hw before.
  replace (List.map (attempt e) attempts)
    with (List.map (attempt e) (firstn before attempts)
          ++ List.map (attempt e) (skipn before attempts))
    by (now rewrite <- List.map_app, firstn_skipn).
  rewrite logins_app.
  destruct (Z.lt_ge_cases (failedLoginAttempts u) lockoutThreshold) as [Hlt|Hge].
  - assert (Hb : List.length (firstn before attempts) = before).
    { rewrite length_firstn, Hlen. unfold before, lockoutThreshold in *. lia. }
    destruct (failures_accumulate e (firstn before attempts) s u Hf Ha Hv)
      as (s5 & u5 & Hrun & Hf5 & Hid & Hph & Ha5 & Hv5 & Hc5).
    { rewrite Hb. unfold before, lockoutThreshold in *. lia. }
    { now apply forallb_firstn. }
    rewrite Hb in Hc5.
    assert (Hfive : failedLoginAttempts u5 = lockoutThreshold)
      by (unfold before, lockoutThreshold in *; lia).
    assert (Hlocked : isLocked u5 = true) by (unfold isLocked; rewrite Hfive; lia).
    exists s5, u5. rewrite Hrun. cbn [fst snd].
    rewrite (locked_stays_locked e (skipn before attempts) s5 u5 Hf5 Hlocked).
    cbn [fst snd]. repeat split; try assumption.
    rewrite Hfive. unfold lockoutThreshold in *. lia.
  - assert (Hlocked : isLocked u = true) by (unfold isLocked; lia).
    assert (Hzero : before = 0%nat) by (unfold before; lia).
    rewrite Hzero. rewrite firstn_O, skipn_O. cbn [List.map logins fst snd app].
    exists s, u.
    rewrite (locked_stays_locked e attempts s u Hf Hlocked). cbn [fst snd].
    repeat split; try assumption. lia.
Qed.

(** C2, as the code has it, over the in-memory store.  For a user who
    is active and verified, whatever number of failed attempts is on
    record, five login calls in a row with a wrong password leave the
    stored account locked: the calls made while the counter is below 5
    fail with "Authentication failed" and raise it by one, and the
    calls made once it is 5 or more fail with the message of the lock.
    With no failed attempt on record all five fail with "Authentication
    failed" and the counter ends at 5.  From then on every login call on
    that email, whatever the password and whatever the password
    comparison would say, fails with "Account is locked due to multiple
    failed attempts" and changes nothing.  Once an unlock has put the
    counter back to 0, a login with the right password succeeds.  Every
    login that succeeds leaves the counter of the stored user at 0. *)
Theorem five_failures_lock (s : list User) (u : User) (e correct : string)
    (attempts : list (string * Z)) :
  truthy (jwtSecret svc) = true -> truthy (jwtRefreshSecret svc) = true ->
  List.find (has_email e) s = Some u ->
  isActive u = true -> isVerified u = true -> 0 <= failedLoginAttempts u ->
  List.length attempts = 5%nat ->
  forallb (fun a => negb (Bcrypt.compare bcrypt (fst a) (passwordHash u))) attempts
  = true ->
  Bcrypt.compare bcrypt correct (passwordHash u) = true ->
  let before := Z.to_nat (lockoutThreshold - failedLoginAttempts u) in
  exists s5 u5,
    logins repository bcrypt svc (List.map (attempt e) attempts) s
    = (s5,
       List.map (fun _ => Return authentication_failed) (firstn before attempts)
       ++ List.map (fun _ => Return (failure "Account is locked due to multiple failed attempts"))
            (skipn before attempts))
    /\ (failedLoginAttempts u = 0 ->
        logins repository bcrypt svc (List.map (attempt e) attempts) s
        = (s5, List.map (fun _ => Return authentication_failed) attempts))
    /\ List.find (has_email e) s5 = Some u5
    /\ failedLoginAttempts u5 = Z.max 5 (failedLoginAttempts u)
    /\ isLocked u5 = true
    /\ (forall (other : Bcrypt.library) (password : string) (now : Z),
          login repository other svc (mkLoginRequest e password) now s5
          = (s5, Return (failure "Account is locked due to multiple failed attempts")))
    /\ (forall (admin : string) (t now : Z),
          exists resp s7,
            login repository bcrypt svc (mkLoginRequest e correct) now
              (fst (update (id u5) (unlock admin t u5) s5))
            = (s7, Return (success resp))
            /\ failedLoginAttempts (user resp) = 0
            /\ List.find (has_email e) s7 = Some (user resp))
    /\ (forall (request : LoginRequest) (now : Z) (s1 s2 : list User)
               (r : Result LoginResponse),
          login repository bcrypt svc request now s1 = (s2, Return r) ->
          isSuccess r = true ->
          exists resp,
            r = success resp
            /\ failedLoginAttempts (user resp) = 0
            /\ List.find (has_email (lr_email request)) s2 = Some (user resp)).
Proof.
  intros Hk1 Hk2 Hf Ha Hv Hc Hlen Hw Hcorrect before.
  destruct (five_wrong_lock e attempts s u Hf Ha Hv Hc Hlen Hw) as
    (s5 & u5 & Hrun & Hf5 & Hid & Hph & Ha5 & Hv5 & Hc5).
  fold before in Hrun. change lockoutThreshold with 5 in Hc5.
  assert (Hlocked : isLocked u5 = true).
  { unfold isLocked, lockoutThreshold. rewrite Hc5. lia. }
  destruct (find_email_inv e s5 u5 Hf5) as [He5 Hex5].
  exists s5, u5.
  split; [exact Hrun|]. split.
  { intros Hzero. rewrite Hrun. f_equal.
    assert (Hb : before = List.length attempts).
    { unfold before, lockoutThreshold. rewrite Hzero, Hlen. reflexivity. }
    rewrite Hb, firstn_all, skipn_all. apply app_nil_r. }
  split; [exact Hf5|]. split; [exact Hc5|]. split; [exact Hlocked|].
  split; [|split].
  - intros other password now.
    apply (login_locked other svc Hready e password now s5 u5 Hf5 Hlocked).
  - intros admin t now. rewrite update_present by exact Hex5. cbn [fst].
    set (u6 := unlock admin t u5).
    assert (Hf6 : List.find (has_email e) (replace (id u5) u6 s5) = Some u6)
      by (apply find_email_replace; auto).
    assert (Hm6 : loginRefusal u6 = None).
    { apply eligible; auto. unfold lockoutThreshold. simpl. lia. }
    assert (Hc6 : Bcrypt.compare bcrypt correct (passwordHash u6) = true).
    { change (passwordHash u6) with (passwordHash u5). now rewrite Hph. }
    rewrite (login_right bcrypt svc Hready e correct now _ u6 Hf6 Hm6 Hc6).
    unfold generateAccessToken, generateRefreshToken.
    rewrite !sign_with_secret by assumption.
    eexists _, _. split; [reflexivity|]. split; [reflexivity|].
    apply find_email_replace; [exact Hf6|]. exact He5.
  - intros request now s1 s2 r Hl Hs.
    destruct (login_success_inv bcrypt svc Hready request now s1 s2 r Hl Hs)
      as (u0 & a & b & Hf0 & Hm0 & -> & _ & _ & ->).
    eexists. split; [reflexivity|]. split; [reflexivity|].
    apply find_email_replace; [exact Hf0|].
    exact (proj1 (find_email_inv _ s1 u0 Hf0)).
Qed.

End Memory.

Lemma five_failures_lock_witness :
  exists s5 u5,
    logins repository Fixtures.bcrypt Fixtures.ready
      (List.map (attempt "asha@school.in") Fixtures.five_wrong) [Fixtures.asha_warned]
    = (s5,
       [Return authentication_failed; Return authentication_failed;
        Return (failure "Account is locked due to multiple failed attempts");
        Return (failure "Account is locked due to multiple failed attempts");
        Return (failure "Account is locked due to multiple failed attempts")])
    /\ List.find (has_email "asha@school.in") s5 = Some u5
    /\ isLocked u5 = true.
Proof.
  destruct (five_failures_lock Fixtures.bcrypt Fixtures.ready eq_refl
              [Fixtures.asha_warned] Fixtures.asha_warned "asha@school.in" "Abcdef12"
              Fixtures.five_wrong eq_refl eq_refl eq_refl eq_refl eq_refl
              ltac:(simpl; lia) eq_refl eq_refl eq_refl)
    as (s5 & u5 & Hrun & _ & Hf & _ & Hl & _).
  exists s5, u5. repeat split; assumption.
Defined.

(** An inactive account and an account that is not verified: five login
    calls in a row fail, and the account is not locked; its record has
    not changed. *)
Lemma inactive_account_never_locks :
  (logins repository Fixtures.bcrypt Fixtures.ready
     (List.map (attempt "asha@school.in") Fixtures.five_wrong) [Fixtures.asha_inactive]
   = ([Fixtures.asha_inactive],
      List.map (fun _ => Return (failure "Account is inactive")) Fixtures.five_wrong)
   /\ isLocked Fixtures.asha_inactive = false
   /\ failedLoginAttempts Fixtures.asha_inactive = 0)
  /\ (logins repository Fixtures.bcrypt Fixtures.ready
        (List.map (attempt "asha@school.in") Fixtures.five_wrong)
        [Fixtures.asha_unverified]
      = ([Fixtures.asha_unverified],
         List.map (fun _ => Return (failure "Account is not verified")) Fixtures.five_wrong)
      /\ isLocked Fixtures.asha_unverified = false
      /\ failedLoginAttempts Fixtures.asha_unverified = 0).
Proof. repeat split. Qed.

End Lockout.

(** ** Access tokens *)

Module AccessToken.
Import AuthService LoginFacts MemoryStore MemoryFacts.

Ltac run_verify Hready :=
  unfold verifyToken; rewrite (ReadinessFacts.guarded_ready _ _ _ Hready);
  unfold try_catch, JS.bind, JS.lift, JS.ret.

(** A token past its expiry instant is turned down, whatever else is
    true of it. *)
Lemma expired_is_invalid {S} (repo : IUserRepository S) (svc : service)
    (tok : Jwt.token) (x t : Z) (st : S) :
  BaseService.isReady (base svc) = true ->
  Jwt.expiry tok = Some x -> x <= t ->
  verifyToken repo svc tok t st = (st, Return (failure "Invalid token")).
Proof.
  intros Hready Hx Hle. run_verify Hready.
  destruct tok as [text|payload key]; [discriminate|].
  injection Hx as <-. unfold Jwt.verify.
  destruct (truthy (jwtSecret svc)); [|reflexivity]. cbn [negb].
  destruct (Jwt.same_key key (jwtSecret svc)); [|reflexivity]. cbn [negb].
  apply Z.leb_le in Hle. rewrite Hle. reflexivity.
Qed.

(** The token [generateAccessToken] signs, when it signs one. *)
Lemma generated (svc : service) (u : User) (now : Z) (a : Jwt.token) :
  generateAccessToken svc u now = Return a ->
  truthy (jwtSecret svc) = true
  /\ a = Jwt.Signed (Jwt.mkPayload (id u) (email u) (role u) (schoolId u) now
                       (now + accessTokenExpiry)) (jwtSecret svc).
Proof.
  unfold generateAccessToken, Jwt.sign.
  destruct (truthy (jwtSecret svc)); [|discriminate].
  cbn [negb Jwt.c_userId Jwt.c_email Jwt.c_role Jwt.c_schoolId].
  intros H. injection H as <-. split; reflexivity.
Qed.

(** C3, over the in-memory store.  When [login] succeeds at instant
    [now], its access token expires at [now] plus 15 minutes; presented
    to [verifyToken] before that instant it is accepted, and the result
    carries the user as the store now holds it, which is the user of the
    login response, with its id.  Any access token presented at or after
    its expiry instant is turned down with "Invalid token". *)
Theorem access_token_round_trip {S} (bcrypt : Bcrypt.library) (svc : service)
    (request : LoginRequest) (now t : Z) (s s' : list User)
    (r : Result LoginResponse)
    (repo' : IUserRepository S) (svc' : service) (tok : Jwt.token) (x t' : Z) (st : S) :
  BaseService.isReady (base svc) = true ->
  login repository bcrypt svc request now s = (s', Return r) ->
  isSuccess r = true ->
  t < now + accessTokenExpiry ->
  BaseService.isReady (base svc') = true ->
  Jwt.expiry tok = Some x -> x <= t' ->
  (exists resp,
     r = success resp
     /\ Jwt.expiry (accessToken resp) = Some (now + accessTokenExpiry)
     /\ List.find (has_id (id (user resp))) s' = Some (user resp)
     /\ verifyToken repository svc (accessToken resp) t s'
        = (s', Return (success (user resp))))
  /\ verifyToken repo' svc' tok t' st = (st, Return (failure "Invalid token")).
Proof.
  intros Hready Hl Hs Ht Hready' Hx Hle.
  split; [|now apply (expired_is_invalid repo' svc' tok x t' st)].
  destruct (login_success_inv bcrypt svc Hready request now s s' r Hl Hs)
    as (u & a & b & Hf & Hm & -> & Ha & _ & ->).
  destruct (generated svc _ now a Ha) as [Hk ->].
  destruct (find_email_inv _ s u Hf) as [_ Hex].
  set (u' := recordSuccessfulLogin now u) in *.
  assert (Hfind : List.find (has_id (id u')) (replace (id u) u' s) = Some u')
    by (apply (find_id_replace (id u) s u' Hex); reflexivity).
  eexists. split; [reflexivity|]. cbn [user accessToken Jwt.expiry Jwt.exp].
  split; [reflexivity|]. split; [exact Hfind|].
  run_verify Hready. unfold Jwt.verify. rewrite Hk, JwtFacts.same_key_refl.
  cbn [negb Jwt.exp].
  apply Z.leb_gt in Ht. rewrite Ht.
  cbn [Jwt.userId Repository.findById repository]. unfold MemoryStore.findById.
  rewrite Hfind.
  cbn [isFailure success _isSuccess negb data _data].
  change (isActive u') with (isActive u). rewrite (not_refused_active u Hm).
  reflexivity.
Qed.

Lemma access_token_round_trip_witness :
  (exists resp,
     snd (login repository Fixtures.bcrypt Fixtures.ready
            (mkLoginRequest "asha@school.in" "Abcdef12") 100 [Fixtures.asha])
     = Return (success resp)
     /\ verifyToken repository Fixtures.ready (accessToken resp) 999
          [recordSuccessfulLogin 100 Fixtures.asha]
        = ([recordSuccessfulLogin 100 Fixtures.asha], Return (success (user resp))))
  /\ verifyToken repository Fixtures.ready
       (Jwt.Signed (Jwt.mkPayload "u-1" "asha@school.in" "TEACHER" (Some "s-9") 100 1000)
          "access-secret") 1000 [recordSuccessfulLogin 100 Fixtures.asha]
     = ([recordSuccessfulLogin 100 Fixtures.asha], Return (failure "Invalid token")).
Proof.
  destruct (access_token_round_trip Fixtures.bcrypt Fixtures.ready
              (mkLoginRequest "asha@school.in" "Abcdef12") 100 999
              [Fixtures.asha] [recordSuccessfulLogin 100 Fixtures.asha]
              (success (mkLoginResponse (recordSuccessfulLogin 100 Fixtures.asha)
                 (Jwt.Signed (Jwt.mkPayload "u-1" "asha@school.in" "TEACHER" (Some "s-9")
                                100 1000) "access-secret")
                 (Jwt.Signed (Jwt.mkPayload "u-1" "asha@school.in" "TEACHER" None
                                100 604900) "refresh-secret")
                 900))
              repository Fixtures.ready
              (Jwt.Signed (Jwt.mkPayload "u-1" "asha@school.in" "TEACHER" (Some "s-9")
                             100 1000) "access-secret")
              1000 1000 [recordSuccessfulLogin 100 Fixtures.asha]
              eq_refl eq_refl eq_refl eq_refl eq_refl eq_refl)
    as [(resp & Hr & _ & _ & Hv) Hexpired].
  - discriminate.
  - split; [|exact Hexpired].
    exists resp. split; [|exact Hv]. rewrite <- Hr. reflexivity.
Defined.

End AccessToken.

(** ** [register] *)

Module Registration.
Import AuthService PasswordFacts.
Local Open Scope list_scope.

Lemma error_of_failure {T} (r : Result T) :
  isFailure r = true -> error r = Return (_error r).
Proof. unfold isFailure, error. now destruct (_isSuccess r). Qed.

(** The role check puts its message on the list exactly when the role,
    in upper case, is not one of the recognized four. *)
Lemma role_error_listed (request : RegisterRequest) (errors : list string) :
  registrationErrors request = Return errors ->
  JSString.includes recognizedRoles (JSString.toUpperCase (rr_role request)) = false ->
  In role_message errors.
Proof.
  unfold registrationErrors. intros H Hno. rewrite Hno, orb_true_r in H.
  destruct (negb (truthy (rr_password request))).
  - injection H as <-. repeat first [left; reflexivity | right | rewrite in_app_iff].
  - destruct (isFailure (validatePassword (rr_password request))) eqn:Hf.
    + rewrite (error_of_failure _ Hf) in H. injection H as <-.
      repeat first [left; reflexivity | right | rewrite in_app_iff].
    + injection H as <-. repeat first [left; reflexivity | right | rewrite in_app_iff].
Qed.

Lemma registrationErrors_returns (request : RegisterRequest) :
  exists errors, registrationErrors request = Return errors.
Proof.
  unfold registrationErrors.
  destruct (negb (truthy (rr_password request))); [eauto|].
  destruct (isFailure (validatePassword (rr_password request))) eqn:Hf; [|eauto].
  rewrite (error_of_failure _ Hf). eauto.
Qed.

(** A request that passes the validation has a recognized role. *)
Lemma valid_request_role (request : RegisterRequest) :
  validateRegistrationRequest request = Return (success true) ->
  JSString.includes recognizedRoles (JSString.toUpperCase (rr_role request)) = true.
Proof.
  intros Hv.
  destruct (JSString.includes recognizedRoles _) eqn:Hi; [reflexivity|].
  unfold validateRegistrationRequest in Hv.
  destruct (registrationErrors_returns request) as [errors He].
  pose proof (role_error_listed request errors He Hi) as Hin.
  rewrite He in Hv. destruct errors as [|x errors]; [contradiction|]. discriminate.
Qed.

(** A recognized role has a case in the [switch]. *)
Lemma recognized_role_builds (request : RegisterRequest) (h uuid : string) :
  JSString.includes recognizedRoles (JSString.toUpperCase (rr_role request)) = true ->
  exists u,
    userForRole request h uuid = Some u
    /\ class_ u
       = (if String.eqb (JSString.toUpperCase (rr_role request)) "TEACHER"
          then TeacherUser
          else if String.eqb (JSString.toUpperCase (rr_role request)) "STUDENT"
          then StudentUser else AdminUser)
    /\ role u = role_of (class_ u).
Proof.
  unfold userForRole, JSString.includes, recognizedRoles. cbn [existsb].
  destruct (String.eqb _ "TEACHER"); [eauto|].
  destruct (String.eqb _ "STUDENT"); [eauto|].
  destruct (String.eqb _ "ADMIN"); [eauto|].
  destruct (String.eqb _ "SCHOOL_ADMIN"); [eauto|discriminate].
Qed.

(** With the other fields valid, the only error left is the role's. *)
Lemma errors_with_valid_fields (request : RegisterRequest) :
  truthy (rr_email request) && isValidEmail (rr_email request) = true ->
  Policy.minimum (rr_password request) = true ->
  truthy (rr_firstName request)
  && (2 <=? JSString.length (JSString.trim (rr_firstName request))) = true ->
  truthy (rr_lastName request)
  && (2 <=? JSString.length (JSString.trim (rr_lastName request))) = true ->
  registrationErrors request
  = Return (if JSString.includes recognizedRoles (JSString.toUpperCase (rr_role request))
            then [] else [role_message]).
Proof.
  intros [He1 He2]%andb_true_iff Hp [Hf1 Hf2]%andb_true_iff [Hl1 Hl2]%andb_true_iff.
  unfold registrationErrors.
  rewrite (PasswordPolicy.minimum_truthy _ Hp), validatePassword_minimum, Hp.
  rewrite He1, He2, Hf1, Hl1.
  rewrite (Z.ltb_antisym 2), Hf2, (Z.ltb_antisym 2), Hl2.
  cbn [negb orb isFailure success _isSuccess app].
  destruct (JSString.includes recognizedRoles _) eqn:Hi.
  - destruct (rr_role request); [discriminate|reflexivity].
  - now rewrite orb_true_r.
Qed.

Section Paths.
Context {S : Type} (repo : IUserRepository S) (bcrypt : Bcrypt.library).
Context (svc : service) (Hready : BaseService.isReady (base svc) = true).

(** What [register] does with a request that passed the validation. *)
Lemma register_valid (request : RegisterRequest) (uuid : string) (st st1 : S)
    (r : Result (option User)) :
  validateRegistrationRequest request = Return (success true) ->
  findByEmail repo (rr_email request) st = (st1, Return r) ->
  register repo bcrypt svc request uuid st
  = match found_user r with
    | Some _ => (st1, Return (failure "User with this email already exists"))
    | None =>
        match userForRole request
                (Bcrypt.hash bcrypt (rr_password request) saltRounds) uuid with
        | None => (st1, Return (failure "Invalid user role"))
        | Some u =>
            match create repo u st1 with
            | (st2, Return saved) =>
                (st2, Return (if isFailure saved
                              then failure "Failed to create user account"
                              else mkResult true (_data saved) None None))
            | (st2, Throw _) => (st2, Return (failure "Failed to create user account"))
            end
        end
    end.
Proof.
  intros Hv Hf. unfold register.
  rewrite (ReadinessFacts.guarded_ready _ _ _ Hready).
  unfold try_catch, JS.bind, JS.lift, JS.ret. rewrite Hv.
  cbn [isFailure success _isSuccess negb]. rewrite Hf.
  unfold found_user, isSuccess, data.
  destruct (_isSuccess r); cbn [negb].
  - destruct (_data r) as [[u0|]|]; try reflexivity;
      destruct (userForRole request _ uuid) as [u|]; try reflexivity;
      destruct (create repo u st1) as [st2 [saved|e]]; try reflexivity;
      unfold isFailure; destruct (_isSuccess saved); reflexivity.
  - destruct (userForRole request _ uuid) as [u|]; try reflexivity;
      destruct (create repo u st1) as [st2 [saved|e]]; try reflexivity;
      unfold isFailure; destruct (_isSuccess saved); reflexivity.
Qed.

End Paths.

End Registration.

Module Roles.
Import AuthService Registration.
Local Open Scope list_scope.

(** C4, as the code has it.  [register] goes by the role in upper case.
    If it is one of TEACHER, STUDENT, ADMIN, SCHOOL_ADMIN, then with the
    other fields valid and the email not found by the pre-check the
    request passes the validation and [create] is called with a new
    TeacherUser, StudentUser or AdminUser (ADMIN and SCHOOL_ADMIN both
    give an AdminUser); the result is the saved user, or the creation
    failure when the store turns the write down.  For any other role,
    whatever the other fields are, [register] returns a validation
    failure whose messages include "Valid role is required", and the
    store is not consulted. *)
Theorem role_decides_registration {S} (repo : IUserRepository S)
    (bcrypt : Bcrypt.library) (svc : service) (request : RegisterRequest)
    (uuid : string) (st : S) :
  BaseService.isReady (base svc) = true ->
  let role := JSString.toUpperCase (rr_role request) in
  if JSString.includes recognizedRoles role
  then forall (st1 : S) (r : Result (option User)),
         truthy (rr_email request) && isValidEmail (rr_email request) = true ->
         Policy.minimum (rr_password request) = true ->
         truthy (rr_firstName request)
         && (2 <=? JSString.length (JSString.trim (rr_firstName request))) = true ->
         truthy (rr_lastName request)
         && (2 <=? JSString.length (JSString.trim (rr_lastName request))) = true ->
         findByEmail repo (rr_email request) st = (st1, Return r) ->
         found_user r = None ->
         exists u,
           userForRole request (Bcrypt.hash bcrypt (rr_password request) saltRounds) uuid
           = Some u
           /\ class_ u = (if String.eqb role "TEACHER" then TeacherUser
                          else if String.eqb role "STUDENT" then StudentUser
                          else AdminUser)
           /\ register repo bcrypt svc request uuid st
              = match create repo u st1 with
                | (st2, Return saved) =>
                    (st2, Return (if isFailure saved
                                  then failure "Failed to create user account"
                                  else mkResult true (_data saved) None None))
                | (st2, Throw _) => (st2, Return (failure "Failed to create user account"))
                end
  else exists errors,
         registrationErrors request = Return errors
         /\ In "Valid role is required" errors
         /\ register repo bcrypt svc request uuid st
            = (st, Return (failure (JSString.join ", " errors))).
Proof.
  intros Hready role.
  destruct (JSString.includes recognizedRoles role) eqn:Hi.
  - intros st1 r He Hp Hfn Hln Hf Hnone.
    pose proof (errors_with_valid_fields request He Hp Hfn Hln) as Herr.
    fold role in Herr. rewrite Hi in Herr.
    destruct (recognized_role_builds request
                (Bcrypt.hash bcrypt (rr_password request) saltRounds) uuid Hi)
      as (u & Hu & Hc & _).
    exists u. split; [exact Hu|]. split; [exact Hc|].
    rewrite (register_valid repo bcrypt svc Hready request uuid st st1 r); [|
      unfold validateRegistrationRequest; now rewrite Herr|exact Hf].
    now rewrite Hnone, Hu.
  - destruct (registrationErrors_returns request) as [errors He].
    pose proof (role_error_listed request errors He Hi) as Hin.
    exists errors. split; [exact He|]. split; [exact Hin|].
    apply PasswordFacts.register_rejects_invalid; [exact Hready|].
    unfold validateRegistrationRequest. rewrite He.
    destruct errors as [|x errors]; [contradiction|reflexivity].
Qed.

Lemma role_decides_registration_witness :
  (exists u,
     class_ u = AdminUser
     /\ register MemoryStore.repository Fixtures.bcrypt Fixtures.ready
          (Fixtures.registration "asha@school.in" "Abcdef12" "school_admin") "u-7" []
        = ([u], Return (success u)))
  /\ register MemoryStore.repository Fixtures.bcrypt Fixtures.ready
       (Fixtures.registration "asha@school.in" "Abcdef12" "parent") "u-7" []
     = ([], Return (failure "Valid role is required")).
Proof.
  split.
  - destruct (role_decides_registration MemoryStore.repository Fixtures.bcrypt
                Fixtures.ready
                (Fixtures.registration "asha@school.in" "Abcdef12" "school_admin")
                "u-7" [] eq_refl [] (success None)
                eq_refl eq_refl eq_refl eq_refl eq_refl eq_refl)
      as (u & Hu & Hc & Hr).
    injection Hu as <-. eexists. split; [exact Hc|exact Hr].
  - destruct (role_decides_registration MemoryStore.repository Fixtures.bcrypt
                Fixtures.ready
                (Fixtures.registration "asha@school.in" "Abcdef12" "parent")
                "u-7" [] eq_refl)
      as (errors & He & _ & Hr).
    injection He as <-. exact Hr.
Defined.

(** PARENT and SUPPORT are turned down by the validation, and
    SCHOOL_ADMIN, which is not among the five roles of the data model,
    is registered. *)
Lemma parent_rejected_school_admin_accepted :
  register MemoryStore.repository Fixtures.bcrypt Fixtures.ready
    (Fixtures.registration "asha@school.in" "Abcdef12" "PARENT") "u-7" []
  = ([], Return (failure "Valid role is required"))
  /\ register MemoryStore.repository Fixtures.bcrypt Fixtures.ready
       (Fixtures.registration "asha@school.in" "Abcdef12" "SUPPORT") "u-7" []
     = ([], Return (failure "Valid role is required"))
  /\ exists u,
       register MemoryStore.repository Fixtures.bcrypt Fixtures.ready
         (Fixtures.registration "asha@school.in" "Abcdef12" "SCHOOL_ADMIN") "u-7" []
       = ([u], Return (success u))
       /\ class_ u = AdminUser.
Proof.
  split; [reflexivity|]. split; [reflexivity|].
  eexists. split; reflexivity.
Qed.

End Roles.

Module Conflict.
Import AuthService Registration.
Local Open Scope list_scope.

(** C5, as the code has it.  For a request that passes the validation:
    when the pre-check finds a user under the email, [register] returns
    the conflict failure "User with this email already exists"; when
    the pre-check finds none and the store's [create] ends in a failure,
    a uniqueness violation included, or throws, [register] returns the
    generic failure "Failed to create user account". *)
Theorem duplicate_email {S} (repo : IUserRepository S) (bcrypt : Bcrypt.library)
    (svc : service) (request : RegisterRequest) (uuid : string) (st st1 : S)
    (r : Result (option User)) :
  BaseService.isReady (base svc) = true ->
  validateRegistrationRequest request = Return (success true) ->
  findByEmail repo (rr_email request) st = (st1, Return r) ->
  match found_user r with
  | Some _ =>
      register repo bcrypt svc request uuid st
      = (st1, Return (failure "User with this email already exists"))
  | None =>
      exists u,
        userForRole request (Bcrypt.hash bcrypt (rr_password request) saltRounds) uuid
        = Some u
        /\ match create repo u st1 with
           | (st2, Return saved) =>
               if isFailure saved
               then register repo bcrypt svc request uuid st
                    = (st2, Return (failure "Failed to create user account"))
               else register repo bcrypt svc request uuid st
                    = (st2, Return (mkResult true (_data saved) None None))
           | (st2, Throw _) =>
               register repo bcrypt svc request uuid st
               = (st2, Return (failure "Failed to create user account"))
           end
  end.
Proof.
  intros Hready Hv Hf.
  rewrite (register_valid repo bcrypt svc Hready request uuid st st1 r Hv Hf).
  destruct (found_user r); [reflexivity|].
  destruct (recognized_role_builds request
              (Bcrypt.hash bcrypt (rr_password request) saltRounds) uuid
              (valid_request_role request Hv)) as (u & Hu & _).
  exists u. split; [exact Hu|]. rewrite Hu.
  destruct (create repo u st1) as [st2 [saved|e]]; [|reflexivity].
  destruct (isFailure saved); reflexivity.
Qed.

Lemma duplicate_email_witness :
  register MemoryStore.repository Fixtures.bcrypt Fixtures.ready
    (Fixtures.registration "asha@school.in" "Abcdef12" "teacher") "u-7" [Fixtures.asha]
  = ([Fixtures.asha], Return (failure "User with this email already exists")).
Proof.
  exact (duplicate_email MemoryStore.repository Fixtures.bcrypt Fixtures.ready
           (Fixtures.registration "asha@school.in" "Abcdef12" "teacher") "u-7"
           [Fixtures.asha] [Fixtures.asha] (success (Some Fixtures.asha))
           eq_refl eq_refl eq_refl).
Defined.

(** Two registrations on a registered email that do not end in the
    conflict failure.  One fails the validation first.  The other
    differs from the stored email in letter case only: the exact lookup
    of the pre-check misses it, the unique index of the store turns the
    write down, and the caller gets the generic creation failure. *)
Lemma registered_email_without_conflict_failure :
  register MemoryStore.repository Fixtures.bcrypt Fixtures.ready
    (Fixtures.registration "asha@school.in" "abc" "teacher") "u-7" [Fixtures.asha]
  = ([Fixtures.asha], Return (failure "Password must be at least 8 characters long"))
  /\ (exists u,
        userForRole (Fixtures.registration "Asha@school.in" "Abcdef12" "teacher")
          (Bcrypt.hash Fixtures.bcrypt "Abcdef12" saltRounds) "u-7" = Some u
        /\ MemoryStore.create_ci u [Fixtures.asha]
           = ([Fixtures.asha],
              Return (failure "duplicate key value violates unique constraint")))
  /\ register MemoryStore.repository_ci Fixtures.bcrypt Fixtures.ready
       (Fixtures.registration "Asha@school.in" "Abcdef12" "teacher") "u-7" [Fixtures.asha]
     = ([Fixtures.asha], Return (failure "Failed to create user account"))
  /\ (failure "Failed to create user account" : Result User)
     <> failure "User with this email already exists".
Proof.
  split; [reflexivity|]. split; [eexists; split; reflexivity|].
  split; [reflexivity|]. discriminate.
Qed.

End Conflict.

(** * Further properties *)

(** ** The matcher against the reading of regular expressions *)

Module RegexFacts.
Import JSString Regex.

(** Appending computes on its first argument. *)
Ltac app := unfold String.append in *; fold String.append in *.

Lemma append_nil_r (s : string) : (s ++ "")%string = s.
Proof. induction s as [|c s IH]; [reflexivity|exact (f_equal (String c) IH)]. Qed.

Lemma append_assoc (a b c : string) : ((a ++ b) ++ c)%string = (a ++ (b ++ c))%string.
Proof. induction a as [|x a IH]; [reflexivity|exact (f_equal (String x) IH)]. Qed.

Lemma append_eq_nil (a b : string) : (a ++ b)%string = "" -> a = "" /\ b = "".
Proof. destruct a; [app; auto|app; discriminate]. Qed.

Lemma chars_append (a b : string) : chars (a ++ b) = (chars a ++ chars b)%list.
Proof. induction a as [|x a IH]; [reflexivity|exact (f_equal (cons x) IH)]. Qed.

Lemma length_append (a b : string) :
  String.length (a ++ b) = (String.length a + String.length b)%nat.
Proof. induction a as [|x a IH]; [reflexivity|exact (f_equal S IH)]. Qed.

Lemma denotes_epsilon_inv (s : string) : denotes Epsilon s -> s = "".
Proof. now inversion 1. Qed.

Lemma denotes_never_inv (s : string) : denotes Never s -> False.
Proof. inversion 1. Qed.

Lemma denotes_class_inv (p : ascii -> bool) (s : string) :
  denotes (Class p) s -> exists c, s = String c "" /\ p c = true.
Proof. inversion 1; subst; eauto. Qed.

Lemma denotes_seq_inv (r1 r2 : regex) (s : string) :
  denotes (Seq r1 r2) s ->
  exists s1 s2, s = (s1 ++ s2)%string /\ denotes r1 s1 /\ denotes r2 s2.
Proof. inversion 1; subst; eauto. Qed.

Lemma denotes_star_inv (r : regex) (s : string) :
  denotes (Star r) s ->
  s = "" \/ exists s1 s2, s = (s1 ++ s2)%string /\ denotes r s1 /\ denotes (Star r) s2.
Proof. inversion 1; subst; [now left|right; eauto]. Qed.

Lemma nullable_denotes (r : regex) : nullable r = true <-> denotes r "".
Proof.
  induction r as [| |p|r1 IH1 r2 IH2|r IH]; simpl.
  - split; [discriminate|intros H; destruct (denotes_never_inv _ H)].
  - split; [constructor|reflexivity].
  - split; [discriminate|].
    intros H. apply denotes_class_inv in H as (c & Heq & _). discriminate.
  - rewrite andb_true_iff, IH1, IH2. split.
    + intros [H1 H2]. change "" with ("" ++ "")%string. now constructor.
    + intros H. apply denotes_seq_inv in H as (s1 & s2 & Heq & H1 & H2).
      symmetry in Heq. apply append_eq_nil in Heq as [-> ->]. auto.
  - split; [constructor|reflexivity].
Qed.

(** A string that starts with [c] is matched by [r] when the rest is
    matched by one of the derivatives. *)
Lemma deriv_sound (c : ascii) (r : regex) :
  forall (d : regex) (s : string),
    In d (deriv c r) -> denotes d s -> denotes r (String c s).
Proof.
  induction r as [| |p|r1 IH1 r2 IH2|r IH]; simpl; intros d s Hin Hd.
  - contradiction.
  - contradiction.
  - destruct (p c) eqn:Hp; [|contradiction].
    destruct Hin as [<-|[]]. apply denotes_epsilon_inv in Hd as ->. now constructor.
  - apply in_app_iff in Hin as [Hin|Hin].
    + apply in_map_iff in Hin as (d1 & <- & Hin1).
      apply denotes_seq_inv in Hd as (s1 & s2 & -> & H1 & H2).
      change (String c (s1 ++ s2)) with (String c s1 ++ s2)%string.
      constructor; [now apply (IH1 d1)|assumption].
    + destruct (nullable r1) eqn:Hn; [|contradiction].
      change (String c s) with ("" ++ String c s)%string.
      constructor; [now apply nullable_denotes|now apply (IH2 d)].
  - apply in_map_iff in Hin as (d1 & <- & Hin1).
    apply denotes_seq_inv in Hd as (s1 & s2 & -> & H1 & H2).
    change (String c (s1 ++ s2)) with (String c s1 ++ s2)%string.
    apply denotes_star_more; [now apply (IH d1)|assumption].
Qed.

Lemma deriv_complete (r : regex) (s0 : string) :
  denotes r s0 ->
  forall (c : ascii) (s : string), s0 = String c s ->
    exists d, In d (deriv c r) /\ denotes d s.
Proof.
  induction 1 as [|p c0 Hp|r1 r2 s1 s2 H1 IH1 H2 IH2|r|r s1 s2 H1 IH1 H2 IH2];
    intros c s Heq.
  - discriminate.
  - injection Heq as -> <-. exists Epsilon. simpl. rewrite Hp.
    split; [now left|constructor].
  - destruct s1 as [|c1 s1].
    + app. destruct (IH2 c s Heq) as (d & Hin & Hd).
      exists d. split; [|assumption]. simpl. apply in_app_iff. right.
      apply nullable_denotes in H1. now rewrite H1.
    + app. injection Heq as -> <-.
      destruct (IH1 c s1 eq_refl) as (d & Hin & Hd).
      exists (Seq d r2). split; [|now constructor].
      simpl. apply in_app_iff. left. apply in_map_iff. eauto.
  - discriminate.
  - destruct s1 as [|c1 s1].
    + app. now apply IH2.
    + app. injection Heq as -> <-.
      destruct (IH1 c s1 eq_refl) as (d & Hin & Hd).
      exists (Seq d (Star r)). split; [|now constructor].
      simpl. apply in_map_iff. eauto.
Qed.

(** The matcher decides the reading: a string is accepted from a list of
    alternatives exactly when one of them stands for it. *)
Lemma matches_any_denotes (s : string) :
  forall (rs : list regex),
    matches_any rs s = true <-> exists r, In r rs /\ denotes r s.
Proof.
  induction s as [|c s IH]; intros rs; simpl.
  - rewrite existsb_exists. split; intros (r & Hin & H); exists r;
      (split; [assumption|now apply nullable_denotes]).
  - rewrite IH. split.
    + intros (d & Hin & Hd). apply in_flat_map in Hin as (r & Hr & Hin).
      exists r. split; [assumption|now apply (deriv_sound c r d)].
    + intros (r & Hr & Hd).
      destruct (deriv_complete r _ Hd c s eq_refl) as (d & Hin & Hd').
      exists d. split; [|assumption]. apply in_flat_map. eauto.
Qed.

Lemma test_anchored_denotes (r : regex) (s : string) :
  test_anchored r s = true <-> denotes r s.
Proof.
  unfold test_anchored. rewrite matches_any_denotes. split.
  - intros (r' & [<-|[]] & H). exact H.
  - intros H. exists r. split; [now left|exact H].
Qed.

Lemma denotes_lit (c : ascii) (s : string) :
  denotes (Lit c) s <-> s = String c "".
Proof.
  unfold Lit. split.
  - intros H. apply denotes_class_inv in H as (c' & -> & Hc).
    apply Ascii.eqb_eq in Hc. now subst.
  - intros ->. constructor. apply Ascii.eqb_refl.
Qed.

Lemma denotes_text (t s : string) : denotes (text t) s <-> s = t.
Proof.
  revert s. induction t as [|c t IH]; intros s; simpl.
  - split; [apply denotes_epsilon_inv|intros ->; constructor].
  - split.
    + intros H. apply denotes_seq_inv in H as (s1 & s2 & -> & H1 & H2).
      apply denotes_lit in H1 as ->. apply IH in H2 as ->. reflexivity.
    + intros ->. change (String c t) with (String c "" ++ t)%string.
      constructor; [now apply denotes_lit|now apply IH].
Qed.

Lemma denotes_star_class (p : ascii -> bool) (s : string) :
  denotes (Star (Class p)) s <-> all_in p s = true.
Proof.
  unfold all_in. split.
  - intros H. remember (Star (Class p)) as r eqn:Hr.
    induction H as [| | | |r0 s1 s2 H1 _ H2 IH2]; try discriminate; [reflexivity|].
    injection Hr as ->. apply denotes_class_inv in H1 as (c & -> & Hc).
    app. simpl. rewrite Hc. now apply IH2.
  - induction s as [|c s IH]; simpl; [constructor|].
    intros [Hc Hs]%andb_true_iff.
    change (String c s) with (String c "" ++ s)%string.
    apply denotes_star_more; [now constructor|now apply IH].
Qed.

Lemma denotes_plus_class (p : ascii -> bool) (s : string) :
  denotes (Plus (Class p)) s <-> s <> "" /\ all_in p s = true.
Proof.
  unfold Plus. split.
  - intros H. apply denotes_seq_inv in H as (s1 & s2 & -> & H1 & H2).
    apply denotes_class_inv in H1 as (c & -> & Hc).
    apply denotes_star_class in H2. app. split; [discriminate|].
    unfold all_in in *. simpl. now rewrite Hc.
  - intros [Hne Hall]. destruct s as [|c s]; [contradiction|].
    unfold all_in in Hall. simpl in Hall. apply andb_true_iff in Hall as [Hc Hs].
    change (String c s) with (String c "" ++ s)%string.
    constructor; [now constructor|now apply denotes_star_class].
Qed.

Lemma denotes_times_class (n : nat) (p : ascii -> bool) (s : string) :
  denotes (times n (Class p)) s <-> String.length s = n /\ all_in p s = true.
Proof.
  revert s. induction n as [|n IH]; intros s; simpl.
  - split.
    + intros ->%denotes_epsilon_inv. split; reflexivity.
    + intros [Hl _]. destruct s; [constructor|discriminate].
  - split.
    + intros H. apply denotes_seq_inv in H as (s1 & s2 & -> & H1 & H2).
      apply denotes_class_inv in H1 as (c & -> & Hc).
      apply IH in H2 as [Hl Hall]. app. unfold all_in in *. simpl.
      rewrite Hc, Hl. split; [reflexivity|exact Hall].
    + intros [Hl Hall]. destruct s as [|c s]; [discriminate|].
      unfold all_in in Hall. simpl in Hall, Hl.
      apply andb_true_iff in Hall as [Hc Hs]. injection Hl as Hl.
      change (String c s) with (String c "" ++ s)%string.
      constructor; [now constructor|]. apply IH. now split.
Qed.

Lemma deriv_case_blind (c : ascii) (r : regex) :
  case_blind r ->
  deriv (upper_char c) r = deriv c r /\ Forall case_blind (deriv c r).
Proof.
  induction r as [| |p|r1 IH1 r2 IH2|r IH]; simpl; intros Hb.
  - split; [reflexivity|constructor].
  - split; [reflexivity|constructor].
  - rewrite Hb. split; [reflexivity|].
    destruct (p c); repeat constructor.
  - destruct Hb as [Hb1 Hb2].
    destruct (IH1 Hb1) as [E1 F1]. destruct (IH2 Hb2) as [E2 F2].
    rewrite E1, E2. split; [reflexivity|].
    apply List.Forall_app. split.
    + apply List.Forall_forall. intros d Hd. apply in_map_iff in Hd as (d1 & <- & Hd1).
      simpl. split; [|exact Hb2]. rewrite List.Forall_forall in F1. now apply F1.
    + destruct (nullable r1); [exact F2|constructor].
  - destruct (IH Hb) as [E F]. rewrite E. split; [reflexivity|].
    apply List.Forall_forall. intros d Hd. apply in_map_iff in Hd as (d1 & <- & Hd1).
    simpl. split; [|exact Hb]. rewrite List.Forall_forall in F. now apply F.
Qed.

Lemma flat_map_deriv_case_blind (c : ascii) (rs : list regex) :
  Forall case_blind rs ->
  flat_map (deriv (upper_char c)) rs = flat_map (deriv c) rs
  /\ Forall case_blind (flat_map (deriv c) rs).
Proof.
  induction 1 as [|r rs Hr Hrs IH]; simpl; [split; [reflexivity|constructor]|].
  destruct (deriv_case_blind c r Hr) as [E F]. destruct IH as [E' F'].
  rewrite E, E'. split; [reflexivity|]. apply List.Forall_app. now split.
Qed.

(** Under case-blind alternatives a string and its upper case fare
    alike. *)
Lemma matches_any_toUpperCase (s : string) :
  forall (rs : list regex),
    Forall case_blind rs -> matches_any rs (toUpperCase s) = matches_any rs s.
Proof.
  induction s as [|c s IH]; intros rs Hb; simpl; [reflexivity|].
  destruct (flat_map_deriv_case_blind c rs Hb) as [E F].
  rewrite E. now apply IH.
Qed.

Lemma same_but_case_toUpperCase (s : string) :
  forall t, same_but_case s t = true -> toUpperCase s = toUpperCase t.
Proof.
  induction s as [|c s IH]; intros [|d t] H; try discriminate; [reflexivity|].
  simpl in H. apply andb_true_iff in H as [Hc Hs].
  apply Ascii.eqb_eq in Hc. simpl. rewrite Hc. f_equal. now apply IH.
Qed.

(** Under case-blind alternatives two strings that differ only in the
    case of letters fare alike. *)
Lemma matches_any_same_but_case (rs : list regex) (s t : string) :
  Forall case_blind rs -> same_but_case s t = true ->
  matches_any rs s = matches_any rs t.
Proof.
  intros Hb Hs.
  rewrite <- (matches_any_toUpperCase s rs Hb), <- (matches_any_toUpperCase t rs Hb).
  now rewrite (same_but_case_toUpperCase s t Hs).
Qed.

Lemma all_in_append (p : ascii -> bool) (a b : string) :
  all_in p (a ++ b) = all_in p a && all_in p b.
Proof. unfold all_in. rewrite chars_append. apply forallb_app. Qed.

End RegexFacts.

(** ** The format checks *)

Module FormatFacts.
Import JSString Regex RegexFacts Formats.

Lemma not_space_at_spec (c : ascii) :
  AuthService.not_space_at c = true -> is_space c = false /\ c <> "@"%char.
Proof.
  unfold AuthService.not_space_at. rewrite negb_true_iff, orb_false_iff.
  intros [Hs Ha]. split; [exact Hs|]. intros ->. discriminate.
Qed.

Lemma free_of_at (s : string) :
  all_in AuthService.not_space_at s = true ->
  count_occ ascii_dec (chars s) "@"%char = 0%nat
  /\ all_in (fun c => negb (is_space c)) s = true.
Proof.
  unfold all_in. induction s as [|c s IH]; simpl; [auto|].
  intros [Hc Hs]%andb_true_iff. destruct (IH Hs) as [IH1 IH2].
  destruct (not_space_at_spec c Hc) as [Hsp Hat]. rewrite Hsp, IH2.
  destruct (ascii_dec c "@"); [contradiction|]. auto.
Qed.

(** X1.  [isValidEmail], in [AuthService] and in [ValidationUtils] alike,
    accepts exactly the strings of the form a@b.c in which a, b and c are
    not empty and hold neither white space nor an at sign.  An accepted
    address therefore has exactly one at sign and no white space. *)
Theorem email_shape (email : string) :
  AuthService.isValidEmail email = isValidEmail email
  /\ (isValidEmail email = true <->
      exists a b c,
        email = (a ++ "@" ++ b ++ "." ++ c)%string
        /\ a <> "" /\ b <> "" /\ c <> ""
        /\ all_in AuthService.not_space_at a = true
        /\ all_in AuthService.not_space_at b = true
        /\ all_in AuthService.not_space_at c = true)
  /\ (isValidEmail email = true ->
      count_occ ascii_dec (chars email) "@"%char = 1%nat
      /\ all_in (fun c => negb (is_space c)) email = true).
Proof.
  split; [reflexivity|].
  assert (Hshape : isValidEmail email = true <->
      exists a b c,
        email = (a ++ "@" ++ b ++ "." ++ c)%string
        /\ a <> "" /\ b <> "" /\ c <> ""
        /\ all_in AuthService.not_space_at a = true
        /\ all_in AuthService.not_space_at b = true
        /\ all_in AuthService.not_space_at c = true).
  { unfold isValidEmail. rewrite test_anchored_denotes.
    unfold AuthService.emailRegex. split.
    - intros H.
      apply denotes_seq_inv in H as (a & s1 & -> & Ha & H).
      apply denotes_seq_inv in H as (at_ & s2 & -> & Hat & H).
      apply denotes_seq_inv in H as (b & s3 & -> & Hb & H).
      apply denotes_seq_inv in H as (dot & c & -> & Hdot & Hc).
      apply denotes_lit in Hat as ->. apply denotes_lit in Hdot as ->.
      apply denotes_plus_class in Ha as [Ha1 Ha2].
      apply denotes_plus_class in Hb as [Hb1 Hb2].
      apply denotes_plus_class in Hc as [Hc1 Hc2].
      exists a, b, c. repeat split; assumption.
    - intros (a & b & c & -> & Ha1 & Hb1 & Hc1 & Ha2 & Hb2 & Hc2).
      constructor; [now apply denotes_plus_class|].
      constructor; [now apply denotes_lit|].
      constructor; [now apply denotes_plus_class|].
      constructor; [now apply denotes_lit|now apply denotes_plus_class]. }
  split; [exact Hshape|].
  intros H. apply Hshape in H as (a & b & c & -> & _ & _ & _ & Ha & Hb & Hc).
  destruct (free_of_at a Ha) as [Ha1 Ha2].
  destruct (free_of_at b Hb) as [Hb1 Hb2].
  destruct (free_of_at c Hc) as [Hc1 Hc2].
  split.
  - rewrite !chars_append, !count_occ_app, Ha1, Hb1, Hc1. reflexivity.
  - rewrite !all_in_append, Ha2, Hb2, Hc2. reflexivity.
Qed.

Lemma removeSpaces_append (a b : string) :
  removeSpaces (a ++ b) = (removeSpaces a ++ removeSpaces b)%string.
Proof.
  induction a as [|c a IH]; [reflexivity|]. app. simpl.
  destruct (is_space c); [exact IH|]. app. now rewrite IH.
Qed.

Lemma removeSpaces_spaces (w : string) :
  all_in is_space w = true -> removeSpaces w = "".
Proof.
  unfold all_in. induction w as [|c w IH]; simpl; [reflexivity|].
  intros [Hc Hw]%andb_true_iff. rewrite Hc. now apply IH.
Qed.

Lemma denotes_subscriber (s : string) :
  denotes subscriber s <->
  exists d rest,
    s = String d rest /\ is_six_to_nine d = true
    /\ String.length rest = 9%nat /\ all_in is_digit rest = true.
Proof.
  unfold subscriber. split.
  - intros H. apply denotes_seq_inv in H as (s1 & s2 & -> & H1 & H2).
    apply denotes_class_inv in H1 as (d & -> & Hd).
    apply denotes_times_class in H2 as [Hl Hall].
    exists d, s2. auto.
  - intros (d & rest & -> & Hd & Hl & Hall).
    change (String d rest) with (String d "" ++ rest)%string.
    constructor; [now constructor|]. apply denotes_times_class. now split.
Qed.

(** X2.  [isValidIndianPhone] looks at the number with all white space
    removed, and accepts it exactly when it is a digit from 6 to 9
    followed by nine digits, alone or behind the prefix 91 or +91; what is
    accepted has 10, 12 or 13 characters once the white space is gone,
    and white space anywhere inside a number does not change the
    verdict. *)
Theorem indian_phone_shape (phone : string) :
  (isValidIndianPhone phone = true <->
   exists prefix d rest,
     removeSpaces phone = (prefix ++ String d rest)%string
     /\ (prefix = "" \/ prefix = "91" \/ prefix = "+91")
     /\ is_six_to_nine d = true
     /\ String.length rest = 9%nat /\ all_in is_digit rest = true)
  /\ (isValidIndianPhone phone = true ->
      In (String.length (removeSpaces phone)) [10; 12; 13]%nat)
  /\ (forall a w b,
        phone = (a ++ w ++ b)%string -> all_in is_space w = true ->
        isValidIndianPhone phone = isValidIndianPhone (a ++ b)).
Proof.
  assert (Hshape : isValidIndianPhone phone = true <->
   exists prefix d rest,
     removeSpaces phone = (prefix ++ String d rest)%string
     /\ (prefix = "" \/ prefix = "91" \/ prefix = "+91")
     /\ is_six_to_nine d = true
     /\ String.length rest = 9%nat /\ all_in is_digit rest = true).
  { unfold isValidIndianPhone. rewrite matches_any_denotes. unfold phoneRegex. split.
    - intros (r & Hin & H). simpl in Hin.
      destruct Hin as [<-|[<-|[<-|[]]]].
      + apply denotes_seq_inv in H as (p & s & Heq & Hp & Hs).
        apply (denotes_text "+91") in Hp as ->.
        apply denotes_subscriber in Hs as (d & rest & -> & Hd & Hl & Hall).
        exists "+91", d, rest. auto 10.
      + apply denotes_seq_inv in H as (p & s & Heq & Hp & Hs).
        apply (denotes_text "91") in Hp as ->.
        apply denotes_subscriber in Hs as (d & rest & -> & Hd & Hl & Hall).
        exists "91", d, rest. auto 10.
      + apply denotes_subscriber in H as (d & rest & Heq & Hd & Hl & Hall).
        exists "", d, rest. auto 10.
    - intros (prefix & d & rest & Heq & Hp & Hd & Hl & Hall).
      assert (Hsub : denotes subscriber (String d rest))
        by (apply denotes_subscriber; eauto 10).
      rewrite Heq. destruct Hp as [-> | [-> | ->]].
      + exists subscriber. split; [simpl; auto|exact Hsub].
      + exists (Seq (text "91") subscriber). split; [simpl; auto|].
        constructor; [now apply (denotes_text "91")|exact Hsub].
      + exists (Seq (text "+91") subscriber). split; [simpl; auto|].
        constructor; [now apply (denotes_text "+91")|exact Hsub]. }
  split; [exact Hshape|]. split.
  - intros H. apply Hshape in H as (prefix & d & rest & -> & Hp & _ & Hl & _).
    rewrite length_append. simpl. rewrite Hl.
    destruct Hp as [-> | [-> | ->]]; simpl; auto.
  - intros a w b -> Hw. unfold isValidIndianPhone.
    now rewrite !removeSpaces_append, (removeSpaces_spaces w Hw).
Qed.

(** X3.  [isAlphanumeric] accepts exactly the strings that are not empty
    and consist of the letters a to z, A to Z and the digits. *)
Theorem alphanumeric_shape (str : string) :
  isAlphanumeric str = (negb (String.eqb str "") && all_in is_alphanumeric str).
Proof.
  apply eq_true_iff_eq. unfold isAlphanumeric.
  rewrite test_anchored_denotes, denotes_plus_class, andb_true_iff, negb_true_iff.
  split; intros [H1 H2]; (split; [|exact H2]).
  - now apply String.eqb_neq.
  - now apply String.eqb_neq.
Qed.

Lemma uuidRegex_case_blind : case_blind uuidRegex.
Proof.
  unfold uuidRegex, Lit. simpl.
  repeat split;
    intros c; destruct c as [[] [] [] [] [] [] [] []]; reflexivity.
Qed.

(** X4.  [isValidUUID] accepts exactly the strings made of five groups of
    8, 4, 4, 4 and 12 hexadecimal digits joined by hyphens, in which the
    third group starts with a digit from 1 to 5 and the fourth with 8, 9,
    a or b; letters count in either case.  An accepted string has 36
    characters, and two strings that differ only in the case of letters
    from a to z get the same verdict. *)
Theorem uuid_shape (uuid : string) :
  (isValidUUID uuid = true <->
   exists g1 g2 v g3 y g4 g5,
     uuid = (g1 ++ "-" ++ g2 ++ "-" ++ String v g3 ++ "-" ++ String y g4 ++ "-" ++ g5)%string
     /\ String.length g1 = 8%nat /\ all_in is_hex g1 = true
     /\ String.length g2 = 4%nat /\ all_in is_hex g2 = true
     /\ is_version v = true
     /\ String.length g3 = 3%nat /\ all_in is_hex g3 = true
     /\ is_variant y = true
     /\ String.length g4 = 3%nat /\ all_in is_hex g4 = true
     /\ String.length g5 = 12%nat /\ all_in is_hex g5 = true)
  /\ (isValidUUID uuid = true -> String.length uuid = 36%nat)
  /\ (forall other, same_but_case uuid other = true ->
        isValidUUID other = isValidUUID uuid).
Proof.
  assert (Hshape : isValidUUID uuid = true <->
   exists g1 g2 v g3 y g4 g5,
     uuid = (g1 ++ "-" ++ g2 ++ "-" ++ String v g3 ++ "-" ++ String y g4 ++ "-" ++ g5)%string
     /\ String.length g1 = 8%nat /\ all_in is_hex g1 = true
     /\ String.length g2 = 4%nat /\ all_in is_hex g2 = true
     /\ is_version v = true
     /\ String.length g3 = 3%nat /\ all_in is_hex g3 = true
     /\ is_variant y = true
     /\ String.length g4 = 3%nat /\ all_in is_hex g4 = true
     /\ String.length g5 = 12%nat /\ all_in is_hex g5 = true).
  { unfold isValidUUID. rewrite test_anchored_denotes. unfold uuidRegex. split.
    - intros H.
      apply denotes_seq_inv in H as (g1 & s & -> & H1 & H).
      apply denotes_seq_inv in H as (h1 & s' & -> & Hh1 & H).
      apply denotes_seq_inv in H as (g2 & s & -> & H2 & H).
      apply denotes_seq_inv in H as (h2 & s' & -> & Hh2 & H).
      apply denotes_seq_inv in H as (sv & s & -> & Hv & H).
      apply denotes_seq_inv in H as (g3 & s' & -> & H3 & H).
      apply denotes_seq_inv in H as (h3 & s & -> & Hh3 & H).
      apply denotes_seq_inv in H as (sy & s' & -> & Hy & H).
      apply denotes_seq_inv in H as (g4 & s & -> & H4 & H).
      apply denotes_seq_inv in H as (h4 & g5 & -> & Hh4 & H5).
      apply denotes_lit in Hh1 as ->. apply denotes_lit in Hh2 as ->.
      apply denotes_lit in Hh3 as ->. apply denotes_lit in Hh4 as ->.
      apply denotes_class_inv in Hv as (v & -> & Hv).
      apply denotes_class_inv in Hy as (y & -> & Hy).
      apply denotes_times_class in H1 as [L1 A1].
      apply denotes_times_class in H2 as [L2 A2].
      apply denotes_times_class in H3 as [L3 A3].
      apply denotes_times_class in H4 as [L4 A4].
      apply denotes_times_class in H5 as [L5 A5].
      exists g1, g2, v, g3, y, g4, g5. repeat split; assumption.
    - intros (g1 & g2 & v & g3 & y & g4 & g5 & -> & L1 & A1 & L2 & A2 & Hv
              & L3 & A3 & Hy & L4 & A4 & L5 & A5).
      constructor; [apply (denotes_times_class 8); now split|].
      constructor; [now apply denotes_lit|].
      constructor; [apply (denotes_times_class 4); now split|].
      constructor; [now apply denotes_lit|].
      change (String v g3 ++ "-" ++ String y g4 ++ "-" ++ g5)%string
        with (String v "" ++ g3 ++ "-" ++ String y g4 ++ "-" ++ g5)%string.
      constructor; [now constructor|].
      constructor; [apply (denotes_times_class 3); now split|].
      constructor; [now apply denotes_lit|].
      change (String y g4 ++ "-" ++ g5)%string
        with (String y "" ++ g4 ++ "-" ++ g5)%string.
      constructor; [now constructor|].
      constructor; [apply (denotes_times_class 3); now split|].
      constructor; [now apply denotes_lit|].
      apply (denotes_times_class 12). now split. }
  split; [exact Hshape|]. split.
  - intros H. apply Hshape in H
      as (g1 & g2 & v & g3 & y & g4 & g5 & -> & L1 & _ & L2 & _ & _ & L3 & _ & _
          & L4 & _ & L5 & _).
    repeat first [rewrite length_append | progress app | progress cbn [String.length]].
    rewrite L1, L2, L3, L4, L5. reflexivity.
  - intros other Hsame. unfold isValidUUID, test_anchored.
    symmetry. apply matches_any_same_but_case; [|exact Hsame].
    constructor; [exact uuidRegex_case_blind|constructor].
Qed.

End FormatFacts.

(** ** Validation in the service and in the shared utility *)

Module ValidationFacts.
Import JSString AuthService PasswordFacts.

(** X5.  The shared [ValidationUtils.validatePassword] lists every rule
    a password breaks, one error each, and finds it valid exactly when it
    meets the policy of the service and also holds a special character.
    What it accepts the service accepts; and when the service turns a
    password down, its message is that of the first error the utility
    lists. *)
Theorem password_checks_agree (password : string) :
  let shared := ValidationUtils.validatePassword password in
  ValidationUtils.isValid shared
  = Policy.minimum password && test_class is_special password
  /\ List.length (ValidationUtils.errors shared)
     = ((if (JSString.length password <? 8)%Z then 1 else 0)
        + (if test_class is_upper password then 0 else 1)
        + (if test_class is_lower password then 0 else 1)
        + (if test_class is_digit password then 0 else 1)
        + (if test_class is_special password then 0 else 1))%nat
  /\ (if ValidationUtils.isValid shared
      then validatePassword password = success true
      else True)
  /\ _error (validatePassword password)
     = (if Policy.minimum password then None
        else option_map ValidationUtils.message
               (List.head (ValidationUtils.errors shared))).
Proof.
  unfold ValidationUtils.validatePassword, validatePassword, Policy.minimum, test_class.
  rewrite (Z.leb_antisym (JSString.length password) 8).
  destruct (JSString.length password <? 8);
    destruct (existsb is_upper _); destruct (existsb is_lower _);
    destruct (existsb is_digit _); destruct (existsb is_special _);
    repeat split.
Qed.

(** The messages of the five checks of a registration. *)
Lemma registrationErrors_shape (request : RegisterRequest) :
  exists e2,
    registrationErrors request
    = Return ((if negb (truthy (rr_email request)) || negb (isValidEmail (rr_email request))
               then ["Valid email is required"] else [])
              ++ e2
              ++ (if negb (truthy (rr_firstName request))
                     || (JSString.length (trim (rr_firstName request)) <? 2)
                  then ["First name must be at least 2 characters"] else [])
              ++ (if negb (truthy (rr_lastName request))
                     || (JSString.length (trim (rr_lastName request)) <? 2)
                  then ["Last name must be at least 2 characters"] else [])
              ++ (if negb (truthy (rr_role request))
                     || negb (includes recognizedRoles (toUpperCase (rr_role request)))
                  then ["Valid role is required"] else []))%list
    /\ (if Policy.minimum (rr_password request)
        then e2 = []
        else In e2 [["Password is required"];
                    ["Password must be at least 8 characters long"];
                    ["Password must contain at least one uppercase letter"];
                    ["Password must contain at least one lowercase letter"];
                    ["Password must contain at least one number"]]).
Proof.
  unfold registrationErrors.
  destruct (truthy (rr_password request)) eqn:Ht; cbn [negb].
  - unfold validatePassword, Policy.minimum, test_class.
    rewrite (Z.leb_antisym (JSString.length (rr_password request)) 8).
    destruct (JSString.length (rr_password request) <? 8);
      [eexists; split; [reflexivity|simpl; auto]|].
    destruct (existsb is_upper _); [|eexists; split; [reflexivity|simpl; auto]].
    destruct (existsb is_lower _); [|eexists; split; [reflexivity|simpl; auto 6]].
    destruct (existsb is_digit _); [|eexists; split; [reflexivity|simpl; auto 7]].
    eexists; split; reflexivity.
  - apply truthy_false in Ht. rewrite Ht. eexists; split; [reflexivity|simpl; auto].
Qed.

(** X6.  [validateRegistrationRequest] never throws.  It succeeds exactly
    when the email has the shape of an address, the password meets the
    policy, the first and the last name have at least two characters once
    trimmed, and the role in upper case is a recognized one; otherwise it
    fails with one message for each check that failed, joined by a comma
    and a space. *)
Theorem registration_checks (request : RegisterRequest) :
  let email_ok := truthy (rr_email request) && isValidEmail (rr_email request) in
  let password_ok := Policy.minimum (rr_password request) in
  let first_ok := truthy (rr_firstName request)
                  && (2 <=? JSString.length (trim (rr_firstName request))) in
  let last_ok := truthy (rr_lastName request)
                 && (2 <=? JSString.length (trim (rr_lastName request))) in
  let role_ok := includes recognizedRoles (toUpperCase (rr_role request)) in
  exists errors r,
    registrationErrors request = Return errors
    /\ validateRegistrationRequest request = Return r
    /\ isSuccess r = email_ok && password_ok && first_ok && last_ok && role_ok
    /\ List.length errors
       = ((if email_ok then 0 else 1) + (if password_ok then 0 else 1)
          + (if first_ok then 0 else 1) + (if last_ok then 0 else 1)
          + (if role_ok then 0 else 1))%nat
    /\ r = (if isSuccess r then success true else failure (join ", " errors)).
Proof.
  cbv zeta.
  destruct (registrationErrors_shape request) as (e2 & He & H2).
  assert (Hrole : truthy (rr_role request)
                  && includes recognizedRoles (toUpperCase (rr_role request))
                  = includes recognizedRoles (toUpperCase (rr_role request))).
  { destruct (rr_role request); reflexivity. }
  rewrite !(Z.ltb_antisym 2), <- !negb_andb, Hrole in He.
  unfold validateRegistrationRequest. rewrite He.
  set (email_ok := truthy (rr_email request) && isValidEmail (rr_email request)) in *.
  set (password_ok := Policy.minimum (rr_password request)) in *.
  set (first_ok := truthy (rr_firstName request)
                   && (2 <=? JSString.length (trim (rr_firstName request)))) in *.
  set (last_ok := truthy (rr_lastName request)
                  && (2 <=? JSString.length (trim (rr_lastName request)))) in *.
  set (role_ok := includes recognizedRoles (toUpperCase (rr_role request))) in *.
  clearbody email_ok password_ok first_ok last_ok role_ok. clear He Hrole.
  destruct password_ok.
  - subst e2.
    destruct email_ok, first_ok, last_ok, role_ok;
      (eexists _, _; split; [reflexivity|]; split; [reflexivity|]; repeat split).
  - simpl in H2.
    destruct H2 as [<-|[<-|[<-|[<-|[<-|[]]]]]];
      destruct email_ok, first_ok, last_ok, role_ok;
      (eexists _, _; split; [reflexivity|]; split; [reflexivity|]; repeat split).
Qed.

Lemma register_result_cases {S} (repo : IUserRepository S) (bcrypt : Bcrypt.library)
    (svc : service) (request : RegisterRequest) (uuid : string) (st : S) (r : Result User) :
  snd (register repo bcrypt svc request uuid st) = Return r ->
  isSuccess r = true
  \/ r = failure "User with this email already exists"
  \/ r = failure "Failed to create user account"
  \/ r = failure "Invalid user role"
     /\ validateRegistrationRequest request = Return (success true)
     /\ userForRole request (Bcrypt.hash bcrypt (rr_password request) saltRounds) uuid
        = None
  \/ exists errors,
       registrationErrors request = Return errors /\ errors <> []
       /\ r = failure (join ", " errors).
Proof.
  unfold register, JS.bind, validateReady, JS.lift, try_catch, JS.ret.
  destruct (BaseService.validateReady (base svc)); [|discriminate].
  destruct (registration_checks request) as (errors & v & He & Hv & _ & _ & Hr).
  rewrite Hv. destruct (isSuccess v) eqn:Hs.
  - rewrite Hr. cbn [isFailure success _isSuccess negb].
    destruct (findByEmail repo (rr_email request) st) as [st1 [found|e]]; cbn [snd];
      [|intros [= <-]; auto].
    destruct (isSuccess found).
    + destruct (data found) as [[[u|]|]|e]; cbn [snd].
      * intros [= <-]. auto.
      * destruct (userForRole request _ uuid) as [u|] eqn:Hu;
          [|intros [= <-]; right; right; right; left; repeat split; congruence].
        destruct (create repo u st1) as [st2 [saved|e]]; cbn [snd];
          [|intros [= <-]; auto].
        destruct (isFailure saved) eqn:Hf; [intros [= <-]; auto|].
        unfold isFailure in Hf. apply negb_false_iff in Hf.
        unfold data. rewrite Hf. cbn [negb snd]. intros [= <-]. now left.
      * destruct (userForRole request _ uuid) as [u|] eqn:Hu;
          [|intros [= <-]; right; right; right; left; repeat split; congruence].
        destruct (create repo u st1) as [st2 [saved|e]]; cbn [snd];
          [|intros [= <-]; auto].
        destruct (isFailure saved) eqn:Hf; [intros [= <-]; auto|].
        unfold isFailure in Hf. apply negb_false_iff in Hf.
        unfold data. rewrite Hf. cbn [negb snd]. intros [= <-]. now left.
      * intros [= <-]. auto.
    + cbn [snd].
      destruct (userForRole request _ uuid) as [u|] eqn:Hu;
        [|intros [= <-]; right; right; right; left; repeat split; congruence].
      destruct (create repo u st1) as [st2 [saved|e]]; cbn [snd];
        [|intros [= <-]; auto].
      destruct (isFailure saved) eqn:Hf; [intros [= <-]; auto|].
      unfold isFailure in Hf. apply negb_false_iff in Hf.
      unfold data. rewrite Hf. cbn [negb snd]. intros [= <-]. now left.
  - rewrite Hr. cbn [isFailure failure failure_with _isSuccess negb snd].
    intros [= <-]. right; right; right; right. exists errors.
    split; [exact He|]. split; [|reflexivity].
    intros ->. unfold validateRegistrationRequest in Hv. rewrite He in Hv.
    injection Hv as <-. discriminate.
Qed.

(** X7.  The [default] branch of the role [switch] is never taken: for
    every store, request and state, [register] does not return the failure
    "Invalid user role".  A role without a case has already failed the
    validation. *)
Theorem invalid_user_role_unreachable {S} (repo : IUserRepository S)
    (bcrypt : Bcrypt.library) (svc : service) (request : RegisterRequest)
    (uuid : string) (st : S) :
  snd (register repo bcrypt svc request uuid st) <> Return (failure "Invalid user role").
Proof.
  intros H.
  apply register_result_cases in H
    as [Hs|[H|[H|[(_ & Hv & Hu)|(errors & He & Hne & Hr)]]]].
  - discriminate.
  - discriminate.
  - discriminate.
  - apply Registration.valid_request_role in Hv.
    destruct (Registration.recognized_role_builds request
                (Bcrypt.hash bcrypt (rr_password request) saltRounds) uuid Hv)
      as (u & Hu' & _).
    congruence.
  - destruct (registrationErrors_shape request) as (e2 & He' & H2).
    rewrite He' in He. injection He as He. clear He'.
    assert (He2 : e2 = [] \/ exists m rest,
                    e2 = [String "P" (String "a" (String "s" (String "s" rest)))] /\ m = rest).
    { destruct (Policy.minimum (rr_password request)); [now left|right].
      simpl in H2. destruct H2 as [<-|[<-|[<-|[<-|[<-|[]]]]]]; eauto. }
    clear H2.
    repeat match type of He with
           | context [if ?b then _ else _] => destruct b
           end;
      destruct He2 as [->|(m & rest & -> & _)]; subst errors;
      try contradiction; cbv in Hr; discriminate.
Qed.

End ValidationFacts.

(** ** [Result]: how the combinators compose *)

Module ResultOpsFacts.
Import ResultOps.

(** X8.  [map] turns what [fn] throws into a failure that reads
    "Mapping failed: " followed by the thrown value as a string.  It
    throws itself exactly when [fn] threw a value whose conversion to a
    string throws, a Symbol for one, and then with the error of that
    conversion; an Error object thrown by [fn] never gets out of [map].
    A failure passes through [map] with its error and its details, and
    mapping twice is mapping once with the composed function, also
    where a function throws. *)
Theorem map_laws {T U V} (r : Result T) (f : option T -> outcome U)
    (g : option U -> outcome V) (d : T) (msg : string)
    (details : option ErrorDetails) :
  match map r f with
  | Return r' => map r' g
  | Throw e => Throw e
  end = map r (compose f g)
  /\ map (failure_with msg details : Result T) f = Return (failure_with msg details)
  /\ match f (Some d) with
     | Yields u => map (success d) f = Return (success u)
     | Throws (ThrownError e) =>
         map (success d) f = Return (failure ("Mapping failed: " ++ toString e))
     | Throws (ThrownValue (Return text)) =>
         map (success d) f = Return (failure ("Mapping failed: " ++ text))
     | Throws (ThrownValue (Throw e)) => map (success d) f = Throw e
     end
  /\ (forall e, map r f = Throw e
                <-> _isSuccess r = true
                    /\ f (_data r) = Throws (ThrownValue (Throw e))).
Proof.
  split; [|split; [reflexivity|split]].
  - unfold map, compose. destruct (_isSuccess r); [|reflexivity].
    destruct (f (_data r)) as [u|t]; [reflexivity|].
    destruct (text_of t); reflexivity.
  - unfold map. cbn [success _isSuccess _data].
    destruct (f (Some d)) as [u|[e|[text|e]]]; reflexivity.
  - intros e. unfold map. destruct (_isSuccess r).
    + destruct (f (_data r)) as [u|[x|[text|x]]]; simpl; split;
        try discriminate; try (intros [_ H]; discriminate).
      * intros H. injection H as ->. split; reflexivity.
      * intros [_ H]. injection H as ->. reflexivity.
    + split; [discriminate|intros [H _]; discriminate].
Qed.

(** X9.  [flatMap] obeys the laws of a monad on results: chaining from a
    success is applying the function, chaining into the constructor of
    successes changes nothing, and chains may be regrouped.  A failure
    short-cuts the function and keeps its error and details. *)
Theorem flatMap_laws {T U V} (r : Result T) (f : option T -> Result U)
    (g : option U -> Result V) (d : T) (msg : string) (details : option ErrorDetails) :
  flatMap (success d) f = f (Some d)
  /\ flatMap (success d) (fun x => mkResult true x None None) = success d
  /\ flatMap (failure_with msg details : Result T) (fun x => mkResult true x None None)
     = failure_with msg details
  /\ flatMap (failure_with msg details : Result T) f = failure_with msg details
  /\ flatMap (flatMap r f) g = flatMap r (fun x => flatMap (f x) g).
Proof.
  repeat split. unfold flatMap. destruct (_isSuccess r); reflexivity.
Qed.

Lemma pipeline_failure {T} (steps : list (step T)) (msg : string)
    (details : option ErrorDetails) :
  pipeline steps (failure_with msg details) = Return (failure_with msg details).
Proof.
  induction steps as [|s steps IH]; [reflexivity|].
  simpl. destruct s; exact IH.
Qed.

(** X10.  Once a result is a failure, no pipeline of [map] and [flatMap]
    calls changes it or throws: the same error and details come out at
    the end.  There [unwrapOr] yields the default, [match] takes the
    failure arm with that error, and [unwrapOrThrow] throws an error with
    the message of the failure, where the accessor [data] throws its
    fixed one. *)
Theorem failure_is_absorbing {T U} (steps : list (step T)) (msg : string)
    (details : option ErrorDetails) (defaultValue : T)
    (onSuccess : option T -> U) (onFailure : option string -> option ErrorDetails -> U) :
  exists r,
    pipeline steps (failure_with msg details) = Return r
    /\ r = failure_with msg details
    /\ unwrapOr r defaultValue = Some defaultValue
    /\ match_ r onSuccess onFailure = onFailure (Some msg) details
    /\ unwrapOrThrow r = Throw (new_Error msg)
    /\ data r = Throw (new_Error "Cannot access data from a failed result").
Proof.
  exists (failure_with msg details). rewrite pipeline_failure. repeat split.
Qed.

End ResultOpsFacts.

(** ** [health] *)

Module HealthFacts.
Import Health.
Local Open Scope list_scope.

Lemma severity_lower (a b : HealthStatus) :
  severity (lower a b) = Nat.max (severity a) (severity b).
Proof. destruct a, b; reflexivity. Qed.

Lemma worst_app (l1 l2 : list HealthStatus) :
  worst (l1 ++ l2) = Nat.max (worst l1) (worst l2).
Proof.
  unfold worst. induction l1 as [|h l1 IH]; simpl; [reflexivity|].
  rewrite IH. apply Nat.max_assoc.
Qed.

Lemma worst_zero (l : list HealthStatus) :
  worst l = 0%nat <-> Forall (fun h => h = HEALTHY) l.
Proof.
  unfold worst. induction l as [|h l IH]; simpl.
  - split; [constructor|reflexivity].
  - split.
    + intros H.
      assert (severity h = 0 /\ fold_right Nat.max 0 (List.map severity l) = 0)%nat
        as [Hh Hl] by lia.
      constructor; [now destruct h|now apply IH].
    + intros H. inversion H as [|? ? Hh Hl]; subst. apply IH in Hl.
      rewrite Hl. reflexivity.
Qed.

Lemma worst_le (l : list HealthStatus) : (worst l <= 2)%nat.
Proof.
  unfold worst. induction l as [|h l IH]; simpl; [lia|]. destruct h; simpl; lia.
Qed.

Section Service.
Context {S Meta : Type}.

Lemma checkDependencies_spec (deps : registry (S:=S)) (now : Z) :
  forall (acc : list DependencyHealth) (ov : HealthStatus) (s : S),
    exists entries,
      fst (snd (checkDependencies deps now acc ov s)) = acc ++ entries
      /\ Forall2 (reported now) deps entries
      /\ severity (snd (snd (checkDependencies deps now acc ov s)))
         = Nat.max (severity ov) (worst (List.map status entries)).
Proof.
  induction deps as [|[n c] deps IH]; intros acc ov s; simpl.
  - exists []. rewrite app_nil_r, Nat.max_0_r. repeat split. constructor.
  - destruct (c s) as [s' [d|e]] eqn:Hc.
    + destruct (IH (acc ++ [d]) (lower ov (status d)) s') as (entries & He & Hf & Hs).
      exists (d :: entries). rewrite He, Hs, <- app_assoc, severity_lower.
      split; [reflexivity|]. split.
      * constructor; [|exact Hf]. exists s, s'. now left.
      * unfold worst. simpl. now rewrite Nat.max_assoc.
    + destruct (IH (acc ++ [mkDependencyHealth n UNHEALTHY None now (Some (message e))])
                  UNHEALTHY s') as (entries & He & Hf & Hs).
      exists (mkDependencyHealth n UNHEALTHY None now (Some (message e)) :: entries).
      rewrite He, Hs, <- app_assoc. split; [reflexivity|]. split.
      * constructor; [|exact Hf]. exists s, s'. right. exists e. now split.
      * unfold worst. simpl. destruct ov; simpl; lia.
Qed.

(** X11.  [health] reports the worst of what it saw.  The report has
    one entry for each registered dependency, in order of registration;
    a check that throws is entered as UNHEALTHY under its registered name
    with the message of the error.  The overall status is the worst among
    the entries and the answer of [checkServiceHealth], which counts as
    UNHEALTHY when it throws; it is HEALTHY exactly when every entry and
    that answer are.  [health] itself throws only when [getHealthMetadata]
    does. *)
Theorem health_reports_worst (deps : registry (S:=S))
    (checkServiceHealth : M S HealthStatus) (getHealthMetadata : M S Meta)
    (now : Z) (s : S) :
  let s1 := fst (checkDependencies deps now [] HEALTHY s) in
  let service := checkServiceHealth s1 in
  match health deps checkServiceHealth getHealthMetadata now s with
  | (s3, Return report) =>
      getHealthMetadata (fst service) = (s3, Return (metadata report))
      /\ timestamp report = now
      /\ Forall2 (reported now) deps (dependencies report)
      /\ severity (overall report)
         = Nat.max (worst (List.map status (dependencies report)))
                   (severity (answered (snd service)))
      /\ (overall report = HEALTHY <->
          Forall (fun d => status d = HEALTHY) (dependencies report)
          /\ answered (snd service) = HEALTHY)
  | (s3, Throw e) => getHealthMetadata (fst service) = (s3, Throw e)
  end.
Proof.
  intros s1 service. unfold health. subst service s1.
  destruct (checkDependencies_spec deps now [] HEALTHY s) as (entries & He & Hf & Hs).
  destruct (checkDependencies deps now [] HEALTHY s) as [s1 [ds ov]].
  cbn [fst snd] in *. subst ds. rewrite Nat.max_0_l in Hs.
  assert (Hov : forall ov',
             severity ov' = Nat.max (worst (List.map status entries))
                              (severity (answered (snd (checkServiceHealth s1)))) ->
             (ov' = HEALTHY <->
              Forall (fun d => status d = HEALTHY) entries
              /\ answered (snd (checkServiceHealth s1)) = HEALTHY)).
  { intros ov' Hsev. split.
    - intros ->. simpl in Hsev.
      assert (worst (List.map status entries) = 0
              /\ severity (answered (snd (checkServiceHealth s1))) = 0)%nat
        as [Hw Ha] by lia.
      split.
      + apply worst_zero in Hw. rewrite List.Forall_map in Hw. exact Hw.
      + now destruct (answered _).
    - intros [Hall Ha]. rewrite Ha in Hsev.
      assert (Hw : worst (List.map status entries) = 0%nat)
        by (apply worst_zero; rewrite List.Forall_map; exact Hall).
      rewrite Hw in Hsev. now destruct ov'. }
  destruct (checkServiceHealth s1) as [s2 [h|e]]; cbn [fst snd answered] in *.
  - destruct (getHealthMetadata s2) as [s3 [m|e]]; [|reflexivity].
    cbn [metadata timestamp dependencies overall].
    split; [reflexivity|]. split; [reflexivity|]. split; [exact Hf|].
    split; [now rewrite severity_lower, Hs|].
    apply Hov. now rewrite severity_lower, Hs.
  - destruct (getHealthMetadata s2) as [s3 [m|e']]; [|reflexivity].
    cbn [metadata timestamp dependencies overall].
    split; [reflexivity|]. split; [reflexivity|]. split; [exact Hf|].
    pose proof (worst_le (List.map status entries)) as Hle.
    split; [simpl; lia|].
    apply (Hov UNHEALTHY). simpl. lia.
Qed.

End Service.

(** X12.  [health] of an initialized AuthService never throws and never
    answers DEGRADED.  It probes the store with [count] and reports the
    one dependency UserRepository; the overall status is HEALTHY exactly
    when [count] did not throw and both secrets are set.  A [count] that
    ends in a failure [Result] without throwing is reported as HEALTHY. *)
Theorem auth_health {S} (repo : IUserRepository S) (svc : AuthService.service)
    (start finish checked now : Z) (st : S) :
  let probe := count repo st in
  let up := returns (snd probe) in
  AuthHealth.health repo svc start finish checked now st
  = (fst probe,
     Return (mkServiceHealth
               (if up && truthy (AuthService.jwtSecret svc)
                   && truthy (AuthService.jwtRefreshSecret svc)
                then HEALTHY else UNHEALTHY)
               now
               [mkDependencyHealth "UserRepository"
                  (if up then HEALTHY else UNHEALTHY)
                  (Some (finish - start)) checked
                  (match snd probe with Return _ => None | Throw e => Some (message e) end)]
               (AuthHealth.mkMetadata (truthy (AuthService.jwtSecret svc))
                  (truthy (AuthService.jwtRefreshSecret svc))))).
Proof.
  intros probe up. subst up probe.
  unfold AuthHealth.health, health, AuthHealth.initialized, AuthHealth.checkServiceHealth,
    AuthHealth.getHealthMetadata, AuthHealth.repositoryCheck.
  cbn [addDependency checkDependencies].
  destruct (count repo st) as [st1 [r|e]]; cbn [fst snd returns];
    destruct (truthy (AuthService.jwtSecret svc));
    destruct (truthy (AuthService.jwtRefreshSecret svc)); reflexivity.
Qed.

End HealthFacts.

(** ** [auditUpdate] and the queries on the audit log *)

Module EntityFacts.
Import BaseEntity EntityQueries AuditFacts.
Local Open Scope list_scope.





















End EntityFacts.

(** ** Tokens: [refreshToken] and [verifyToken] *)

Module TokenFacts.
Import AuthService.

Ltac enter Hready :=
  rewrite (ReadinessFacts.guarded_ready _ _ _ Hready);
  unfold try_catch, JS.bind, JS.lift, JS.ret.

(** The token [generateRefreshToken] signs, when it signs one. *)
Lemma generated_refresh (svc : service) (u : User) (now : Z) (b : Jwt.token) :
  generateRefreshToken svc u now = Return b ->
  truthy (jwtRefreshSecret svc) = true
  /\ b = Jwt.Signed (Jwt.mkPayload (id u) (email u) (role u) None now
                       (now + refreshTokenExpiry)) (jwtRefreshSecret svc).
Proof.
  unfold generateRefreshToken, Jwt.sign.
  destruct (truthy (jwtRefreshSecret svc)); [|discriminate].
  cbn [negb Jwt.c_userId Jwt.c_email Jwt.c_role Jwt.c_schoolId].
  intros H. injection H as <-. split; reflexivity.
Qed.

Lemma generated_access (svc : service) (u : User) (now : Z) (a : Jwt.token) :
  generateAccessToken svc u now = Return a ->
  truthy (jwtSecret svc) = true
  /\ a = Jwt.Signed (Jwt.mkPayload (id u) (email u) (role u) (schoolId u) now
                       (now + accessTokenExpiry)) (jwtSecret svc).
Proof.
  unfold generateAccessToken, Jwt.sign.
  destruct (truthy (jwtSecret svc)); [|discriminate].
  cbn [negb Jwt.c_userId Jwt.c_email Jwt.c_role Jwt.c_schoolId].
  intros H. injection H as <-. split; reflexivity.
Qed.

(** What the lookup pattern [r.isFailure || !r.data] lets through. *)
Lemma found_some (r : Result (option User)) (u : User) :
  found_user r = Some u ->
  isFailure r = false /\ data r = Return (Some (Some u)).
Proof.
  unfold found_user, isFailure, data.
  destruct r as [[] [[d|]|] e ed]; simpl; try discriminate.
  intros H. injection H as <-. split; reflexivity.
Qed.

Lemma found_none (r : Result (option User)) :
  found_user r = None ->
  isFailure r = true
  \/ (isFailure r = false /\ (data r = Return None \/ data r = Return (Some None))).
Proof.
  unfold found_user, isFailure, data.
  destruct r as [[] [[d|]|] e ed]; simpl; try discriminate; intros _; auto.
Qed.

Section Service.
Context {S : Type} (repo : IUserRepository S) (svc : service).
Hypothesis Hready : BaseService.isReady (base svc) = true.

(** X16.  Take two secrets of at most 64 bytes each.  When they are
    different keys, that is, different also once zero characters at the
    end are set aside, the two kinds of token are not interchangeable: an
    access token the service signed is turned down by [refreshToken]
    with "Invalid refresh token", and a refresh token it signed is
    turned down by [verifyToken] with "Invalid token", at any instant
    and before the store is consulted.  When they are one key, as a
    secret and the same secret followed by a zero character are, each
    token passes the signature check of the other operation until it
    expires. *)
Theorem token_kinds_not_interchangeable (u : User) (t0 now : Z) (st : S)
    (a b : Jwt.token) :
  Jwt.short_key (jwtSecret svc) = true ->
  Jwt.short_key (jwtRefreshSecret svc) = true ->
  generateAccessToken svc u t0 = Return a ->
  generateRefreshToken svc u t0 = Return b ->
  (Jwt.same_key (jwtSecret svc) (jwtRefreshSecret svc) = false ->
     refreshToken repo svc (mkRefreshTokenRequest a) now st
     = (st, Return (failure "Invalid refresh token"))
     /\ verifyToken repo svc b now st = (st, Return (failure "Invalid token")))
  /\ (Jwt.same_key (jwtSecret svc) (jwtRefreshSecret svc) = true ->
      (now < t0 + accessTokenExpiry ->
       exists p, Jwt.verify a (jwtRefreshSecret svc) now = Return p
                 /\ Jwt.userId p = id u)
      /\ (now < t0 + refreshTokenExpiry ->
          exists p, Jwt.verify b (jwtSecret svc) now = Return p
                    /\ Jwt.userId p = id u))
  /\ Jwt.same_key (jwtSecret svc) (jwtRefreshSecret svc)
     = String.eqb (Jwt.strip_zeros (jwtSecret svc))
         (Jwt.strip_zeros (jwtRefreshSecret svc))
  /\ (forall secret : string,
        Jwt.short_key (secret ++ String Ascii.zero "") = true ->
        Jwt.same_key secret (secret ++ String Ascii.zero "") = true).
Proof.
  intros Hsa Hsb Ha Hb.
  destruct (generated_access svc u t0 a Ha) as [Hka ->].
  destruct (generated_refresh svc u t0 b Hb) as [Hkb ->].
  split; [|split; [|split]].
  - intros Hne. split.
    + unfold refreshToken. enter Hready. cbn [rt_refreshToken Jwt.verify].
      rewrite Hkb, Hne. reflexivity.
    + unfold verifyToken. enter Hready. cbn [Jwt.verify].
      rewrite Hka, JwtFacts.same_key_sym, Hne. reflexivity.
  - intros Hsame. split; intros Hnow; apply Z.leb_gt in Hnow.
    + cbn [Jwt.verify]. rewrite Hkb, Hsame. cbn [negb Jwt.exp]. rewrite Hnow.
      eexists. split; reflexivity.
    + cbn [Jwt.verify]. rewrite Hka, JwtFacts.same_key_sym, Hsame.
      cbn [negb Jwt.exp]. rewrite Hnow. eexists. split; reflexivity.
  - unfold Jwt.same_key. now rewrite Hsa, Hsb.
  - intros secret Hs. apply JwtFacts.same_key_zero. exact Hs.
Qed.

(** X17.  A refresh token the service signed at [t0], presented before
    [t0] plus seven days, for a user the store finds and who may log in:
    [refreshToken] succeeds with the user as stored, a new access token
    that expires 15 minutes after the call and a new refresh token that
    expires seven days after it, both signed for the stored user.  The
    store is left as the lookup left it, so the presented token stays
    usable until it expires. *)
Theorem refresh_round_trip (u u' : User) (t0 now : Z) (st st1 : S)
    (b : Jwt.token) (r : Result (option User)) :
  generateRefreshToken svc u t0 = Return b ->
  truthy (jwtSecret svc) = true ->
  now < t0 + refreshTokenExpiry ->
  findById repo (id u) st = (st1, Return r) ->
  found_user r = Some u' ->
  canLogin u' = true ->
  exists a' b',
    refreshToken repo svc (mkRefreshTokenRequest b) now st
    = (st1, Return (success (mkLoginResponse u' a' b' (15 * 60))))
    /\ generateAccessToken svc u' now = Return a'
    /\ generateRefreshToken svc u' now = Return b'
    /\ Jwt.expiry a' = Some (now + 15 * 60)
    /\ Jwt.expiry b' = Some (now + 7 * 24 * 60 * 60).
Proof.
  intros Hb Hka Hnow Hfind Hfound Hcan.
  destruct (generated_refresh svc u t0 b Hb) as [Hkb ->].
  destruct (found_some r u' Hfound) as [Hfail Hdata].
  unfold refreshToken. enter Hready. cbn [rt_refreshToken Jwt.verify].
  rewrite Hkb, JwtFacts.same_key_refl. cbn [negb Jwt.exp].
  apply Z.leb_gt in Hnow. rewrite Hnow.
  cbn [Jwt.userId]. rewrite Hfind, Hfail, Hdata, Hcan. cbn [negb].
  unfold generateAccessToken, generateRefreshToken, Jwt.sign.
  rewrite Hka, Hkb. cbn [negb].
  eexists _, _. repeat split; reflexivity.
Qed.

(** X18.  The two token operations disagree on who is eligible.  For a
    stored user who is active but may not log in (locked out, or not
    verified), an access token before its expiry is accepted by
    [verifyToken], while a refresh token before its expiry is turned down
    by [refreshToken] with "User account is not active". *)
Theorem active_but_ineligible (u u' : User) (t0 now : Z) (st st1 : S)
    (a b : Jwt.token) (r : Result (option User)) :
  generateAccessToken svc u t0 = Return a ->
  generateRefreshToken svc u t0 = Return b ->
  now < t0 + accessTokenExpiry ->
  findById repo (id u) st = (st1, Return r) ->
  found_user r = Some u' ->
  isActive u' = true -> canLogin u' = false ->
  verifyToken repo svc a now st = (st1, Return (success u'))
  /\ refreshToken repo svc (mkRefreshTokenRequest b) now st
     = (st1, Return (failure "User account is not active")).
Proof.
  intros Ha Hb Hnow Hfind Hfound Hact Hcan.
  destruct (generated_access svc u t0 a Ha) as [Hka ->].
  destruct (generated_refresh svc u t0 b Hb) as [Hkb ->].
  destruct (found_some r u' Hfound) as [Hfail Hdata].
  assert (Hnow' : now < t0 + refreshTokenExpiry)
    by (unfold accessTokenExpiry, refreshTokenExpiry in *; lia).
  apply Z.leb_gt in Hnow, Hnow'.
  split.
  - unfold verifyToken. enter Hready. cbn [Jwt.verify].
    rewrite Hka, JwtFacts.same_key_refl. cbn [negb Jwt.exp]. rewrite Hnow.
    cbn [Jwt.userId]. rewrite Hfind, Hfail, Hdata, Hact. reflexivity.
  - unfold refreshToken. enter Hready. cbn [rt_refreshToken Jwt.verify].
    rewrite Hkb, JwtFacts.same_key_refl. cbn [negb Jwt.exp]. rewrite Hnow'.
    cbn [Jwt.userId]. rewrite Hfind, Hfail, Hdata, Hcan. reflexivity.
Qed.

End Service.

Lemma token_kinds_not_interchangeable_witness :
  exists a b,
    generateAccessToken Fixtures.ready Fixtures.asha 100 = Return a
    /\ generateRefreshToken Fixtures.ready Fixtures.asha 100 = Return b
    /\ refreshToken MemoryStore.repository Fixtures.ready (mkRefreshTokenRequest a) 200
         [Fixtures.asha]
       = ([Fixtures.asha], Return (failure "Invalid refresh token"))
    /\ verifyToken MemoryStore.repository Fixtures.ready b 200 [Fixtures.asha]
       = ([Fixtures.asha], Return (failure "Invalid token")).
Proof.
  eexists _, _. split; [reflexivity|]. split; [reflexivity|].
  apply (token_kinds_not_interchangeable MemoryStore.repository Fixtures.ready eq_refl
           Fixtures.asha 100 200 [Fixtures.asha] _ _ eq_refl eq_refl eq_refl eq_refl).
  reflexivity.
Defined.

Lemma refresh_round_trip_witness :
  exists b a' b',
    generateRefreshToken Fixtures.ready Fixtures.asha 100 = Return b
    /\ refreshToken MemoryStore.repository Fixtures.ready (mkRefreshTokenRequest b) 200
         [Fixtures.asha]
       = ([Fixtures.asha],
          Return (success (mkLoginResponse Fixtures.asha a' b' (15 * 60)))).
Proof.
  destruct (refresh_round_trip MemoryStore.repository Fixtures.ready eq_refl
              Fixtures.asha Fixtures.asha 100 200 [Fixtures.asha] [Fixtures.asha]
              (Jwt.Signed (Jwt.mkPayload "u-1" "asha@school.in" "TEACHER" None 100
                             (100 + refreshTokenExpiry)) "refresh-secret")
              (success (Some Fixtures.asha))
              eq_refl eq_refl eq_refl eq_refl eq_refl eq_refl)
    as (a' & b' & Hr & _).
  eexists _, a', b'. split; [reflexivity|exact Hr].
Defined.

Lemma active_but_ineligible_witness :
  exists a b,
    generateAccessToken Fixtures.ready Fixtures.asha_locked 100 = Return a
    /\ verifyToken MemoryStore.repository Fixtures.ready a 200 [Fixtures.asha_locked]
       = ([Fixtures.asha_locked], Return (success Fixtures.asha_locked))
    /\ refreshToken MemoryStore.repository Fixtures.ready (mkRefreshTokenRequest b) 200
         [Fixtures.asha_locked]
       = ([Fixtures.asha_locked], Return (failure "User account is not active")).
Proof.
  eexists _, _. split; [reflexivity|].
  apply (active_but_ineligible MemoryStore.repository Fixtures.ready eq_refl
           Fixtures.asha_locked Fixtures.asha_locked 100 200
           [Fixtures.asha_locked] [Fixtures.asha_locked] _ _
           (success (Some Fixtures.asha_locked)));
    reflexivity.
Defined.

End TokenFacts.

(** ** [changePassword] *)

Module PasswordChange.
Import AuthService TokenFacts.

Section Service.
Context {S : Type} (repo : IUserRepository S) (bcrypt : Bcrypt.library) (svc : service).
Hypothesis Hready : BaseService.isReady (base svc) = true.

(** X19.  What [changePassword] turns down, it turns down without
    writing.  After the lookup has answered: no user gives "User not
    found"; a current password that does not match gives "Current
    password is incorrect"; a new password short of the four rules of the
    service gives the failure of [validatePassword].  In each case the
    store is as the lookup left it.  A lookup that throws gives "Failed
    to change password". *)
Theorem changePassword_rejections (userId current new : string) (now : Z)
    (st st1 : S) (c : completion (Result (option User))) :
  findById repo userId st = (st1, c) ->
  match c with
  | Throw _ =>
      changePassword repo bcrypt svc userId current new now st
      = (st1, Return (failure "Failed to change password"))
  | Return r =>
      match found_user r with
      | None =>
          changePassword repo bcrypt svc userId current new now st
          = (st1, Return (failure "User not found"))
      | Some u =>
          (Bcrypt.compare bcrypt current (passwordHash u) = false ->
           changePassword repo bcrypt svc userId current new now st
           = (st1, Return (failure "Current password is incorrect")))
          /\ (Bcrypt.compare bcrypt current (passwordHash u) = true ->
              Policy.minimum new = false ->
              changePassword repo bcrypt svc userId current new now st
              = (st1, Return (validatePassword new))
              /\ isFailure (validatePassword new) = true)
      end
  end.
Proof.
  intros Hfind. unfold changePassword. enter Hready. rewrite Hfind.
  destruct c as [r|e]; [|reflexivity].
  destruct (found_user r) as [u|] eqn:Hfound.
  - destruct (found_some r u Hfound) as [-> ->]. split.
    + intros ->. reflexivity.
    + intros -> Hweak. cbn [negb].
      pose proof (PasswordFacts.isSuccess_validatePassword new) as Hs.
      unfold isSuccess in Hs. unfold isFailure. rewrite Hs, Hweak. split; reflexivity.
  - destruct (found_none r Hfound) as [->|[-> [->| ->]]]; reflexivity.
Qed.

(** X20.  Once the user is found, the current password matches and the
    new one meets the four rules of the service, [changePassword] asks
    the store to save the user with the new hash and answers success
    whenever that call returns -- also when it returns a failure
    [Result]; only a thrown error gives "Failed to change password".  No
    special character is asked of the new password, and it may equal the
    current one. *)
Theorem changePassword_ignores_update_result (userId current new : string) (now : Z)
    (st st1 : S) (r : Result (option User)) (u : User) :
  findById repo userId st = (st1, Return r) ->
  found_user r = Some u ->
  Bcrypt.compare bcrypt current (passwordHash u) = true ->
  Policy.minimum new = true ->
  let saved := resetPassword (Bcrypt.hash bcrypt new 12) userId now u in
  changePassword repo bcrypt svc userId current new now st
  = (fst (update repo userId saved st1),
     Return (match snd (update repo userId saved st1) with
             | Return _ => success true
             | Throw _ => failure "Failed to change password"
             end)).
Proof.
  intros Hfind Hfound Hcur Hnew saved.
  destruct (found_some r u Hfound) as [Hfail Hdata].
  unfold changePassword. enter Hready. rewrite Hfind, Hfail, Hdata, Hcur.
  cbn [negb].
  pose proof (PasswordFacts.isSuccess_validatePassword new) as Hs.
  unfold isSuccess in Hs. unfold isFailure at 1. rewrite Hs, Hnew. cbn [negb].
  subst saved. change saltRounds with 12.
  destruct (update repo userId _ st1) as [st2 [r2|e]]; reflexivity.
Qed.

End Service.

Lemma changePassword_rejections_witness :
  changePassword MemoryStore.repository Fixtures.bcrypt Fixtures.ready
    "u-1" "wrong" "Abcdef12" 50 [Fixtures.asha]
  = ([Fixtures.asha], Return (failure "Current password is incorrect")).
Proof.
  apply (changePassword_rejections MemoryStore.repository Fixtures.bcrypt Fixtures.ready
           eq_refl "u-1" "wrong" "Abcdef12" 50 [Fixtures.asha] [Fixtures.asha] _ eq_refl).
  reflexivity.
Defined.

(** On a read-only replica the answer is success although the stored
    hash is the old one. *)
Lemma changePassword_ignores_update_result_witness :
  changePassword Replica.readOnly Fixtures.bcrypt Fixtures.ready
    "u-1" "Abcdef12" "Abcdef12" 50 [Fixtures.asha]
  = ([Fixtures.asha], Return (success true)).
Proof.
  apply (changePassword_ignores_update_result Replica.readOnly Fixtures.bcrypt
           Fixtures.ready eq_refl "u-1" "Abcdef12" "Abcdef12" 50
           [Fixtures.asha] [Fixtures.asha] _ Fixtures.asha eq_refl eq_refl eq_refl eq_refl).
Defined.

End PasswordChange.

(** ** The role table *)

Module PermissionFacts.
Import UserRoles.

(** X21.  The table [ROLE_PERMISSIONS] and the roles of registration.
    SUPER_ADMIN is granted every permission; every role's list is free
    of repetitions; [READ_CONTENT] is granted to every role; deleting
    users, reading system logs and managing API keys are granted to
    SUPER_ADMIN alone.  Of the six roles of the table, registration
    accepts exactly SCHOOL_ADMIN, TEACHER and STUDENT; the role name
    ADMIN, which registration also accepts, is no role of the table. *)
Theorem role_table (r : UserRole) (p : Permission) :
  grants SUPER_ADMIN p = true
  /\ NoDup (ROLE_PERMISSIONS r)
  /\ grants r READ_CONTENT = true
  /\ (p = DELETE_USERS \/ p = VIEW_SYSTEM_LOGS \/ p = MANAGE_API_KEYS ->
      (grants r p = true <-> r = SUPER_ADMIN))
  /\ (JSString.includes AuthService.recognizedRoles (role_value r) = true
      <-> r = SCHOOL_ADMIN \/ r = TEACHER \/ r = STUDENT)
  /\ role_value r <> "ADMIN"
  /\ JSString.includes AuthService.recognizedRoles "ADMIN" = true.
Proof.
  split; [destruct p; reflexivity|].
  split; [destruct r; apply (bool_decide_unpack _); vm_compute; exact I|].
  split; [destruct r; reflexivity|].
  split.
  { intros [-> | [-> | ->]]; destruct r; split; intros H;
      try reflexivity; try discriminate. }
  split.
  { destruct r; split; intros H; try discriminate; try reflexivity; try tauto;
      destruct H as [H|[H|H]]; discriminate. }
  split; [destruct r; discriminate|reflexivity].
Qed.

End PermissionFacts.
